(* ===== verification/_CoqProject ===== *)
-Q . S2P
Prelude.v
Graph.v
Mutation.v
Paths.v
Dijkstra.v
Euler.v
JsValue.v
Http.v
Server.v
Client.v
View.v
Parser.v
Contract.v
System.v
Screen.v
Async.v
AsyncSafety.v
