(* ===== verification/Prelude.v ===== *)
(** * Gerador-de-Grafos: a verification development

    The repository is a graph editor.  Its only source file,
    [src/src/App.js], is a React client ("Graph Creator") that renders
    forms, parses the user's text into vertices and edges, sends HTTP
    requests to a graph engine at [http://127.0.0.1:5000] (create a graph,
    add vertices and edges, batch insert, neighbour, adjacency and degree
    queries, shortest path, Eulerian test, graph info) and shows the
    answers.  The engine itself is not part of the repository: it is
    modelled from the specification ([spec.md], sections 3 to 8), and every
    definition that models it is marked [spec_modelled] in the manifest.

    How the parts interact: a user event runs one handler of the client
    ([Client.on_event]); the handler builds a request from the React state
    its closure captured, the backend answers it ([Http.Backend], a state
    and a [serve] function), the handler updates the state from the
    answer or from axios's rejection, and the page ([View]) renders that
    state.  The client is written and proved against the [Backend]
    interface; [Server.engine] is the engine as one instance, and the
    contracts of [Contract] are what the client needs of any backend.

    Files, in dependency order:
    - [Prelude] (this file): the [result] error type of the engine with
      its [let*] notation in [gg_scope], the [gg] hint databases, the
      tactics [bdestruct], [gg_simpl] and [decide_by_eval], and the list
      lemmas the components share ([add_unique], [dedup], [countb],
      [all_some], [sum_nat], the counting lemma behind the handshake).
    - [Graph] (module [GraphStore], spec 4.1): the graph record (mode
      flags, vertices in insertion order, edges with multi-edges),
      [reset], [addVertex], [addEdge], [neighbors], [degree],
      [areAdjacent], runs of single insertions [run_ops]; the invariant
      [wf] and its preservation, the characterization of a run from
      [reset], the handshake lemma, symmetry of undirected adjacency.
    - [Mutation] (spec 4.2): [insertBatch], proved to be the sequence of
      single insertions ([insertBatch_run_ops], a refinement).
    - [Paths] (spec 4.3): level-synchronous breadth-first search keeping a
      path per discovered vertex, Dijkstra, the [shortestPath] query.  The
      search is proved to end within [order g + 1] levels on a well-formed
      graph ([bfs_terminates]: a non-empty frontier at level [k] means
      [k + 1] distinct vertices found, and at most [order g] exist), to
      find exactly the vertices reachable from the source ([bfs_spec],
      with [layer]/[reach] as the specification of walks) and to keep for
      each a walk no walk is shorter than.
    - [Dijkstra] (spec 4.3): Dijkstra's algorithm of [Paths] proved
      against weighted walks [wwalk]: with no negative weight every round
      keeps the invariant [dinv], the [order g + 1] rounds are enough for
      the loop to run out of unsettled entries, every vertex a walk
      reaches is settled with a walk no other walk beats, and the query
      returns that walk or [NoPath] ([shortestPath_weighted]).
    - [Euler] (spec 4.3): the circuit/path/neither classification, proved
      equal to the spec's characterization for undirected graphs
      ([eulerian_undirected]) and, for the circuit, for directed graphs
      ([eulerian_directed_circuit]).
    - [JsValue] (module [Js]): the JavaScript semantics [App.js] relies on
      (truthiness, SameValueZero [Set]s, [trim], [split], [parseFloat],
      [Number::toString]) and the string lemmas about them.
    - [Http]: JSON, [JSON.stringify]/[JSON.parse], [axios]'s outcome, the
      [Backend] class.
    - [Server] (spec 4.4, 6, 7): the engine's request handler [handle]
      with Flask-style URL and query parsing, status codes, JSON bodies.
    - [Client] (from [App.js]): the React state (lines 26-58), the batch
      text parser (lines 82-99, 153-166), every handler with its request,
      its updates and its [catch] branch, and the event wiring of the JSX
      (lines 305-763), over an abstract [Backend].  Each handler is split
      at its [await]: a request built from the captured state and the
      rest after the answer ([send]); batch insert and graph creation
      also return whether the rest calls the un-awaited
      [fetchGraphInfo()] ([send_refresh]); file upload is its
      [reader.onload] ([upload_onload], [upload_answer]).
    - [View] (from [App.js]): the vis-network [graph] of lines 276-284
      and every result panel of lines 582-796 with React's rendering:
      [show_if] for [x !== null && ...], [show_and] for [x && ...] (a
      falsy [x] renders itself, so 0 shows as text), [.map] lists that
      throw on anything but an array, [graphInfo.order] that throws on
      [undefined].  [view_okb] is the render invariant of the state:
      under it none of the ten [panels] throws ([view_okb_panels]).
    - [Parser]: what the batch loop computes.  Claims C15 (its label Set
      equals [dedup] of the endpoints, an equivalence), C16 (the batch
      format read back, a round trip) and C26 (the malformed lines: a
      lone label is ignored, a doubled space yields the empty label).
    - [Contract]: what the client needs of any backend.  [BatchContract]
      and [no_crash] (no sequence of events crashes the page against a
      backend keeping it); [backend_invariant] (a property every answer
      preserves holds after any events); the typing invariant that every
      text input holds a string (C19); against any backend, a failed
      upload leaves the merged lists on screen and is only logged (C28,
      witnessed with the [offline] backend).
    - [System]: the client against the engine.  Claims C1-C10, C21,
      C23-C25, C27, C31 and C32: the page never crashes, batch insert
      adopts the engine's lists, the upload defect, the page/engine
      divergences, error paths (an unknown vertex; a weight the graph's
      mode refuses; a label cut at [&] or [#] in the unencoded query
      string; a negative weight refusing every shortest path; a doubled
      space in the batch box storing the empty label), the order/size
      shown after single insertions, the neighbour, adjacency and
      shortest path queries seen on the page (unweighted: fewest edges;
      weighted: least total weight), the Eulerian answer (undirected and
      directed), the engine's [wf] invariant.
    - [Screen]: [View] on top of [System].  Claims C11-C14, C29 and C30:
      the drawing's bounds, the dangling edge of the single-insert form,
      the edge list text, the invisible adjacency answer, the error panel
      the neighbour and degree queries share, the missing label of a
      weight-0 edge in the drawing.
    - [Async] (spec 5 and the [await]s): requests in flight as a step
      relation [astep] over the page, the sent requests, the undelivered
      answers and the unfinished file reads; the engine answers one
      request at a time (its lock), answers arrive in any order, the rest
      of a batch insert or a creation sends its graph-info request, a
      file read runs [onload] later with the click's state.  The page
      starts as [aload], with the graph-info request of its mount-time
      [useEffect] in flight.  [run_sched] runs an explicit schedule and
      its runs are runs of [astep].  Claims C17, C18 and C20: three races
      of the page, each for a schedule written out in the statement
      (a late degree answer, the add-vertex answer clearing new typing, a
      creation overtaken by an earlier insertion's answer).
    - [AsyncSafety]: the invariant of [Async.astep] that keeps the page
      renderable: the list hooks hold arrays, [View.view_okb] holds, and
      every request in flight, undelivered answer and pending file read
      has a rest that keeps both, whatever the page it lands on.  It needs
      two contracts of the backend: [BatchContract] and [RenderContract]
      (every answer's fields render as React children), and the engine
      keeps the second ([engine_render_contract]).  Claim C22: against
      any backend keeping both, no interleaving crashes the page and no
      panel throws when rendered.

    Fuel: [bfs] runs [order g + 1] levels (enough by [bfs_terminates];
    [order g] would also do), [dijkstra] [order g + 1] rounds (enough by
    [dijkstra_fuel_enough]: each round settles a new vertex of the graph,
    so the last round finds nothing left to settle).  No other definition
    uses fuel.

    Not modelled: the React/MUI rendering machinery and vis-network's
    layout and drawing (pure presentation, libraries the source only
    calls; the [useEffect] of lines 286-303 only hands the [graph] value
    of [View.vis_graph] to vis-network), the browser's file picker beyond
    the text it yields, network
    transport beyond the order of answers (in [Client] each request is
    answered at once; [Async] lets every request, answer and file read
    interleave), network failures other than axios's rejection,
    floating-point rounding (weights are exact rationals [Q]), and 16-bit
    string code units (strings are 8-bit). *)

From Stdlib Require Import Lia.
From stdpp Require Import base list decidable.

Declare Scope gg_scope.
Delimit Scope gg_scope with gg.
Open Scope gg_scope.

(** ** The engine's error type *)

(** A fallible operation of the engine returns [Ok] with its value or
    [Err] with the error kind of spec section 7. *)
Inductive result (E A : Type) : Type :=
| Ok (a : A)
| Err (e : E).
Arguments Ok {E A} a.
Arguments Err {E A} e.

Definition result_bind {E A B} (r : result E A) (k : A -> result E B) : result E B :=
  match r with
  | Ok a => k a
  | Err e => Err e
  end.

Definition result_map {E A B} (f : A -> B) (r : result E A) : result E B :=
  match r with
  | Ok a => Ok (f a)
  | Err e => Err e
  end.

Definition is_ok {E A} (r : result E A) : bool :=
  match r with Ok _ => true | Err _ => false end.

Notation "'let*' x := c 'in' k" := (result_bind c (fun x => k))
  (at level 100, x name, c at level 100, k at level 100) : gg_scope.

(** Every option of the list is [Some]: their values. *)
Definition all_some {A} (l : list (option A)) : option (list A) :=
  fold_right (fun o acc => match o, acc with Some x, Some xs => Some (x :: xs) | _, _ => None end)
             (Some []) l.

(** Sum of a list of naturals. *)
Definition sum_nat (l : list nat) : nat := fold_right Nat.add 0 l.

(** ** Ordered sets as duplicate-free lists *)

Section Lists.
Context {A : Type} `{EqDecision A}.

(** Append [x] unless it is already present (insertion order kept). *)
Definition add_unique (x : A) (l : list A) : list A :=
  if decide (x ∈ l) then l else l ++ [x].

(** Keep the first occurrence of every element. *)
Definition dedup (l : list A) : list A :=
  fold_left (fun acc x => add_unique x acc) l [].

(** Number of elements satisfying [p]. *)
Definition countb (p : A -> bool) (l : list A) : nat := length (List.filter p l).

Lemma elem_of_add_unique x y l : y ∈ add_unique x l <-> y = x \/ y ∈ l.
Proof.
  unfold add_unique. case_decide; [naive_solver|].
  rewrite elem_of_app, list_elem_of_singleton. naive_solver.
Qed.

Lemma NoDup_add_unique x l : NoDup l -> NoDup (add_unique x l).
Proof.
  intros Hl. unfold add_unique. case_decide; [done|].
  apply list.NoDup_app. split; [done|]. split; [|apply NoDup_singleton].
  intros y Hy ->%list_elem_of_singleton. done.
Qed.

Lemma add_unique_present x l : x ∈ l -> add_unique x l = l.
Proof. intros H. unfold add_unique. by case_decide. Qed.

Lemma add_unique_absent x l : x ∉ l -> add_unique x l = l ++ [x].
Proof. intros H. unfold add_unique. by case_decide. Qed.

Lemma fold_add_unique_spec (l acc : list A) y :
  y ∈ fold_left (fun acc x => add_unique x acc) l acc <-> y ∈ acc \/ y ∈ l.
Proof.
  revert acc. induction l as [|x l IH]; intros acc; simpl.
  - rewrite elem_of_nil. naive_solver.
  - rewrite IH, elem_of_add_unique, elem_of_cons. naive_solver.
Qed.

Lemma fold_add_unique_NoDup (l acc : list A) :
  NoDup acc -> NoDup (fold_left (fun acc x => add_unique x acc) l acc).
Proof.
  revert acc. induction l as [|x l IH]; intros acc Hacc; simpl; [done|].
  apply IH, NoDup_add_unique, Hacc.
Qed.

Lemma elem_of_dedup x l : x ∈ dedup l <-> x ∈ l.
Proof. unfold dedup. rewrite fold_add_unique_spec, elem_of_nil. naive_solver. Qed.

Lemma NoDup_dedup l : NoDup (dedup l).
Proof. apply fold_add_unique_NoDup, NoDup_nil_2. Qed.

Lemma countb_app p l1 l2 : countb p (l1 ++ l2) = countb p l1 + countb p l2.
Proof. unfold countb. by rewrite List.filter_app, length_app. Qed.

Lemma elem_of_flat_map {B} (f : A -> list B) (l : list A) y :
  y ∈ List.flat_map f l <-> exists x, x ∈ l /\ y ∈ f x.
Proof.
  induction l as [|x l IH]; simpl.
  - rewrite elem_of_nil. setoid_rewrite elem_of_nil. naive_solver.
  - rewrite elem_of_app, IH. setoid_rewrite elem_of_cons. naive_solver.
Qed.

Lemma elem_of_List_filter (p : A -> bool) l x :
  x ∈ List.filter p l <-> p x = true /\ x ∈ l.
Proof. rewrite !list_elem_of_In, filter_In. naive_solver. Qed.

Lemma fold_add_unique_app (l1 l2 acc : list A) :
  fold_left (fun acc x => add_unique x acc) (l1 ++ l2) acc =
  fold_left (fun acc x => add_unique x acc) l2
    (fold_left (fun acc x => add_unique x acc) l1 acc).
Proof. apply fold_left_app. Qed.

Lemma countb_cons p x l :
  countb p (x :: l) = (if p x then 1 else 0) + countb p l.
Proof. unfold countb. simpl. by destruct (p x). Qed.

Lemma countb_zero p l : countb p l = 0 <-> forall x, x ∈ l -> p x = false.
Proof.
  induction l as [|x l IH]; [split; [intros _ y Hy; by apply elem_of_nil in Hy|done]|].
  rewrite countb_cons. destruct (p x) eqn:E.
  - split; [lia|]. intros H. by rewrite (H x) in E by (apply elem_of_cons; by left).
  - cbn. rewrite IH. split; intros H y Hy.
    + apply elem_of_cons in Hy as [->|Hy]; auto.
    + apply H. apply elem_of_cons. by right.
Qed.

Lemma elem_of_map_fst {B} (x : A) (l : list (A * B)) :
  x ∈ map fst l <-> exists y, (x, y) ∈ l.
Proof.
  rewrite list_elem_of_In, in_map_iff. split.
  - intros ([a b] & <- & H). exists b. by apply list_elem_of_In.
  - intros [y H]. exists (x, y). split; [done|]. by apply list_elem_of_In.
Qed.

(** In a list whose keys are distinct, a key has one value. *)
Lemma NoDup_fst_unique {B} (l : list (A * B)) k x y :
  NoDup (map fst l) -> (k, x) ∈ l -> (k, y) ∈ l -> x = y.
Proof.
  induction l as [|[k' z] l IH]; intros Hnd Hx Hy; [by apply elem_of_nil in Hx|].
  cbn in Hnd. apply list.NoDup_cons in Hnd as [Hk Hnd]. apply elem_of_cons in Hx, Hy.
  destruct Hx as [Hx|Hx], Hy as [Hy|Hy]; simplify_eq; [done| | |by apply IH];
    destruct Hk; apply elem_of_map_fst; eauto.
Qed.

End Lists.

(** ** Sums of natural numbers *)


Lemma all_some_map_Some {A B} (f : A -> B) (l : list A) :
  all_some (map (fun x => Some (f x)) l) = Some (map f l).
Proof. induction l as [|x l IH]; [done|]. unfold all_some in *. cbn [map fold_right]. by rewrite IH. Qed.

Lemma sum_nat_app l1 l2 : sum_nat (l1 ++ l2) = sum_nat l1 + sum_nat l2.
Proof. induction l1; simpl; lia. Qed.

Lemma sum_nat_map_add {A} (f g : A -> nat) (l : list A) :
  sum_nat (map (fun x => f x + g x) l) = sum_nat (map f l) + sum_nat (map g l).
Proof. induction l; simpl; lia. Qed.

Lemma elem_of_map_iff {A B} (f : A -> B) (l : list A) y :
  y ∈ map f l <-> exists x, y = f x /\ x ∈ l.
Proof.
  rewrite list_elem_of_In, in_map_iff. setoid_rewrite list_elem_of_In. naive_solver.
Qed.

(** Removing the [i]-th element takes its weight off the sum. *)
Lemma sum_nat_delete {A} (f : A -> nat) (l : list A) i x :
  l !! i = Some x -> sum_nat (map f (delete i l)) + f x = sum_nat (map f l).
Proof.
  revert i. induction l as [|y l IH]; intros [|i] Hi; cbn in Hi; try done.
  - injection Hi as ->. unfold sum_nat. cbn. lia.
  - specialize (IH i Hi). change (delete (S i) (y :: l)) with (y :: delete i l).
    unfold sum_nat in *. cbn [map fold_right]. lia.
Qed.

Section Counting.
Context {A B : Type} `{EqDecision B}.

(** Over a duplicate-free list, the indicator of one member sums to 1. *)
Lemma sum_indicator_NoDup (vs : list B) (a : B) :
  NoDup vs -> a ∈ vs ->
  sum_nat (map (fun v => if bool_decide (a = v) then 1 else 0) vs) = 1.
Proof.
  induction 1 as [|v vs Hv Hnd IH]; [by rewrite elem_of_nil|].
  rewrite elem_of_cons. intros Ha. simpl.
  case_bool_decide as Heq.
  - subst. enough (sum_nat (map (fun v0 => if bool_decide (v = v0) then 1 else 0) vs) = 0) by lia.
    clear IH Hnd. induction vs as [|w vs IHvs]; [done|]. simpl.
    rewrite elem_of_cons in Hv. case_bool_decide; naive_solver.
  - destruct Ha as [->|Ha]; [done|]. rewrite IH; [lia|done].
Qed.

(** Counting lemma: when every element's image [f x] lies in the
    duplicate-free list [vs], the counts of each [v] of [vs] add up to the
    length of the list. *)
Lemma sum_countb_partition (f : A -> B) (vs : list B) (l : list A) :
  NoDup vs -> (forall x, x ∈ l -> f x ∈ vs) ->
  sum_nat (map (fun v => countb (fun x => bool_decide (f x = v)) l) vs) = length l.
Proof.
  intros Hnd. induction l as [|x l IH]; intros Hin; simpl.
  - unfold countb. simpl. clear. induction vs; simpl; lia.
  - setoid_rewrite countb_cons. rewrite sum_nat_map_add.
    rewrite sum_indicator_NoDup; [|done|apply Hin; left].
    rewrite IH; [lia|]. intros y Hy. apply Hin. by right.
Qed.
End Counting.

(** ** Automation *)

Create HintDb gg discriminated.
Create Rewrite HintDb gg_rw.
#[export] Hint Resolve NoDup_add_unique NoDup_dedup fold_add_unique_NoDup : gg.
#[export] Hint Rewrite @elem_of_add_unique @elem_of_dedup @elem_of_flat_map @countb_app @sum_nat_app : gg_rw.

(** Case analysis on the boolean tests of the models: [bool_decide],
    [decide] and [if] on a boolean. *)
Ltac bdestruct :=
  repeat first
    [ case_bool_decide
    | case_decide
    | match goal with |- context [if ?b then _ else _] => destruct b eqn:? end ].

(** Unfold membership in the list operations of this file, then solve. *)
Ltac gg_simpl := autorewrite with gg_rw in *; simpl in *.

(** Close a decidable goal on concrete data by evaluation. *)
Ltac decide_by_eval :=
  match goal with |- ?P => apply (bool_decide_unpack P); vm_compute; exact I end.
