(* ===== verification/Graph.v ===== *)
(** Graph store of the engine (spec 4.1 and 3), module [GraphStore].

    The engine is not in the repository; this file follows the spec's
    contract.  A [graph] keeps its two mode flags, its vertices in
    insertion order without duplicates and its edges in insertion order
    (multi-edges allowed).  [addEdge] inserts missing endpoints and fails
    with [InvalidWeight] when the weight's presence contradicts the mode;
    the queries fail with [UnknownVertex].  The theorems: the invariant
    [wf] holds of every reachable graph, the vertices after a run of
    insertions are the distinct accepted labels, the handshake lemma, the
    symmetry of undirected adjacency and the functional behaviour of the
    queries. *)

From Stdlib Require Import QArith.
From stdpp Require Import base list strings decidable sets.
From S2P Require Import Prelude.

Module GraphStore.

Abbreviation label := string (only parsing).

#[export] Instance Q_eq_dec : EqDecision Q.
Proof. intros [n1 d1] [n2 d2]. solve_decision. Defined.

(** An edge: its endpoints and its weight, present exactly when the
    graph is weighted. *)
Record edge := mkEdge { efrom : label; eto : label; eweight : option Q }.

#[export] Instance edge_eq_dec : EqDecision edge.
Proof. intros [a1 b1 w1] [a2 b2 w2]. solve_decision. Defined.

Record graph := mkGraph {
  directed : bool;
  weighted : bool;
  vertices : list label;
  edges : list edge
}.

(** The error kinds of spec section 7. *)
Inductive gerror :=
| UnknownVertex (v : label)
| InvalidWeight
| NegativeWeight
| NoPath
| InvalidMode.

(** ** Operations *)

(** [reset d w]: discard the old graph, start an empty one in mode
    (directed = d, weighted = w). *)
Definition reset (d w : bool) : graph := mkGraph d w [] [].

(** [addVertex]: insert if absent; inserting a present label is a no-op. *)
Definition addVertex (v : label) (g : graph) : graph :=
  mkGraph (directed g) (weighted g) (add_unique v (vertices g)) (edges g).

(** A weight is required in a weighted graph and refused in an
    unweighted one. *)
Definition weight_ok (wtd : bool) (w : option Q) : bool :=
  match wtd, w with
  | true, Some _ | false, None => true
  | _, _ => false
  end.

(** [addEdge]: check the weight against the mode, insert the endpoints
    that are missing, append the edge. *)
Definition addEdge (a b : label) (w : option Q) (g : graph) : result gerror graph :=
  if weight_ok (weighted g) w then
    Ok (mkGraph (directed g) (weighted g)
          (add_unique b (add_unique a (vertices g)))
          (edges g ++ [mkEdge a b w]))
  else Err InvalidWeight.

Definition order (g : graph) : nat := length (vertices g).
Definition size (g : graph) : nat := length (edges g).

Definition has_vertex (v : label) (g : graph) : bool := bool_decide (v ∈ vertices g).

(** The vertices one edge [e] leads to from [v]: its head when [v] is its
    tail, and, in an undirected graph, its tail when [v] is its head. *)
Definition edge_targets (d : bool) (v : label) (e : edge) : list label :=
  (if bool_decide (efrom e = v) then [eto e] else []) ++
  (if negb d && bool_decide (eto e = v) then [efrom e] else []).

(** Successors of [v] in edge insertion order, with repetitions. *)
Definition successors (g : graph) (v : label) : list label :=
  List.flat_map (edge_targets (directed g) v) (edges g).

(** [neighbors v]: the set of vertices one edge away (out-neighbours when
    directed), first occurrences in insertion order. *)
Definition neighbors (v : label) (g : graph) : result gerror (list label) :=
  if has_vertex v g then Ok (dedup (successors g v)) else Err (UnknownVertex v).

Definition out_degree (g : graph) (v : label) : nat :=
  countb (fun e => bool_decide (efrom e = v)) (edges g).
Definition in_degree (g : graph) (v : label) : nat :=
  countb (fun e => bool_decide (eto e = v)) (edges g).

(** Degree answer: one number for an undirected graph (a self-loop counts
    twice), out- and in-degree for a directed one. *)
Inductive degree_report :=
| UndirectedDegree (d : nat)
| DirectedDegree (out_d in_d : nat).

Definition degree_total (r : degree_report) : nat :=
  match r with
  | UndirectedDegree d => d
  | DirectedDegree o i => o + i
  end.

Definition degree (v : label) (g : graph) : result gerror degree_report :=
  if has_vertex v g then
    Ok (if directed g then DirectedDegree (out_degree g v) (in_degree g v)
        else UndirectedDegree (out_degree g v + in_degree g v))
  else Err (UnknownVertex v).

(** Does edge [e] connect [a] to [b] in the applicable direction? *)
Definition joins (d : bool) (a b : label) (e : edge) : bool :=
  bool_decide (efrom e = a /\ eto e = b) ||
  (negb d && bool_decide (efrom e = b /\ eto e = a)).

Definition areAdjacent (a b : label) (g : graph) : result gerror bool :=
  if has_vertex a g then
    if has_vertex b g then Ok (existsb (joins (directed g) a b) (edges g))
    else Err (UnknownVertex b)
  else Err (UnknownVertex a).

(** ** Sequences of single insertions *)

Inductive op :=
| OpAddVertex (v : label)
| OpAddEdge (a b : label) (w : option Q).

(** One insertion; a rejected one leaves the graph as it was. *)
Definition apply_op (g : graph) (o : op) : graph :=
  match o with
  | OpAddVertex v => addVertex v g
  | OpAddEdge a b w =>
      match addEdge a b w g with Ok g' => g' | Err _ => g end
  end.

Definition run_ops (ops : list op) (g : graph) : graph := fold_left apply_op ops g.

(** Whether an insertion is accepted in a graph of weight mode [wtd]. *)
Definition accepted (wtd : bool) (o : op) : bool :=
  match o with
  | OpAddVertex _ => true
  | OpAddEdge _ _ w => weight_ok wtd w
  end.

Definition op_labels (o : op) : list label :=
  match o with
  | OpAddVertex v => [v]
  | OpAddEdge a b _ => [a; b]
  end.

Definition op_edges (o : op) : list edge :=
  match o with
  | OpAddVertex _ => []
  | OpAddEdge a b w => [mkEdge a b w]
  end.

(** ** Well-formedness *)

(** Vertices are distinct, every endpoint is a vertex, every weight fits
    the mode. *)
Definition wf (g : graph) : Prop :=
  NoDup (vertices g) /\
  (forall e, e ∈ edges g -> efrom e ∈ vertices g /\ eto e ∈ vertices g) /\
  (forall e, e ∈ edges g -> weight_ok (weighted g) (eweight e) = true).


(** Executable check of [wf] (see [wfb_sound]). *)
Definition wfb (g : graph) : bool :=
  bool_decide (NoDup (vertices g)) &&
  forallb (fun e => has_vertex (efrom e) g && has_vertex (eto e) g &&
                    weight_ok (weighted g) (eweight e)) (edges g).


(** Insertions used by the examples below. *)
Definition ex_ops : list op :=
  [OpAddVertex "A"; OpAddEdge "A" "B" None; OpAddEdge "B" "C" (Some 1%Q);
   OpAddEdge "B" "B" None; OpAddEdge "C" "A" None].

(** ** Basic facts *)

Lemma apply_op_mode g o :
  directed (apply_op g o) = directed g /\ weighted (apply_op g o) = weighted g.
Proof.
  destruct o as [v|a b w]; simpl; [done|].
  unfold addEdge. by destruct (weight_ok _ _).
Qed.

Lemma run_ops_mode ops g :
  directed (run_ops ops g) = directed g /\ weighted (run_ops ops g) = weighted g.
Proof.
  unfold run_ops. revert g. induction ops as [|o ops IH]; intros g; simpl; [done|].
  destruct (IH (apply_op g o)) as [-> ->]. apply apply_op_mode.
Qed.

(** One insertion, on the vertex and edge lists. *)
Lemma apply_op_lists g o :
  vertices (apply_op g o) =
    fold_left (fun acc x => add_unique x acc)
      (if accepted (weighted g) o then op_labels o else []) (vertices g) /\
  edges (apply_op g o) =
    edges g ++ (if accepted (weighted g) o then op_edges o else []).
Proof.
  destruct o as [v|a b w]; simpl.
  - by rewrite app_nil_r.
  - unfold addEdge. destruct (weight_ok _ _); simpl; [done|].
    by rewrite app_nil_r.
Qed.

Lemma has_vertex_spec v g : has_vertex v g = true <-> v ∈ vertices g.
Proof. unfold has_vertex. by rewrite bool_decide_eq_true. Qed.

Lemma addVertex_present v g : v ∈ vertices g -> addVertex v g = g.
Proof. intros H. unfold addVertex. rewrite add_unique_present by done. by destruct g. Qed.

Lemma joins_undirected_sym a b e : joins false a b e = joins false b a e.
Proof. unfold joins. simpl. bdestruct; naive_solver. Qed.

Lemma elem_of_edge_targets d v e u :
  u ∈ edge_targets d v e <->
  (efrom e = v /\ eto e = u) \/ (d = false /\ eto e = v /\ efrom e = u).
Proof.
  unfold edge_targets. rewrite elem_of_app.
  destruct d; simpl; bdestruct; rewrite ?elem_of_nil, ?list_elem_of_singleton; naive_solver.
Qed.

Lemma successors_vertices g u v : wf g -> v ∈ successors g u -> v ∈ vertices g.
Proof.
  intros (_ & Hend & _). unfold successors. rewrite elem_of_flat_map.
  intros (e & He & Ht). apply elem_of_edge_targets in Ht. destruct (Hend e He). naive_solver.
Qed.

Lemma wf_reset d w : wf (reset d w).
Proof.
  split; [constructor|]. split; intros e He; inversion He.
Qed.

#[export] Hint Resolve wf_reset : gg.

Lemma apply_op_wf g o : wf g -> wf (apply_op g o).
Proof.
  intros (Hnd & Hend & Hw). destruct (apply_op_mode g o) as [_ Hwt].
  destruct (apply_op_lists g o) as [Hv He]. unfold wf. rewrite Hv, He, Hwt.
  split; [by apply fold_add_unique_NoDup|]. split.
  - intros e. rewrite elem_of_app, !fold_add_unique_spec. intros [He'|He']; [naive_solver|].
    destruct o as [v|a b w]; simpl in *; [set_solver|].
    destruct (weight_ok (weighted g) w); simpl in *; set_solver.
  - intros e. rewrite elem_of_app. intros [He'|He']; [naive_solver|].
    destruct o as [v|a b w]; simpl in *; [set_solver|].
    destruct (weight_ok (weighted g) w) eqn:Hok; simpl in *; [|set_solver].
    by apply list_elem_of_singleton in He' as ->.
Qed.

Lemma run_ops_preserves_wf ops g : wf g -> wf (run_ops ops g).
Proof.
  unfold run_ops. revert g. induction ops as [|o ops IH]; intros g Hg; [done|].
  apply IH, apply_op_wf, Hg.
Qed.

(** The vertex and edge lists after a run of insertions. *)
Lemma run_ops_lists ops g :
  vertices (run_ops ops g) =
    fold_left (fun acc x => add_unique x acc)
      (List.flat_map op_labels (List.filter (accepted (weighted g)) ops)) (vertices g) /\
  edges (run_ops ops g) =
    edges g ++ List.flat_map op_edges (List.filter (accepted (weighted g)) ops).
Proof.
  unfold run_ops. revert g. induction ops as [|o ops IH]; intros g; simpl.
  - by rewrite app_nil_r.
  - destruct (IH (apply_op g o)) as [Hv He].
    destruct (apply_op_mode g o) as [_ Hwt]. rewrite Hwt in Hv, He.
    destruct (apply_op_lists g o) as [Hv1 He1]. rewrite Hv, He, Hv1, He1.
    destruct (accepted _ o); simpl.
    + by rewrite fold_add_unique_app, app_assoc.
    + by rewrite app_nil_r.
Qed.


Lemma existsb_joins_sym a b (l : list edge) :
  existsb (joins false a b) l = existsb (joins false b a) l.
Proof. induction l as [|e l IH]; simpl; [done|]. by rewrite joins_undirected_sym, IH. Qed.

Lemma degree_member v g :
  v ∈ vertices g ->
  match degree v g with Ok r => degree_total r | Err _ => 0 end =
  out_degree g v + in_degree g v.
Proof.
  intros Hv. unfold degree. rewrite (proj2 (has_vertex_spec v g) Hv).
  by destruct (directed g).
Qed.

Lemma wfb_sound g : wfb g = true -> wf g.
Proof.
  unfold wfb. rewrite andb_true_iff, bool_decide_eq_true, forallb_forall.
  intros [Hnd Hall]. split; [done|].
  split; intros e He; apply list_elem_of_In, Hall in He;
    rewrite !andb_true_iff, !has_vertex_spec in He; naive_solver.
Qed.

(** ** Properties *)

(** Invariant: every graph reached from [reset] by single
    insertions is well formed: distinct vertices, every edge endpoint a
    vertex, every weight consistent with the mode. *)
Theorem run_ops_wf d w ops : wf (run_ops ops (reset d w)).
Proof.
  unfold run_ops. generalize (wf_reset d w). generalize (reset d w).
  induction ops as [|o ops IH]; intros g Hg; simpl; [done|].
  by apply IH, apply_op_wf.
Qed.

(** Functional: after a run of insertions from [reset d w], the
    vertices are the distinct labels of the accepted insertions in first
    insertion order, the edges are the accepted edges in order, and the
    mode is unchanged; so [order] counts the distinct accepted labels and
    [size] the accepted edges (and both are 0 right after [reset]). *)
Theorem run_ops_from_reset d w ops :
  let g := run_ops ops (reset d w) in
  vertices g = dedup (List.flat_map op_labels (List.filter (accepted w) ops)) /\
  edges g = List.flat_map op_edges (List.filter (accepted w) ops) /\
  order g = length (dedup (List.flat_map op_labels (List.filter (accepted w) ops))) /\
  size g = length (List.flat_map op_edges (List.filter (accepted w) ops)) /\
  directed g = d /\ weighted g = w.
Proof.
  destruct (run_ops_lists ops (reset d w)) as [Hv He].
  destruct (run_ops_mode ops (reset d w)) as [Hd Hw].
  simpl in *. unfold order, size. rewrite Hv, He, Hd, Hw. done.
Qed.

(** Error: a degree query on a label that no insertion mentioned
    fails with [UnknownVertex], in every mode and after any insertions. *)
Theorem degree_never_inserted d w ops v :
  v ∉ List.flat_map op_labels ops ->
  degree v (run_ops ops (reset d w)) = Err (UnknownVertex v).
Proof.
  intros Hv. destruct (run_ops_lists ops (reset d w)) as [Hvs _].
  unfold degree. destruct (has_vertex v _) eqn:Hh; [|done].
  apply has_vertex_spec in Hh. rewrite Hvs, fold_add_unique_spec in Hh. gg_simpl.
  destruct Hh as [Hh|Hh]; [by apply elem_of_nil in Hh|].
  destruct Hh as (o & Ho & Hvo). apply elem_of_List_filter in Ho.
  exfalso. apply Hv. gg_simpl. exists o. naive_solver.
Qed.

(** Error: [addEdge] on any graph built from [reset d wt] fails
    with [InvalidWeight] exactly when the weight's presence contradicts
    the mode: a weight on an unweighted graph, none on a weighted one. *)
Theorem addEdge_invalid_weight d wt ops a b w :
  addEdge a b w (run_ops ops (reset d wt)) = Err InvalidWeight <->
  weight_ok wt w = false.
Proof.
  destruct (run_ops_mode ops (reset d wt)) as [_ Hw]. unfold addEdge.
  rewrite Hw. simpl. destruct (weight_ok wt w); split; congruence.
Qed.

(** Invariant: handshake lemma.  In a well-formed graph the degrees
    answered by [degree], summed over all vertices, are twice the number
    of edges (undirected: each edge counts at both ends, a self-loop twice;
    directed: out-degree plus in-degree). *)
Theorem handshake g :
  wf g ->
  sum_nat (map (fun v => match degree v g with Ok r => degree_total r | Err _ => 0 end)
              (vertices g)) = 2 * size g.
Proof.
  intros (Hnd & Hend & _).
  rewrite (map_ext_in _ (fun v => out_degree g v + in_degree g v)).
  2:{ intros v Hv. apply degree_member. by apply list_elem_of_In. }
  rewrite sum_nat_map_add. unfold out_degree, in_degree, size.
  rewrite (sum_countb_partition efrom), (sum_countb_partition eto); try done; [lia| |];
    intros e He; apply (Hend e He).
Qed.

(** Functional: undirected adjacency is symmetric: [areAdjacent a b]
    and [areAdjacent b a] give the same answer, and one fails exactly
    when the other does. *)
Theorem areAdjacent_undirected_sym a b g :
  directed g = false ->
  match areAdjacent a b g, areAdjacent b a g with
  | Ok x, Ok y => x = y
  | Err _, Err _ => True
  | _, _ => False
  end.
Proof.
  intros Hd. unfold areAdjacent. rewrite Hd.
  destruct (has_vertex a g), (has_vertex b g); try done.
  apply existsb_joins_sym.
Qed.

(** Functional: [neighbors v] lists each vertex one edge away from
    [v] exactly once: the heads of the edges leaving [v] and, when the
    graph is undirected, the tails of the edges entering [v]; it fails
    with [UnknownVertex] exactly on a label that is not a vertex. *)
Theorem neighbors_spec v g :
  match neighbors v g with
  | Ok ns =>
      v ∈ vertices g /\ NoDup ns /\
      forall u, u ∈ ns <-> exists e, e ∈ edges g /\
        ((efrom e = v /\ eto e = u) \/ (directed g = false /\ eto e = v /\ efrom e = u))
  | Err err => err = UnknownVertex v /\ v ∉ vertices g
  end.
Proof.
  unfold neighbors. destruct (has_vertex v g) eqn:Hh.
  - apply has_vertex_spec in Hh. split; [done|]. split; [apply NoDup_dedup|].
    intros u. unfold successors. gg_simpl. setoid_rewrite elem_of_edge_targets. naive_solver.
  - split; [done|]. intros Hv. apply has_vertex_spec in Hv. congruence.
Qed.


(** ** Witnesses *)

Lemma degree_never_inserted_witness :
  ("Z" ∉ List.flat_map op_labels ex_ops) /\
  degree "Z" (run_ops ex_ops (reset false false)) = Err (UnknownVertex "Z").
Proof.
  assert (H : "Z" ∉ List.flat_map op_labels ex_ops) by decide_by_eval.
  split; [exact H | apply (degree_never_inserted false false ex_ops "Z" H)].
Defined.

Lemma handshake_witness :
  wf (run_ops ex_ops (reset false false)) /\
  sum_nat (map (fun v => match degree v (run_ops ex_ops (reset false false)) with
                         | Ok r => degree_total r | Err _ => 0 end)
              (vertices (run_ops ex_ops (reset false false)))) =
  2 * size (run_ops ex_ops (reset false false)).
Proof.
  assert (H : wf (run_ops ex_ops (reset false false))) by (apply wfb_sound; vm_compute; reflexivity).
  split; [exact H | apply (handshake _ H)].
Defined.

Lemma areAdjacent_undirected_sym_witness :
  directed (run_ops ex_ops (reset false false)) = false /\
  areAdjacent "C" "A" (run_ops ex_ops (reset false false)) = Ok true /\
  match areAdjacent "A" "C" (run_ops ex_ops (reset false false)),
        areAdjacent "C" "A" (run_ops ex_ops (reset false false)) with
  | Ok x, Ok y => x = y
  | Err _, Err _ => True
  | _, _ => False
  end.
Proof.
  assert (H : directed (run_ops ex_ops (reset false false)) = false) by reflexivity.
  split; [exact H|]. split; [vm_compute; reflexivity|].
  apply (areAdjacent_undirected_sym "A" "C" _ H).
Defined.

End GraphStore.
