(* ===== verification/Mutation.v ===== *)
(** Batch insertion of the engine (spec 4.2), module [Mutation].

    [insertBatch] applies [addVertex] to every label, then [addEdge] to
    every edge, in input order; an edge whose weight contradicts the
    mode is skipped and recorded with its position, the others stay
    applied (best effort).  The refinement lemma [insertBatch_run_ops]
    shows a batch is the sequence of the single insertions of
    [GraphStore], so everything proved of [run_ops] holds of batches. *)

From Stdlib Require Import QArith.
From stdpp Require Import base list strings decidable.
From S2P Require Import Prelude Graph.

Module Mutation.
Import GraphStore.

Record batch_edge := mkBatchEdge { bfrom : label; bto : label; bweight : option Q }.

Definition edge_op (e : batch_edge) : op := OpAddEdge (bfrom e) (bto e) (bweight e).

(** One edge of the batch: applied, or skipped and recorded. *)
Definition batch_edge_step (acc : graph * list (nat * gerror) * nat) (e : batch_edge)
    : graph * list (nat * gerror) * nat :=
  let '(g, skipped, i) := acc in
  match addEdge (bfrom e) (bto e) (bweight e) g with
  | Ok g' => (g', skipped, S i)
  | Err err => (g, skipped ++ [(i, err)], S i)
  end.

Definition insertBatch (vs : list label) (es : list batch_edge) (g : graph)
    : graph * list (nat * gerror) :=
  let g1 := fold_left (fun g v => addVertex v g) vs g in
  let '(g2, skipped, _) := fold_left batch_edge_step es (g1, [], 0) in
  (g2, skipped).

Lemma fold_batch_edges_graph es g sk i :
  fst (fst (fold_left batch_edge_step es (g, sk, i))) = run_ops (map edge_op es) g.
Proof.
  revert g sk i. induction es as [|e es IH]; intros g sk i; simpl; [done|].
  unfold batch_edge_step at 1. destruct (addEdge _ _ _ g) eqn:He; rewrite IH; simpl; by rewrite ?He.
Qed.

Lemma fold_add_vertices vs g :
  fold_left (fun g v => addVertex v g) vs g = run_ops (map OpAddVertex vs) g.
Proof.
  revert g. induction vs as [|v vs IH]; intros g; simpl; [done|]. apply IH.
Qed.

(** Refinement: the graph a batch produces is the one the single
    insertions produce, vertices first, then edges, in input order. *)
Lemma insertBatch_run_ops vs es g :
  fst (insertBatch vs es g) = run_ops (map OpAddVertex vs ++ map edge_op es) g.
Proof.
  unfold insertBatch. rewrite fold_add_vertices.
  pose proof (fold_batch_edges_graph es (run_ops (map OpAddVertex vs) g) [] 0) as H.
  destruct (fold_left _ _ _) as [[g2 sk] n]. simpl in *. rewrite H.
  unfold run_ops. by rewrite fold_left_app.
Qed.

(** Every label of a batch is a vertex afterwards, whatever its edges. *)
Lemma insertBatch_has_vertex vs es g v :
  v ∈ vs -> v ∈ vertices (fst (insertBatch vs es g)).
Proof.
  intros Hv. rewrite insertBatch_run_ops.
  destruct (run_ops_lists (map OpAddVertex vs ++ map edge_op es) g) as [-> _].
  apply fold_add_unique_spec. right. apply elem_of_flat_map.
  exists (OpAddVertex v). split; [|by apply list_elem_of_singleton].
  apply list_elem_of_In, filter_In. split; [|done].
  apply in_or_app. left. apply in_map, list_elem_of_In, Hv.
Qed.

End Mutation.
