(* ===== verification/Paths.v ===== *)
(** Shortest paths of the engine (spec 4.3), module [Paths].

    Unweighted graphs: breadth-first search, level by level.  The search
    keeps every discovered vertex with the reversed path by which it was
    first discovered, and the current level (the frontier).  A level visits
    the frontier in queue order and each vertex's successors in edge
    insertion order, so the path kept for a vertex is the first one a
    queue-based BFS discovers (the spec's tie-break).  [bfs] runs
    [order g + 1] levels.  The second half of the file proves the search
    correct on a well-formed graph: [bfs_inv] describes the search after
    level [k] (found = within [k] edges, frontier = at distance [k], each
    kept path a shortest walk), [bfs_level_inv] shows a level preserves
    it, [bfs_terminates] that the frontier is empty after the fuel, and
    [bfs_spec] that exactly the reachable vertices are found.

    Weighted graphs: Dijkstra's algorithm over the same successor order,
    refused with [NegativeWeight] when an edge weighs less than 0.  An
    unweighted graph's edges weigh 1.  Its proof is in [Dijkstra].

    [shortestPath] is the query: [UnknownVertex] for an endpoint that is
    not a vertex, [NoPath] when the end is unreachable, otherwise the
    vertex sequence and its length (edges, or total weight). *)

From Stdlib Require Import QArith.
From stdpp Require Import base list strings decidable sets.
From S2P Require Import Prelude Graph.

Module Paths.
Import GraphStore.

(** ** Breadth-first search *)

(** Discovered vertices with their reversed paths from the source, and
    the current level, both in discovery order. *)
Record search := mkSearch {
  found : list (label * list label);
  frontier : list (label * list label)
}.

Definition bfs_init (s : label) : search := mkSearch [(s, [s])] [(s, [s])].

(** Reach [v] from [u] (reached by the reversed path [pu]): a vertex not
    discovered yet is discovered with path [v :: pu] and joins the next
    level. *)
Definition discover (pu : list label)
    (acc : list (label * list label) * list (label * list label)) (v : label)
    : list (label * list label) * list (label * list label) :=
  let '(fnd, next) := acc in
  if decide (v ∈ map fst fnd) then acc
  else (fnd ++ [(v, v :: pu)], next ++ [(v, v :: pu)]).

Definition visit (g : graph)
    (acc : list (label * list label) * list (label * list label)) (u : label * list label)
    : list (label * list label) * list (label * list label) :=
  fold_left (discover (snd u)) (successors g (fst u)) acc.

(** One level: visit the frontier in order, collect the next level. *)
Definition bfs_level (g : graph) (sr : search) : search :=
  let '(fnd, next) := fold_left (visit g) (frontier sr) (found sr, []) in
  mkSearch fnd next.

Fixpoint bfs_loop (fuel : nat) (g : graph) (sr : search) : search :=
  match fuel with
  | O => sr
  | S f => match frontier sr with
           | [] => sr
           | _ => bfs_loop f g (bfs_level g sr)
           end
  end.

(** The full search from [s]: [order g + 1] levels. *)
Definition bfs (g : graph) (s : label) : search :=
  bfs_loop (S (order g)) g (bfs_init s).

(** First entry for [v] in an association list. *)
Definition assoc {A} (v : label) (l : list (label * A)) : option A :=
  snd <$> List.find (fun p => bool_decide (fst p = v)) l.

(** ** What the search computes *)

(** The vertices reached from [s] by walks of exactly [n] edges (with
    repetitions); [reach g s n v] is "some walk of [n] edges leads from
    [s] to [v]". *)
Fixpoint layer (g : graph) (s : label) (n : nat) : list label :=
  match n with
  | O => [s]
  | S n => List.flat_map (successors g) (layer g s n)
  end.

Definition reach (g : graph) (s : label) (n : nat) (v : label) : Prop := v ∈ layer g s n.

(** Within [k] edges of [s]. *)
Definition within (g : graph) (s : label) (k : nat) (v : label) : Prop :=
  exists m, m <= k /\ reach g s m v.

(** At distance exactly [k] from [s]. *)
Definition fresh_at (g : graph) (s : label) (k : nat) (v : label) : Prop :=
  reach g s k v /\ forall m, m < k -> ~ reach g s m v.

(** A walk from [s] written backwards: its last element is [s] and each
    element is a successor of the next. *)
Fixpoint rwalk (g : graph) (s : label) (p : list label) : Prop :=
  match p with
  | [] => False
  | [v] => v = s
  | v :: ((u :: _) as p') => v ∈ successors g u /\ rwalk g s p'
  end.

(** Kept path for [v]: it ends in [v], is a walk from [s], and no walk
    from [s] to [v] is shorter. *)
Definition shortest_entry (g : graph) (s v : label) (p : list label) : Prop :=
  head p = Some v /\ rwalk g s p /\ forall m, reach g s m v -> length p <= S m.

(** The search after level [k]: its discovered vertices, each once, are
    those within [k] edges, each with a shortest path; the frontier holds
    those at distance exactly [k]; a nonempty frontier means at least
    [k + 1] vertices are found. *)
Definition bfs_inv (g : graph) (s : label) (k : nat) (sr : search) : Prop :=
  NoDup (map fst (found sr)) /\
  (forall v, v ∈ map fst (found sr) <-> within g s k v) /\
  (forall v, v ∈ map fst (frontier sr) <-> fresh_at g s k v) /\
  (forall x, x ∈ frontier sr -> x ∈ found sr) /\
  (forall v p, (v, p) ∈ found sr -> shortest_entry g s v p) /\
  (frontier sr <> [] -> S k <= length (found sr)).

(** ** Dijkstra *)

(** The weight an edge contributes: its own, or 1 when it has none. *)
Definition edge_cost (e : edge) : Q :=
  match eweight e with Some q => q | None => 1%Q end.

(** Successors of [v] with the cost of the edge leading there, in edge
    insertion order. *)
Definition weighted_successors (g : graph) (v : label) : list (label * Q) :=
  List.flat_map (fun e => map (fun u => (u, edge_cost e)) (edge_targets (directed g) v e)) (edges g).

(** Tentative costs and reversed paths, and the settled vertices. *)
Record dstate := mkDState {
  tentative : list (label * (Q * list label));
  settled : list label
}.

(** One step of the scan for the cheapest unsettled entry: [p] replaces
    the best so far only when strictly cheaper. *)
Definition select_step (settled_ : list label) (best : option (label * (Q * list label)))
    (p : label * (Q * list label)) : option (label * (Q * list label)) :=
  if decide (fst p ∈ settled_) then best else
  match best with
  | None => Some p
  | Some b => if Qlt_le_dec (fst (snd p)) (fst (snd b)) then Some p else best
  end.

(** The unsettled entry of least cost, the first one among equals. *)
Definition select_min (ds : dstate) : option (label * (Q * list label)) :=
  fold_left (select_step (settled ds)) (tentative ds) None.

(** Offer [v] the cost [c] by the reversed path [p]: kept when [v] is
    unsettled and new or strictly cheaper than its tentative cost. *)
Definition relax (settled_ : list label) (c : Q) (p : list label)
    (tent : list (label * (Q * list label))) (vw : label * Q)
    : list (label * (Q * list label)) :=
  let '(v, w) := vw in
  if decide (v ∈ settled_) then tent else
  match assoc v tent with
  | None => tent ++ [(v, (c + w, v :: p))%Q]
  | Some (cv, _) =>
      if Qlt_le_dec (c + w) cv
      then map (fun q => if bool_decide (fst q = v) then (v, (c + w, v :: p))%Q else q) tent
      else tent
  end.

Fixpoint dijkstra_loop (fuel : nat) (g : graph) (ds : dstate) : dstate :=
  match fuel with
  | O => ds
  | S f =>
      match select_min ds with
      | None => ds
      | Some (u, (c, p)) =>
          let st' := settled ds ++ [u] in
          dijkstra_loop f g
            (mkDState (fold_left (relax st' c p) (weighted_successors g u) (tentative ds)) st')
      end
  end.

(** One settlement per vertex: [order g + 1] rounds. *)
Definition dijkstra (g : graph) (s : label) : dstate :=
  dijkstra_loop (S (order g)) g (mkDState [(s, (0%Q, [s]))] []).

(** ** The query *)

Inductive path_length := Hops (n : nat) | Cost (q : Q).

Definition has_negative_weight (g : graph) : bool :=
  existsb (fun e => match eweight e with Some q => negb (Qle_bool 0 q) | None => false end) (edges g).

Definition shortestPath (s t : label) (g : graph) : result gerror (list label * path_length) :=
  if negb (has_vertex s g) then Err (UnknownVertex s)
  else if negb (has_vertex t g) then Err (UnknownVertex t)
  else if weighted g then
    if has_negative_weight g then Err NegativeWeight
    else match assoc t (tentative (dijkstra g s)) with
         | Some (c, p) => if decide (t ∈ settled (dijkstra g s)) then Ok (rev p, Cost c) else Err NoPath
         | None => Err NoPath
         end
  else match assoc t (found (bfs g s)) with
       | Some p => Ok (rev p, Hops (length p - 1))
       | None => Err NoPath
       end.


(** ** Breadth-first search: correctness *)

Section Level.
Context (g : graph).

Lemma fold_discover pu vs fnd nxt :
  exists new,
    fold_left (discover pu) vs (fnd, nxt) = (fnd ++ new, nxt ++ new) /\
    NoDup (map fst new) /\
    (forall x, x ∈ map fst new <-> x ∈ vs /\ x ∉ map fst fnd) /\
    (forall v q, (v, q) ∈ new -> q = v :: pu).
Proof.
  revert fnd nxt. induction vs as [|v vs IH]; intros fnd nxt.
  { exists []. rewrite !app_nil_r. split_and!; [done|constructor| |].
    - intros x. split; [by intros ?%elem_of_nil|]. intros [?%elem_of_nil _]; done.
    - by intros ?? ?%elem_of_nil. }
  cbn [fold_left]. unfold discover at 2. case_decide as Hv.
  - destruct (IH fnd nxt) as (new & -> & Hnd & Hm & Hq).
    exists new. split_and!; [done|done| |done]. intros x. rewrite Hm, elem_of_cons.
    split; [tauto|]. intros [[->|?] ?]; [contradiction|tauto].
  - destruct (IH (fnd ++ [(v, v :: pu)]) (nxt ++ [(v, v :: pu)])) as (new & -> & Hnd & Hm & Hq).
    exists ((v, v :: pu) :: new). rewrite <- !app_assoc. split_and!; [done| | |].
    + cbn. constructor; [|done]. rewrite Hm, map_app, elem_of_app. cbn.
      rewrite list_elem_of_singleton. tauto.
    + intros x. cbn. rewrite !elem_of_cons, Hm, map_app, elem_of_app. cbn.
      rewrite list_elem_of_singleton. split.
      * intros [->|[? ?]]; [tauto|]. split; tauto.
      * intros [[->|?] ?]; [by left|]. destruct (decide (x = v)); [by left|right; tauto].
    + intros v' q. rewrite elem_of_cons. intros [[= -> ->]|H]; [done|]. by apply Hq.
Qed.

Lemma fold_visit fr fnd nxt :
  exists new,
    fold_left (visit g) fr (fnd, nxt) = (fnd ++ new, nxt ++ new) /\
    NoDup (map fst new) /\
    (forall x, x ∈ map fst new <->
       (exists u pu, (u, pu) ∈ fr /\ x ∈ successors g u) /\ x ∉ map fst fnd) /\
    (forall v q, (v, q) ∈ new ->
       exists u pu, (u, pu) ∈ fr /\ v ∈ successors g u /\ q = v :: pu).
Proof.
  revert fnd nxt. induction fr as [|[u pu] fr IH]; intros fnd nxt.
  { exists []. rewrite !app_nil_r. split_and!; [done|constructor| |].
    - intros x. split; [by intros ?%elem_of_nil|]. intros [(? & ? & ?%elem_of_nil & _) _]; done.
    - by intros ?? ?%elem_of_nil. }
  cbn [fold_left]. unfold visit at 2. cbn [fst snd].
  destruct (fold_discover pu (successors g u) fnd nxt) as (n1 & -> & Hnd1 & Hm1 & Hq1).
  destruct (IH (fnd ++ n1) (nxt ++ n1)) as (n2 & -> & Hnd2 & Hm2 & Hq2).
  exists (n1 ++ n2). rewrite <- !app_assoc. split_and!; [done| | |].
  - rewrite map_app. apply list.NoDup_app. split_and!; [done| |done].
    intros x H1 H2. apply Hm2 in H2. rewrite map_app, elem_of_app in H2. tauto.
  - intros x. rewrite map_app, elem_of_app, Hm1, Hm2, map_app, elem_of_app.
    split.
    + intros [[Hs Hf]|[(u' & pu' & Hin & Hs) Hf]].
      * split; [|done]. exists u, pu. split; [apply elem_of_cons; by left|done].
      * split; [|tauto]. exists u', pu'. split; [apply elem_of_cons; by right|done].
    + intros [(u' & pu' & Hin & Hs) Hf]. rewrite elem_of_cons in Hin.
      destruct Hin as [[= -> ->]|Hin]; [by left|].
      destruct (decide (x ∈ map fst n1)) as [Hn|Hn]; [left; by apply Hm1|right].
      split; [by exists u', pu'|tauto].
  - intros v q. rewrite elem_of_app. intros [H|H].
    + exists u, pu. apply Hq1 in H as Hq.
      assert (v ∈ map fst n1) as Hv by (apply elem_of_map_fst; eauto).
      apply Hm1 in Hv. split_and!; [apply elem_of_cons; by left|tauto|done].
    + destruct (Hq2 v q H) as (u' & pu' & ? & ? & ?). exists u', pu'.
      split_and!; [apply elem_of_cons; by right|done|done].
Qed.

Lemma reach_S s k v : reach g s (S k) v <-> exists u, reach g s k u /\ v ∈ successors g u.
Proof. unfold reach. cbn [layer]. by rewrite elem_of_flat_map. Qed.

Lemma rwalk_reach s v p : rwalk g s (v :: p) -> reach g s (length p) v.
Proof.
  revert v. induction p as [|u p IH]; intros v Hw.
  - cbn in Hw. subst. unfold reach. cbn. by apply list_elem_of_singleton.
  - destruct Hw as [Hs Hw]. apply reach_S. eauto.
Qed.

Lemma within_weaken s k v : within g s k v -> within g s (S k) v.
Proof. intros (m & ? & ?). exists m. split; [lia|done]. Qed.

Lemma reach_before_dec s k u : Decision (exists m, m < k /\ reach g s m u).
Proof.
  induction k as [|k IH].
  { right. intros (m & ? & _). lia. }
  destruct IH as [H|H].
  { left. destruct H as (m & ? & ?). exists m. split; [lia|done]. }
  destruct (decide (u ∈ layer g s k)) as [Hk|Hk].
  { left. exists k. split; [lia|done]. }
  right. intros (m & Hm & Hr). destruct (decide (m = k)) as [->|]; [done|].
  apply H. exists m. split; [lia|done].
Qed.

Lemma entry_length s k u pu :
  shortest_entry g s u pu -> fresh_at g s k u -> length pu = S k.
Proof.
  intros (Hh & Hw & Ho) (Hr & Hf). destruct pu as [|u' p]; [done|].
  injection Hh as ->. apply rwalk_reach in Hw as Hr'. specialize (Ho k Hr). cbn in *.
  destruct (decide (length p < k)) as [Hl|Hl]; [by destruct (Hf _ Hl)|lia].
Qed.

Section Step.
Context (s : label) (k : nat) (sr : search) (Hinv : bfs_inv g s k sr).
Context (new : list (label * list label)) (Hnd : NoDup (map fst new)).
Context (Hm : forall x, x ∈ map fst new <->
          (exists u pu, (u, pu) ∈ frontier sr /\ x ∈ successors g u) /\ x ∉ map fst (found sr)).
Context (Hq : forall v q, (v, q) ∈ new ->
          exists u pu, (u, pu) ∈ frontier sr /\ v ∈ successors g u /\ q = v :: pu).

Lemma step_not_found v : ~ within g s k v -> v ∉ map fst (found sr).
Proof. destruct Hinv as (_ & Hb & _). intros Hw Hv. by apply Hw, Hb. Qed.

Lemma step_frontier_fresh u pu : (u, pu) ∈ frontier sr -> fresh_at g s k u /\ shortest_entry g s u pu.
Proof.
  destruct Hinv as (_ & _ & Hc & Hd & He & _). intros H. split.
  - apply Hc, elem_of_map_fst. eauto.
  - by apply He, Hd.
Qed.

Lemma step_new_fresh v : v ∈ map fst new <-> fresh_at g s (S k) v.
Proof.
  destruct Hinv as (_ & Hb & Hc & _). rewrite Hm. split.
  - intros [(u & pu & Hin & Hs) Hf]. destruct (step_frontier_fresh u pu Hin) as [[Hr _] _].
    split; [apply reach_S; eauto|]. intros m Hlt Hr'. apply Hf, Hb. exists m. split; [lia|done].
  - intros [Hr Hf]. apply reach_S in Hr as (u & Hu & Hs). split.
    + assert (fresh_at g s k u) as Hfu.
      { split; [done|]. intros m Hlt Hr. apply (Hf (S m)); [lia|]. apply reach_S; eauto. }
      apply Hc, elem_of_map_fst in Hfu as [pu Hpu]. eauto.
    + apply step_not_found. intros (m & Hle & Hr). apply (Hf m); [lia|done].
Qed.

Lemma step_found v : v ∈ map fst (found sr ++ new) <-> within g s (S k) v.
Proof.
  destruct Hinv as (_ & Hb & _). rewrite map_app, elem_of_app, Hb, step_new_fresh. split.
  - intros [H|[H _]]; [by apply within_weaken|]. exists (S k). split; [lia|done].
  - intros (m & Hle & Hr). destruct (decide (m <= k)); [left; by exists m|].
    assert (m = S k) as -> by lia.
    destruct (reach_before_dec s (S k) v) as [(m' & Hm' & Hr')|Hn]; [left; exists m'; split; [lia|done]|].
    right. split; [done|]. intros m' Hm' Hr'. apply Hn. eauto.
Qed.

Lemma step_entries v q :
  (v, q) ∈ found sr ++ new -> shortest_entry g s v q.
Proof.
  destruct Hinv as (_ & _ & _ & _ & He & _). rewrite elem_of_app. intros [H|H]; [by apply He|].
  destruct (Hq v q H) as (u & pu & Hin & Hs & ->).
  destruct (step_frontier_fresh u pu Hin) as [Hfu Hpu].
  pose proof (entry_length _ _ _ _ Hpu Hfu) as Hlen.
  assert (v ∈ map fst new) as Hv%step_new_fresh by (apply elem_of_map_fst; eauto).
  destruct Hpu as (Hh & Hw & _). destruct pu as [|u' p]; [done|]. injection Hh as ->.
  split_and!; [done|by split|]. intros m Hr. destruct Hv as [_ Hf]. cbn in *.
  destruct (decide (m < S k)) as [Hlt|]; [by destruct (Hf m Hlt)|lia].
Qed.

Lemma step_inv : bfs_inv g s (S k) (mkSearch (found sr ++ new) new).
Proof.
  pose proof Hinv as (Ha & _ & _ & _ & _ & Hf). unfold bfs_inv. cbn [found frontier].
  split_and!.
  - rewrite map_app. apply list.NoDup_app. split_and!; [done| |done].
    intros x H1 H2. apply Hm in H2. tauto.
  - apply step_found.
  - apply step_new_fresh.
  - intros x Hx. apply elem_of_app. by right.
  - apply step_entries.
  - intros Hne. destruct new as [|[v q] new'] eqn:En; [done|].
    destruct (Hq v q) as (u & pu & Hin & _); [apply elem_of_cons; by left|].
    assert (frontier sr <> []) as Hfr by (intros E; rewrite E in Hin; by apply elem_of_nil in Hin).
    specialize (Hf Hfr). rewrite length_app. cbn. lia.
Qed.
End Step.

Lemma bfs_level_inv s k sr : bfs_inv g s k sr -> bfs_inv g s (S k) (bfs_level g sr).
Proof.
  intros Hinv. unfold bfs_level.
  destruct (fold_visit (frontier sr) (found sr) []) as (new & -> & Hnd & Hm & Hq).
  by apply step_inv.
Qed.

Lemma bfs_init_inv s : bfs_inv g s 0 (bfs_init s).
Proof.
  assert (H0 : forall v, within g s 0 v <-> v = s).
  { intros v. unfold within, reach. split.
    - intros (m & Hm & Hr). assert (m = 0) as -> by lia. by apply list_elem_of_singleton.
    - intros ->. exists 0. split; [done|]. by apply list_elem_of_singleton. }
  unfold bfs_inv, bfs_init. cbn [found frontier map fst]. split_and!.
  - apply NoDup_singleton.
  - intros v. by rewrite H0, list_elem_of_singleton.
  - intros v. rewrite list_elem_of_singleton. unfold fresh_at, reach. cbn [layer].
    rewrite list_elem_of_singleton. split; [|tauto]. intros ->. split; [done|lia].
  - done.
  - intros v p [= -> ->]%list_elem_of_singleton. split_and!; [done|done|cbn; lia].
  - cbn. lia.
Qed.

Lemma bfs_loop_inv fuel s k sr :
  bfs_inv g s k sr ->
  exists k', bfs_inv g s k' (bfs_loop fuel g sr) /\
             (frontier (bfs_loop fuel g sr) = [] \/ k' = k + fuel).
Proof.
  revert k sr. induction fuel as [|f IH]; intros k sr Hinv.
  { exists k. split; [done|right; lia]. }
  cbn [bfs_loop]. destruct (frontier sr) eqn:E.
  { exists k. by split; [|left]. }
  destruct (IH (S k) _ (bfs_level_inv s k sr Hinv)) as (k' & Hk' & Hor).
  exists k'. split; [done|]. destruct Hor; [by left|right; lia].
Qed.

Lemma reach_vertices s m v : wf g -> s ∈ vertices g -> reach g s m v -> v ∈ vertices g.
Proof.
  intros Hwf Hs. revert v. induction m as [|m IH]; intros v Hr.
  - by apply list_elem_of_singleton in Hr as ->.
  - apply reach_S in Hr as (u & Hu & Hv). by apply (successors_vertices g u).
Qed.

Lemma found_bound s k sr :
  wf g -> s ∈ vertices g -> bfs_inv g s k sr -> length (found sr) <= order g.
Proof.
  intros Hwf Hs (Ha & Hb & _). rewrite <- (length_map fst). unfold order.
  apply submseteq_length, NoDup_submseteq; [done|].
  intros v (m & _ & Hr)%Hb. by apply (reach_vertices s m).
Qed.

(** Termination: within [order g + 1] levels the frontier is empty. *)
Lemma bfs_terminates s :
  wf g -> s ∈ vertices g -> exists k, bfs_inv g s k (bfs g s) /\ frontier (bfs g s) = [].
Proof.
  intros Hwf Hs. unfold bfs.
  destruct (bfs_loop_inv (S (order g)) s 0 _ (bfs_init_inv s)) as (k & Hk & [He| ->]); [eauto|].
  exists (0 + S (order g)). split; [done|].
  destruct (frontier _) eqn:E; [done|exfalso].
  pose proof Hk as (_ & _ & _ & _ & _ & Hf). rewrite E in Hf.
  specialize (Hf ltac:(done)). pose proof (found_bound _ _ _ Hwf Hs Hk). lia.
Qed.

(** Completeness: once the frontier is empty, everything reachable has
    been found. *)
Lemma bfs_complete s k sr :
  bfs_inv g s k sr -> frontier sr = [] -> forall m v, reach g s m v -> within g s k v.
Proof.
  intros Hinv Hfr m. pose proof Hinv as (_ & _ & Hc & _).
  induction m as [|m IH]; intros v Hr.
  { exists 0. split; [lia|done]. }
  apply reach_S in Hr as (u & Hu & Hv). destruct (IH u Hu) as (j & Hj & Hrj).
  destruct (reach_before_dec s k u) as [(j' & Hj' & Hr')|Hn].
  - exists (S j'). split; [lia|]. apply reach_S. eauto.
  - destruct (decide (j = k)) as [->|]; [|exists (S j); split; [lia|apply reach_S; eauto]].
    exfalso. assert (u ∈ map fst (frontier sr)) as Hu'.
    { apply Hc. split; [done|]. intros m' Hm' Hr'. apply Hn. eauto. }
    rewrite Hfr in Hu'. by apply elem_of_nil in Hu'.
Qed.

(** The search from a vertex finds exactly the vertices reachable from
    it, each with a shortest path. *)
Lemma bfs_spec s :
  wf g -> s ∈ vertices g ->
  (forall v, v ∈ map fst (found (bfs g s)) <-> exists m, reach g s m v) /\
  (forall v p, (v, p) ∈ found (bfs g s) -> shortest_entry g s v p).
Proof.
  intros Hwf Hs. destruct (bfs_terminates s Hwf Hs) as (k & Hk & Hfr).
  pose proof Hk as (_ & Hb & _ & _ & He & _). split; [|done].
  intros v. rewrite Hb. split.
  - intros (m & _ & Hr). eauto.
  - intros (m & Hr). by apply (bfs_complete s k (bfs g s) Hk Hfr m).
Qed.

Lemma assoc_Some {A} v (l : list (label * A)) x : assoc v l = Some x -> (v, x) ∈ l.
Proof.
  unfold assoc. intros H. apply fmap_Some in H as ([v' x'] & Hf & ->).
  apply List.find_some in Hf as [Hin Hv]. apply bool_decide_eq_true in Hv. cbn in *. subst.
  by apply list_elem_of_In.
Qed.

Lemma assoc_None {A} v (l : list (label * A)) : assoc v l = None -> v ∉ map fst l.
Proof.
  unfold assoc. intros H Hv. apply fmap_None in H. apply elem_of_map_fst in Hv as [x Hx].
  apply list_elem_of_In in Hx. pose proof (List.find_none _ _ H _ Hx) as Hf.
  cbn in Hf. by rewrite bool_decide_eq_false in Hf.
Qed.
End Level.

(** The query on an unweighted graph: a shortest walk when the end is
    reachable, [NoPath] exactly when it is not. *)
Lemma shortestPath_unweighted g s t :
  wf g -> weighted g = false -> s ∈ vertices g -> t ∈ vertices g ->
  match shortestPath s t g with
  | Ok (path, Hops n) => shortest_entry g s t (rev path) /\ n = length path - 1
  | Ok (_, Cost _) => False
  | Err e => e = NoPath /\ ~ exists m, reach g s m t
  end.
Proof.
  intros Hwf Hw Hs Ht. destruct (bfs_spec g s Hwf Hs) as [Hfound Hent].
  unfold shortestPath. rewrite (proj2 (has_vertex_spec s g) Hs), (proj2 (has_vertex_spec t g) Ht), Hw.
  cbn [negb]. destruct (assoc t (found (bfs g s))) as [p|] eqn:E.
  - apply assoc_Some in E. rewrite rev_involutive, length_rev. by split; [apply Hent|].
  - split; [done|]. intros Hr. by apply (assoc_None t _ E), Hfound.
Qed.

End Paths.
