(* ===== verification/Dijkstra.v ===== *)
(** Dijkstra's algorithm of the engine proved correct (module
    [Dijkstra]), spec 4.3.

    [Paths.dijkstra] keeps a list of tentative entries (a vertex, a cost,
    the reversed path of that cost) and the list of settled vertices; a
    round settles the cheapest unsettled entry ([select_min]) and offers
    each of its weighted successors the cost through it ([relax]).  The
    specification is [wwalk]: the weighted walks from the source, as
    reversed vertex lists, each step along one entry of
    [weighted_successors] (so along one edge, multi-edges included).

    [dinv] is the invariant of the rounds: keys distinct, every entry a
    walk of its cost, every settled entry no dearer than any walk to its
    vertex, every successor of a settled vertex offered the cost through
    it, the source's entry of cost at most 0.  With weights that are not
    negative ([nonneg]) a round preserves it ([round_inv]): the entry it
    settles is optimal because any walk to it leaves the settled set
    somewhere, at a vertex whose entry is already no dearer than that
    part of the walk ([walk_cut]).  On a well-formed graph from a vertex,
    [order g + 1] rounds are enough for the scan to come back empty
    ([loop_done]: every round settles a new vertex, and there are
    [order g]); then every vertex a walk reaches is settled.  The
    theorems: [dijkstra_sound], [dijkstra_optimal],
    [dijkstra_complete], and [shortestPath_weighted] for the query. *)

From Stdlib Require Import QArith Lqa String.
From stdpp Require Import base list strings decidable.
From S2P Require Import Prelude Graph Paths.

Module Dijkstra.
Import GraphStore Paths.

(** A walk from [s] to [v] of cost [c], as the reversed list of its
    vertices. *)
Inductive wwalk (g : graph) (s : label) : label -> Q -> list label -> Prop :=
| WStart : wwalk g s s 0%Q [s]
| WStep u v c w p :
    wwalk g s u c p -> (v, w) ∈ weighted_successors g u -> wwalk g s v (c + w)%Q (v :: p).

(** No step costs less than 0. *)
Definition nonneg (g : graph) : Prop :=
  forall u v w, (v, w) ∈ weighted_successors g u -> (0 <= w)%Q.

(** The invariant of the rounds. *)
Definition dinv (g : graph) (s : label) (ds : dstate) : Prop :=
  NoDup (map fst (tentative ds)) /\
  NoDup (settled ds) /\
  (forall u, u ∈ settled ds -> u ∈ map fst (tentative ds)) /\
  (forall v c p, (v, (c, p)) ∈ tentative ds -> wwalk g s v c p) /\
  (forall v c p, (v, (c, p)) ∈ tentative ds -> v ∈ settled ds ->
     forall c' p', wwalk g s v c' p' -> (c <= c')%Q) /\
  (forall u cu pu, (u, (cu, pu)) ∈ tentative ds -> u ∈ settled ds ->
     forall v w, (v, w) ∈ weighted_successors g u ->
     exists cv pv, (v, (cv, pv)) ∈ tentative ds /\ (cv <= cu + w)%Q) /\
  (exists c p, (s, (c, p)) ∈ tentative ds /\ (c <= 0)%Q).

(** Every key is a vertex of the graph. *)
Definition dkeys (g : graph) (ds : dstate) : Prop :=
  forall k, k ∈ map fst (tentative ds) -> k ∈ vertices g.

(** The state after settling [u], of cost [c] by [p]. *)
Definition round (g : graph) (ds : dstate) (u : label) (c : Q) (p : list label) : dstate :=
  mkDState (fold_left (relax (settled ds ++ [u]) c p) (weighted_successors g u) (tentative ds))
           (settled ds ++ [u]).

(** The weighted triangle A-B (3), B-C (1), A-C (5), undirected. *)
Definition ex_triangle : graph :=
  run_ops [OpAddEdge "A" "B" (Some 3%Q); OpAddEdge "B" "C" (Some 1%Q); OpAddEdge "A" "C" (Some 5%Q)]
    (reset false true).

(** ** The scan for the cheapest unsettled entry *)

Section Select.
Context (S : list label).

Lemma select_fold_None l best :
  fold_left (select_step S) l best = None -> best = None /\ forall x, x ∈ l -> fst x ∈ S.
Proof.
  revert best. induction l as [|x l IH]; intros best; cbn [fold_left].
  { intros ->. split; [done|]. intros x Hx. by apply elem_of_nil in Hx. }
  intros H. destruct (IH _ H) as [Hs Hl]. unfold select_step in Hs.
  case_decide; [|destruct best; [destruct Qlt_le_dec|]; discriminate].
  split; [done|]. intros y Hy. apply elem_of_cons in Hy as [->|Hy]; auto.
Qed.

Lemma select_fold_from l best b :
  fold_left (select_step S) l best = Some b -> best = Some b \/ (b ∈ l /\ fst b ∉ S).
Proof.
  revert best. induction l as [|x l IH]; intros best; cbn [fold_left]; [by left|].
  intros H. destruct (IH _ H) as [Hs|[Hin Hn]]; [|right; split; [apply elem_of_cons; by right|done]].
  unfold select_step in Hs. case_decide; [by left|].
  destruct best as [b0|]; [destruct Qlt_le_dec|]; simplify_eq;
    first [by left | right; split; [apply elem_of_cons; by left|done]].
Qed.

Lemma select_fold_below_best l best b0 :
  best = Some b0 -> exists b, fold_left (select_step S) l best = Some b /\ (fst (snd b) <= fst (snd b0))%Q.
Proof.
  revert best b0. induction l as [|x l IH]; intros best b0 ->; cbn [fold_left].
  { exists b0. split; [done|lra]. }
  unfold select_step at 2. case_decide; [by apply IH|].
  destruct Qlt_le_dec as [Hlt|Hle].
  - destruct (IH (Some x) x eq_refl) as (b & Hb & Hle). exists b. split; [done|lra].
  - by apply IH.
Qed.

Lemma select_fold_below l best x :
  x ∈ l -> fst x ∉ S ->
  exists b, fold_left (select_step S) l best = Some b /\ (fst (snd b) <= fst (snd x))%Q.
Proof.
  revert best. induction l as [|y l IH]; intros best Hx Hn; [by apply elem_of_nil in Hx|].
  cbn [fold_left]. apply elem_of_cons in Hx as [->|Hx]; [|by apply IH].
  unfold select_step at 2. rewrite decide_False by done.
  destruct best as [b0|]; [destruct Qlt_le_dec as [Hlt|Hle]|].
  - by apply select_fold_below_best.
  - destruct (select_fold_below_best l (Some b0) b0 eq_refl) as (b & Hb & Hb0).
    exists b. split; [done|lra].
  - by apply select_fold_below_best.
Qed.

End Select.

Lemma select_min_None ds :
  select_min ds = None -> forall x, x ∈ tentative ds -> fst x ∈ settled ds.
Proof. intros H. by apply select_fold_None in H as [_ H]. Qed.

Lemma select_min_Some ds b :
  select_min ds = Some b ->
  b ∈ tentative ds /\ (fst b ∉ settled ds) /\
  (forall x, x ∈ tentative ds -> fst x ∉ settled ds -> (fst (snd b) <= fst (snd x))%Q).
Proof.
  intros H. destruct (select_fold_from _ _ _ _ H) as [?|[Hin Hn]]; [done|].
  split_and!; [done|done|]. intros x Hx Hxn.
  destruct (select_fold_below (settled ds) _ None x Hx Hxn) as (b' & Hb' & Hle).
  unfold select_min in H. congruence.
Qed.

(** ** Relaxing the successors of the settled vertex *)

Section Relax.
Context (S : list label) (c : Q) (p : list label).

Lemma relax_entries T vw k x :
  (k, x) ∈ relax S c p T vw ->
  (k, x) ∈ T \/ (k = fst vw /\ (k ∉ S) /\ x = (c + snd vw, k :: p)%Q).
Proof.
  destruct vw as [v w]. unfold relax. case_decide; [by left|].
  destruct (assoc v T) as [[cv pv]|]; [destruct Qlt_le_dec|]; [| by left |].
  - intros Hk. apply elem_of_map_iff in Hk as ([k' x'] & Hq & Hin). cbn in Hq.
    case_bool_decide; simplify_eq; [by right|by left].
  - rewrite elem_of_app, list_elem_of_singleton. intros [Hk|Hk]; [by left|simplify_eq; by right].
Qed.

Lemma relax_nodup T vw : NoDup (map fst T) -> NoDup (map fst (relax S c p T vw)).
Proof.
  destruct vw as [v w]. unfold relax. intros Hnd. case_decide; [done|].
  destruct (assoc v T) as [[cv pv]|] eqn:E; [destruct Qlt_le_dec|]; [| done |].
  - rewrite map_map. erewrite map_ext; [exact Hnd|]. intros [k x]. cbn. by case_bool_decide; subst.
  - rewrite map_app. apply list.NoDup_app. split_and!; [done| |by apply NoDup_singleton].
    intros k Hk Hk'. cbn in Hk'. apply list_elem_of_singleton in Hk'. subst. by apply (assoc_None _ T E).
Qed.

Lemma relax_keep T vw k x :
  NoDup (map fst T) -> (k, x) ∈ T ->
  exists x', (k, x') ∈ relax S c p T vw /\ (fst x' <= fst x)%Q.
Proof.
  destruct vw as [v w]. unfold relax. intros Hnd Hk.
  case_decide; [exists x; split; [done|lra]|].
  destruct (assoc v T) as [[cv pv]|] eqn:E; [destruct Qlt_le_dec as [Hlt|Hle]|].
  - destruct (decide (k = v)) as [->|Hne].
    + exists (c + w, v :: p)%Q. split.
      * apply elem_of_map_iff. exists (v, x). split; [cbn; by rewrite bool_decide_true|done].
      * apply assoc_Some in E. rewrite (NoDup_fst_unique T v x (cv, pv) Hnd Hk E). cbn. lra.
    + exists x. split; [|lra]. apply elem_of_map_iff. exists (k, x).
      split; [cbn; by rewrite bool_decide_false|done].
  - exists x. split; [done|lra].
  - exists x. split; [apply elem_of_app; by left|lra].
Qed.

Lemma relax_offer T v w :
  v ∉ S -> exists x', (v, x') ∈ relax S c p T (v, w) /\ (fst x' <= c + w)%Q.
Proof.
  intros Hv. unfold relax. rewrite decide_False by done.
  destruct (assoc v T) as [[cv pv]|] eqn:E; [destruct Qlt_le_dec as [Hlt|Hle]|].
  - exists (c + w, v :: p)%Q. split; [|cbn; lra]. apply elem_of_map_iff.
    exists (v, (cv, pv)). split; [cbn; by rewrite bool_decide_true|by apply assoc_Some].
  - exists (cv, pv). split; [by apply assoc_Some|done].
  - exists (c + w, v :: p)%Q. split; [|cbn; lra]. apply elem_of_app. right. by apply list_elem_of_singleton.
Qed.

Lemma fold_relax_nodup l T :
  NoDup (map fst T) -> NoDup (map fst (fold_left (relax S c p) l T)).
Proof. revert T. induction l as [|vw l IH]; intros T Hnd; [done|]. by apply IH, relax_nodup. Qed.

Lemma fold_relax_entries l T k x :
  (k, x) ∈ fold_left (relax S c p) l T ->
  (k, x) ∈ T \/ (exists w, (k, w) ∈ l /\ (k ∉ S) /\ x = (c + w, k :: p)%Q).
Proof.
  revert T. induction l as [|[v w] l IH]; intros T Hk; [by left|].
  destruct (IH _ Hk) as [Hr|(w' & Hw' & Hn & ->)].
  - apply relax_entries in Hr as [Hr|(-> & Hn & ->)]; [by left|].
    right. exists w. split_and!; [apply elem_of_cons; by left|done|done].
  - right. exists w'. split_and!; [apply elem_of_cons; by right|done|done].
Qed.

Lemma fold_relax_keep l T k x :
  NoDup (map fst T) -> (k, x) ∈ T ->
  exists x', (k, x') ∈ fold_left (relax S c p) l T /\ (fst x' <= fst x)%Q.
Proof.
  revert T x. induction l as [|vw l IH]; intros T x Hnd Hk; [exists x; split; [done|lra]|].
  destruct (relax_keep T vw k x Hnd Hk) as (x1 & Hk1 & Hle1).
  destruct (IH _ x1 (relax_nodup T vw Hnd) Hk1) as (x2 & Hk2 & Hle2).
  exists x2. split; [done|lra].
Qed.

Lemma fold_relax_offer l T v w :
  NoDup (map fst T) -> (v, w) ∈ l -> v ∉ S ->
  exists x', (v, x') ∈ fold_left (relax S c p) l T /\ (fst x' <= c + w)%Q.
Proof.
  revert T. induction l as [|[v' w'] l IH]; intros T Hnd Hin Hv; [by apply elem_of_nil in Hin|].
  cbn [fold_left]. apply elem_of_cons in Hin as [[= <- <-]|Hin]; [|by apply IH; [apply relax_nodup|..]].
  destruct (relax_offer T v w Hv) as (x1 & Hk1 & Hle1).
  destruct (fold_relax_keep l _ v x1 (relax_nodup T (v, w) Hnd) Hk1) as (x2 & Hk2 & Hle2).
  exists x2. split; [done|lra].
Qed.

End Relax.

(** ** A round keeps the invariant *)

Section Rounds.
Context (g : graph) (s : label) (Hnn : nonneg g).

Lemma wwalk_nonneg v c p : wwalk g s v c p -> (0 <= c)%Q.
Proof. induction 1 as [|u v c w p _ IH Hs]; [lra|]. pose proof (Hnn _ _ _ Hs). lra. Qed.

(** A walk ends at a settled vertex whose entry is no dearer, or passes
    an unsettled entry no dearer than the walk. *)
Lemma walk_cut ds v c' p' :
  dinv g s ds -> wwalk g s v c' p' ->
  (exists cv pv, (v, (cv, pv)) ∈ tentative ds /\ v ∈ settled ds /\ (cv <= c')%Q) \/
  (exists y cy py, (y, (cy, py)) ∈ tentative ds /\ (y ∉ settled ds) /\ (cy <= c')%Q).
Proof.
  intros (_ & _ & _ & _ & _ & Hfr & (cs & ps & Hs & Hcs)) Hw.
  induction Hw as [|u v c w p Hw IH Hsucc].
  - destruct (decide (s ∈ settled ds)); [left; exists cs, ps|right; exists s, cs, ps]; done.
  - pose proof (Hnn _ _ _ Hsucc) as Hw0.
    destruct IH as [(cu & pu & Hu & Hus & Hle)|(y & cy & py & Hy & Hyn & Hle)].
    + destruct (Hfr u cu pu Hu Hus v w Hsucc) as (cv & pv & Hv & Hcv).
      destruct (decide (v ∈ settled ds)); [left; exists cv, pv|right; exists v, cv, pv];
        split_and!; auto; lra.
    + right. exists y, cy, py. split_and!; auto; lra.
Qed.

(** The entry a round settles is no dearer than any walk to its vertex. *)
Lemma select_optimal ds u c p :
  dinv g s ds -> select_min ds = Some (u, (c, p)) ->
  forall c' p', wwalk g s u c' p' -> (c <= c')%Q.
Proof.
  intros Hinv Hsel c' p' Hw. destruct (select_min_Some _ _ Hsel) as (Hin & Hn & Hmin).
  destruct (walk_cut ds u c' p' Hinv Hw) as [(cv & pv & _ & Hs & _)|(y & cy & py & Hy & Hyn & Hle)];
    [done|].
  pose proof (Hmin _ Hy Hyn) as Hy'. cbn in Hy'. lra.
Qed.

(** One round, from a state satisfying the invariant, settling the
    entry the scan selects. *)
Section Round.
Context (ds : dstate) (u : label) (c : Q) (p : list label).
Context (Hinv : dinv g s ds) (Hsel : select_min ds = Some (u, (c, p))).

Lemma round_settled : settled (round g ds u c p) = settled ds ++ [u].
Proof. reflexivity. Qed.

Lemma round_selected : (u, (c, p)) ∈ tentative ds /\ u ∉ settled ds.
Proof. by destruct (select_min_Some _ _ Hsel) as (Hin & Hn & _). Qed.

(** An entry of a settled vertex is one the round did not touch. *)
Lemma round_old k x :
  (k, x) ∈ tentative (round g ds u c p) -> k ∈ settled ds ++ [u] -> (k, x) ∈ tentative ds.
Proof. intros Hk Hks. by destruct (fold_relax_entries _ _ _ _ _ _ _ Hk) as [?|(w & _ & ? & _)]. Qed.

Lemma round_keep k x :
  (k, x) ∈ tentative ds -> exists x', (k, x') ∈ tentative (round g ds u c p) /\ (fst x' <= fst x)%Q.
Proof. intros Hk. apply fold_relax_keep; [apply Hinv|done]. Qed.

Lemma round_settled_keys k : k ∈ settled ds ++ [u] -> k ∈ map fst (tentative (round g ds u c p)).
Proof.
  intros Hk. assert (Hk' : k ∈ map fst (tentative ds)).
  { apply elem_of_app in Hk as [Hk|Hk]; [by apply Hinv|]. apply list_elem_of_singleton in Hk.
    subst. apply elem_of_map_fst. exists (c, p). apply round_selected. }
  apply elem_of_map_fst in Hk' as [x Hx]. destruct (round_keep _ _ Hx) as (x' & Hx' & _).
  apply elem_of_map_fst. eauto.
Qed.

Lemma round_sound v c0 p0 : (v, (c0, p0)) ∈ tentative (round g ds u c p) -> wwalk g s v c0 p0.
Proof.
  pose proof Hinv as (_ & _ & _ & Hsound & _). intros Hv.
  destruct (fold_relax_entries _ _ _ _ _ _ _ Hv) as [Hv'|(w & Hw & _ & [= -> ->])]; [by eapply Hsound|].
  eapply WStep; [apply (Hsound u c p), round_selected|done].
Qed.

Lemma round_opt v c0 p0 :
  (v, (c0, p0)) ∈ tentative (round g ds u c p) -> v ∈ settled ds ++ [u] ->
  forall c' p', wwalk g s v c' p' -> (c0 <= c')%Q.
Proof.
  pose proof Hinv as (Hnd & _ & _ & _ & Hopt & _). intros Hv Hvs. pose proof (round_old _ _ Hv Hvs) as Hv'.
  apply elem_of_app in Hvs as [Hvs|Hvs]; [by apply (Hopt v c0 p0)|].
  apply list_elem_of_singleton in Hvs. subst v.
  injection (NoDup_fst_unique _ u (c0, p0) (c, p) Hnd Hv' (proj1 round_selected)) as -> ->.
  exact (select_optimal ds u c p Hinv Hsel).
Qed.

Lemma round_frontier u' cu pu :
  (u', (cu, pu)) ∈ tentative (round g ds u c p) -> u' ∈ settled ds ++ [u] ->
  forall v w, (v, w) ∈ weighted_successors g u' ->
  exists cv pv, (v, (cv, pv)) ∈ tentative (round g ds u c p) /\ (cv <= cu + w)%Q.
Proof.
  pose proof Hinv as (Hnd & _ & _ & _ & _ & Hfr & _). intros Hu' Hu's v w Hvw.
  destruct (decide (v ∈ settled ds ++ [u])) as [Hvs|Hvs].
  - pose proof (round_settled_keys v Hvs) as Hv. apply elem_of_map_fst in Hv as [[cv pv] Hv].
    exists cv, pv. split; [done|]. eapply round_opt; [done|done|].
    eapply WStep; [by apply (round_sound u' cu pu)|done].
  - pose proof (round_old _ _ Hu' Hu's) as HuT. apply elem_of_app in Hu's as [Hu's|Hu's].
    + destruct (Hfr u' cu pu HuT Hu's v w Hvw) as (cv & pv & Hv & Hcv).
      destruct (round_keep _ _ Hv) as ([cv' pv'] & Hv' & Hle). exists cv', pv'. cbn in Hle. split; [done|lra].
    + apply list_elem_of_singleton in Hu's. subst u'.
      injection (NoDup_fst_unique _ u (cu, pu) (c, p) Hnd HuT (proj1 round_selected)) as -> ->.
      destruct (fold_relax_offer (settled ds ++ [u]) c p _ (tentative ds) v w Hnd Hvw Hvs)
        as ([cv pv] & Hv & Hle).
      by exists cv, pv.
Qed.

Lemma round_inv : dinv g s (round g ds u c p).
Proof.
  pose proof Hinv as (Hnd & Hsnd & _ & _ & _ & _ & (cs & ps & Hsrc & Hcs)).
  split_and!.
  - apply fold_relax_nodup, Hnd.
  - rewrite round_settled. apply list.NoDup_app. split_and!; [done| |by apply NoDup_singleton].
    intros x Hx Hx'. apply list_elem_of_singleton in Hx'. subst. by apply round_selected.
  - exact round_settled_keys.
  - exact round_sound.
  - exact round_opt.
  - exact round_frontier.
  - destruct (round_keep _ _ Hsrc) as ([c0 p0] & H0 & Hle). exists c0, p0. cbn in Hle. split; [done|lra].
Qed.

End Round.

Lemma loop_inv fuel ds : dinv g s ds -> dinv g s (dijkstra_loop fuel g ds).
Proof.
  revert ds. induction fuel as [|f IH]; intros ds Hinv; [done|]. cbn [dijkstra_loop].
  destruct (select_min ds) as [[u [c p]]|] eqn:E; [|done].
  apply IH. exact (round_inv ds u c p Hinv E).
Qed.

Lemma init_inv : dinv g s (mkDState [(s, (0%Q, [s]))] []).
Proof.
  split_and!; cbn [tentative settled map fst].
  - apply NoDup_singleton.
  - constructor.
  - intros u Hu. by apply elem_of_nil in Hu.
  - intros v c p Hv. apply list_elem_of_singleton in Hv. simplify_eq. constructor.
  - intros v c p _ Hv. by apply elem_of_nil in Hv.
  - intros u cu pu _ Hu. by apply elem_of_nil in Hu.
  - exists 0%Q, [s]. split; [by apply list_elem_of_singleton|lra].
Qed.

Lemma dijkstra_inv : dinv g s (dijkstra g s).
Proof. apply loop_inv, init_inv. Qed.

End Rounds.

(** ** Enough rounds, and the result *)

Lemma weighted_successors_vertices g u v w :
  wf g -> (v, w) ∈ weighted_successors g u -> v ∈ vertices g.
Proof.
  intros Hwf. unfold weighted_successors. rewrite elem_of_flat_map.
  intros (e & He & Hv). apply elem_of_map_iff in Hv as (t & [= -> ->] & Ht).
  apply (successors_vertices g u); [done|]. unfold successors. apply elem_of_flat_map. eauto.
Qed.

Lemma round_keys g ds u c p : wf g -> dkeys g ds -> dkeys g (round g ds u c p).
Proof.
  intros Hwf Hk k Hin. apply elem_of_map_fst in Hin as [x Hx]. cbn [round tentative] in Hx.
  destruct (fold_relax_entries _ _ _ _ _ _ _ Hx) as [Hx'|(w & Hw & _ & _)].
  - apply Hk, elem_of_map_fst. eauto.
  - by apply (weighted_successors_vertices g u k w).
Qed.

(** A loop that has settled [n] vertices and has [fuel] rounds left
    stops with an empty scan when [n + fuel] exceeds the order: every
    round settles a new vertex of the graph. *)
Lemma loop_done g s fuel ds :
  nonneg g -> wf g -> dinv g s ds -> dkeys g ds -> order g < length (settled ds) + fuel ->
  select_min (dijkstra_loop fuel g ds) = None.
Proof.
  intros Hnn Hwf. revert ds. induction fuel as [|f IH]; intros ds Hinv Hk Hlt.
  - exfalso. destruct Hinv as (_ & Hsnd & Hsk & _).
    assert (length (settled ds) <= order g); [|lia].
    apply submseteq_length, NoDup_submseteq; [done|]. intros x Hx. by apply Hk, Hsk.
  - cbn [dijkstra_loop]. destruct (select_min ds) as [[u [c p]]|] eqn:E; [|done].
    apply IH; [by apply round_inv|by apply round_keys|].
    cbn [round settled]. rewrite length_app. cbn. lia.
Qed.

(** Termination: on a well-formed graph without negative weights, from
    one of its vertices, the [order g + 1] rounds [dijkstra] runs are
    enough: the loop ends because no unsettled entry is left, not
    because its fuel ran out. *)
Theorem dijkstra_fuel_enough g s :
  wf g -> nonneg g -> s ∈ vertices g -> select_min (dijkstra g s) = None.
Proof.
  intros Hwf Hnn Hs. apply (loop_done g s); [done|done|by apply init_inv| |cbn; lia].
  intros k Hk. cbn in Hk. apply list_elem_of_singleton in Hk. by subst.
Qed.

(** Every entry of the result is a walk of its cost. *)
Lemma dijkstra_sound g s t c p :
  nonneg g -> (t, (c, p)) ∈ tentative (dijkstra g s) -> wwalk g s t c p.
Proof. intros Hnn Ht. by destruct (dijkstra_inv g s Hnn) as (_ & _ & _ & H & _); apply H. Qed.

(** A settled entry of the result is no dearer than any walk. *)
Lemma dijkstra_optimal g s t c p :
  nonneg g -> (t, (c, p)) ∈ tentative (dijkstra g s) -> t ∈ settled (dijkstra g s) ->
  forall c' p', wwalk g s t c' p' -> (c <= c')%Q.
Proof. intros Hnn Ht Hs. destruct (dijkstra_inv g s Hnn) as (_ & _ & _ & _ & H & _). exact (H t c p Ht Hs). Qed.

(** Every vertex a walk reaches is settled. *)
Lemma dijkstra_complete g s t c p :
  wf g -> nonneg g -> s ∈ vertices g -> wwalk g s t c p -> t ∈ settled (dijkstra g s).
Proof.
  intros Hwf Hnn Hs Hw.
  pose proof (dijkstra_inv g s Hnn) as (_ & _ & _ & _ & _ & Hfr & (cs & ps & Hsrc & _)).
  pose proof (loop_done g s (S (order g)) _ Hnn Hwf (init_inv g s) ltac:(intros k Hk; cbn in Hk;
    apply list_elem_of_singleton in Hk; by subst) ltac:(cbn; lia)) as Hdone.
  fold (dijkstra g s) in Hdone. pose proof (select_min_None _ Hdone) as Hall.
  enough (Hk : exists x, (t, x) ∈ tentative (dijkstra g s)) by (destruct Hk as [x Hx]; exact (Hall _ Hx)).
  induction Hw as [|u v c w p Hw IH Hsucc]; [by exists (cs, ps)|].
  destruct IH as [[cu pu] Hu]. destruct (Hfr u cu pu Hu (Hall _ Hu) v w Hsucc) as (cv & pv & Hv & _).
  by exists (cv, pv).
Qed.

Lemma has_negative_weight_nonneg g : has_negative_weight g = false -> nonneg g.
Proof.
  intros H u v w Hvw. unfold weighted_successors in Hvw. apply elem_of_flat_map in Hvw as (e & He & Hv).
  apply elem_of_map_iff in Hv as (t & [= -> ->] & _). unfold edge_cost.
  destruct (eweight e) as [q|] eqn:Eq; [|discriminate].
  destruct (Qle_bool 0 q) eqn:Eb; [by apply Qle_bool_iff|]. exfalso.
  apply not_true_iff_false in H. apply H, existsb_exists. exists e.
  split; [by apply list_elem_of_In|]. by rewrite Eq, Eb.
Qed.

(** The query on a weighted graph: a cheapest walk when the end is
    reachable, [NoPath] exactly when it is not. *)
Lemma shortestPath_weighted g s t :
  wf g -> weighted g = true -> has_negative_weight g = false -> s ∈ vertices g -> t ∈ vertices g ->
  match shortestPath s t g with
  | Ok (path, Cost c) =>
      exists p, path = rev p /\ wwalk g s t c p /\ forall c' p', wwalk g s t c' p' -> (c <= c')%Q
  | Ok (_, Hops _) => False
  | Err e => e = NoPath /\ forall c p, ~ wwalk g s t c p
  end.
Proof.
  intros Hwf Hw Hneg Hs Ht. pose proof (has_negative_weight_nonneg g Hneg) as Hnn.
  unfold shortestPath. rewrite (proj2 (has_vertex_spec s g) Hs), (proj2 (has_vertex_spec t g) Ht), Hw, Hneg.
  cbn [negb]. destruct (assoc t (tentative (dijkstra g s))) as [[c p]|] eqn:E.
  - apply assoc_Some in E. case_decide as Hts.
    + exists p. split_and!; [done|by apply dijkstra_sound|by eapply dijkstra_optimal].
    + split; [done|]. intros c' p' Hw'. by apply Hts, (dijkstra_complete g s t c' p').
  - split; [done|]. intros c' p' Hw'. apply (assoc_None t _ E).
    destruct (dijkstra_inv g s Hnn) as (_ & _ & Hsk & _). by apply Hsk, (dijkstra_complete g s t c' p').
Qed.

(** ** Witnesses *)

Lemma dijkstra_fuel_enough_witness :
  wf ex_triangle /\ nonneg ex_triangle /\ "A" ∈ vertices ex_triangle /\
  select_min (dijkstra ex_triangle "A") = None.
Proof.
  assert (H1 : wf ex_triangle) by (apply wfb_sound; vm_compute; reflexivity).
  assert (H2 : nonneg ex_triangle) by (apply has_negative_weight_nonneg; vm_compute; reflexivity).
  assert (H3 : "A" ∈ vertices ex_triangle) by decide_by_eval.
  split_and!; [exact H1|exact H2|exact H3|].
  exact (dijkstra_fuel_enough ex_triangle "A" H1 H2 H3).
Defined.

End Dijkstra.
