(* ===== verification/Euler.v ===== *)
(** Eulerian test of the engine (spec 4.3), module [Euler].

    The active vertices are those of nonzero degree; connectivity among
    them is read off breadth-first searches ([Paths.bfs]) from the first
    active vertex: in the graph (reachability), in the reversed graph (so
    strong connectivity for directed graphs) and in the undirected view
    (weak connectivity).  Undirected: a circuit when connected with no
    odd degree, a path when connected with exactly two.  Directed: a
    circuit when balanced and strongly connected, a path when at most one
    vertex has one more out- than in-edge, at most one the converse, all
    others balance, and the graph is weakly connected.  A graph without
    edges has a (trivial) circuit.

    For an undirected graph the classification is proved equal to the
    spec's characterization ([eulerian_undirected]): connectivity as
    "every two vertices of nonzero degree are joined by a walk"
    ([connected_active]), which one search from the first of them
    decides because reachability is symmetric and transitive there
    ([reach_sym], [reach_trans]).  For a directed graph the circuit
    answer is proved equal to the spec's: balanced degrees and strong
    connectivity, decided by a search in the graph and one in the
    reversed graph ([reach_reverse], [eulerian_directed_circuit]). *)

From Stdlib Require Import QArith.
From stdpp Require Import base list strings decidable.
From S2P Require Import Prelude Graph Paths.

Module Euler.
Import GraphStore Paths.

Inductive euler_result := Circuit | EulerPath | Neither.

Definition total_degree (g : graph) (v : label) : nat := out_degree g v + in_degree g v.

Definition active (g : graph) : list label :=
  List.filter (fun v => negb (total_degree g v =? 0)) (vertices g).

(** The vertices a breadth-first search from [r] reaches. *)
Definition reached (g : graph) (r : label) : list label := map fst (found (bfs g r)).

Definition all_reached (g : graph) (r : label) (vs : list label) : bool :=
  forallb (fun v => bool_decide (v ∈ reached g r)) vs.

Definition undirected_view (g : graph) : graph :=
  mkGraph false (weighted g) (vertices g) (edges g).

Definition reverse_graph (g : graph) : graph :=
  mkGraph (directed g) (weighted g) (vertices g)
    (map (fun e => mkEdge (eto e) (efrom e) (eweight e)) (edges g)).

Definition eulerian (g : graph) : euler_result :=
  match active g with
  | [] => Circuit
  | r :: _ =>
      if negb (directed g) then
        if all_reached g r (active g) then
          let odd := countb (fun v => Nat.odd (total_degree g v)) (vertices g) in
          if odd =? 0 then Circuit else if odd =? 2 then EulerPath else Neither
        else Neither
      else
        let balanced v := out_degree g v =? in_degree g v in
        let start v := out_degree g v =? S (in_degree g v) in
        let finish v := in_degree g v =? S (out_degree g v) in
        if forallb balanced (vertices g) && all_reached g r (active g) &&
           all_reached (reverse_graph g) r (active g)
        then Circuit
        else if forallb (fun v => balanced v || start v || finish v) (vertices g) &&
                (countb start (vertices g) <=? 1) && (countb finish (vertices g) <=? 1) &&
                all_reached (undirected_view g) r (active g)
        then EulerPath
        else Neither
  end.

(** The spec's connectivity: every two vertices of nonzero degree are
    joined by a walk. *)
Definition connected_active (g : graph) : Prop :=
  forall u v, u ∈ active g -> v ∈ active g -> exists m, reach g u m v.

(** ** The undirected classification *)

Section Undirected.
Context (g : graph).

Lemma reach_trans s u v m n : reach g s m u -> reach g u n v -> reach g s (m + n) v.
Proof.
  intros Hu. revert v. induction n as [|n IH]; intros v Hv.
  - unfold reach in Hv. cbn in Hv. apply list_elem_of_singleton in Hv. subst. by rewrite Nat.add_0_r.
  - apply reach_S in Hv as (x & Hx & Hs). rewrite Nat.add_succ_r. apply reach_S. eauto.
Qed.

Lemma successors_sym u v :
  directed g = false -> v ∈ successors g u -> u ∈ successors g v.
Proof.
  intros Hd. unfold successors. rewrite !elem_of_flat_map. intros (e & He & Ht).
  exists e. split; [done|]. rewrite Hd in *. apply elem_of_edge_targets in Ht.
  apply elem_of_edge_targets. naive_solver.
Qed.

Lemma reach_sym s v n : directed g = false -> reach g s n v -> reach g v n s.
Proof.
  intros Hd. revert v. induction n as [|n IH]; intros v Hv.
  - unfold reach in *. cbn in *. apply list_elem_of_singleton in Hv. subst. by apply list_elem_of_singleton.
  - apply reach_S in Hv as (x & Hx & Hs). change (S n) with (1 + n).
    apply (reach_trans v x s 1 n); [|by apply IH].
    apply reach_S. exists v. split; [unfold reach; cbn; by apply list_elem_of_singleton|].
    by apply successors_sym.
Qed.

Lemma active_vertices v : v ∈ active g -> v ∈ vertices g.
Proof. unfold active. intros Hv. apply list_elem_of_In, filter_In in Hv as [Hv _]. by apply list_elem_of_In. Qed.

Lemma all_reached_spec r vs :
  wf g -> r ∈ vertices g ->
  all_reached g r vs = true <-> forall v, v ∈ vs -> exists m, reach g r m v.
Proof.
  intros Hwf Hr. unfold all_reached. rewrite forallb_forall.
  destruct (bfs_spec g r Hwf Hr) as [Hf _]. unfold reached.
  split; intros H v Hv.
  - apply Hf. apply list_elem_of_In in Hv. pose proof (H v Hv) as Hb.
    by apply bool_decide_eq_true in Hb.
  - apply bool_decide_eq_true, Hf, H. by apply list_elem_of_In.
Qed.

(** One search from the first active vertex decides connectivity. *)
Lemma connected_from r rs :
  directed g = false -> active g = r :: rs ->
  connected_active g <-> forall v, v ∈ active g -> exists m, reach g r m v.
Proof.
  intros Hd Ha. split.
  - intros Hc v Hv. apply Hc; [rewrite Ha; apply elem_of_cons; by left|done].
  - intros H u v Hu Hv. destruct (H u Hu) as [m Hm], (H v Hv) as [n Hn].
    exists (m + n). apply (reach_trans u r v); [by apply reach_sym|done].
Qed.

Lemma no_active_even :
  active g = [] -> forall v, v ∈ vertices g -> Nat.even (total_degree g v) = true.
Proof.
  intros Ha v Hv. assert (Hz : total_degree g v = 0); [|by rewrite Hz].
  destruct (decide (total_degree g v = 0)) as [|Hn]; [done|]. exfalso.
  assert (Hin : v ∈ active g); [|by rewrite Ha in Hin; apply elem_of_nil in Hin].
  unfold active. apply list_elem_of_In, filter_In. split; [by apply list_elem_of_In|].
  apply negb_true_iff, Nat.eqb_neq, Hn.
Qed.

Lemma odd_count_zero :
  countb (fun v => Nat.odd (total_degree g v)) (vertices g) = 0 <->
  forall v, v ∈ vertices g -> Nat.even (total_degree g v) = true.
Proof.
  rewrite countb_zero. setoid_rewrite <- Nat.negb_even. by setoid_rewrite negb_false_iff.
Qed.

End Undirected.

(** ** The directed circuit *)

Lemma reverse_wf g : wf g -> wf (reverse_graph g).
Proof.
  intros (Hnd & Hend & Hw). split_and!; cbn; [done| |].
  - intros e He. apply elem_of_map_iff in He as (e' & -> & He'). cbn. destruct (Hend e' He'). done.
  - intros e He. apply elem_of_map_iff in He as (e' & -> & He'). cbn. by apply Hw.
Qed.

Lemma successors_reverse g u v :
  directed g = true -> v ∈ successors (reverse_graph g) u <-> u ∈ successors g v.
Proof.
  intros Hd. unfold successors. cbn [reverse_graph directed edges]. rewrite !elem_of_flat_map, Hd.
  split.
  - intros (e & He & Ht). apply elem_of_map_iff in He as (e' & -> & He').
    apply elem_of_edge_targets in Ht. exists e'. split; [done|].
    apply elem_of_edge_targets. cbn in Ht. naive_solver.
  - intros (e & He & Ht). exists (mkEdge (eto e) (efrom e) (eweight e)).
    split; [apply elem_of_map_iff; by exists e|].
    apply elem_of_edge_targets in Ht. apply elem_of_edge_targets. cbn. naive_solver.
Qed.

Lemma reach_one g u v : v ∈ successors g u -> reach g u 1 v.
Proof. intros H. apply reach_S. exists u. split; [unfold reach; cbn; by apply list_elem_of_singleton|done]. Qed.

(** A walk of the reversed graph is a walk of the graph backwards. *)
Lemma reach_reverse g s v n :
  directed g = true -> reach (reverse_graph g) s n v <-> reach g v n s.
Proof.
  intros Hd. split.
  - revert v. induction n as [|n IH]; intros v Hv.
    + unfold reach in *. cbn in *. apply list_elem_of_singleton in Hv. subst. by apply list_elem_of_singleton.
    + apply reach_S in Hv as (x & Hx & Hs). change (S n) with (1 + n).
      apply (reach_trans g v x s 1 n); [|by apply IH]. apply reach_one. by apply successors_reverse.
  - revert s. induction n as [|n IH]; intros s Hs.
    + unfold reach in *. cbn in *. apply list_elem_of_singleton in Hs. subst. by apply list_elem_of_singleton.
    + apply reach_S in Hs as (x & Hx & Hs). change (S n) with (1 + n).
      apply (reach_trans (reverse_graph g) s x v 1 n); [|by apply IH]. apply reach_one.
      by apply successors_reverse.
Qed.

Lemma no_active_balanced g :
  active g = [] -> forall v, v ∈ vertices g -> out_degree g v = in_degree g v.
Proof.
  intros Ha v Hv. destruct (decide (total_degree g v = 0)) as [Hz|Hn].
  - unfold total_degree in Hz. lia.
  - exfalso. assert (Hin : v ∈ active g); [|by rewrite Ha in Hin; apply elem_of_nil in Hin].
    unfold active. apply list_elem_of_In, filter_In. split; [by apply list_elem_of_In|].
    apply negb_true_iff, Nat.eqb_neq, Hn.
Qed.

(** The engine's answer for a directed graph is a circuit exactly when
    the spec says one exists: every vertex balances in- and out-degree,
    and every two vertices of nonzero degree are joined by a walk in each
    direction (strong connectivity). *)
Lemma eulerian_directed_circuit g :
  wf g -> directed g = true ->
  eulerian g = Circuit <->
  (forall v, v ∈ vertices g -> out_degree g v = in_degree g v) /\ connected_active g.
Proof.
  intros Hwf Hd. unfold eulerian. destruct (active g) as [|r rs] eqn:Ha.
  - split; [|done]. intros _. split; [by apply no_active_balanced|].
    intros u v Hu. rewrite Ha in Hu. by apply elem_of_nil in Hu.
  - rewrite Hd. cbn [negb].
    assert (Hr : r ∈ vertices g) by (apply active_vertices; rewrite Ha; apply elem_of_cons; by left).
    rewrite <- Ha.
    assert (Hbal : forallb (fun v => out_degree g v =? in_degree g v) (vertices g) = true <->
                   forall v, v ∈ vertices g -> out_degree g v = in_degree g v).
    { rewrite forallb_forall. setoid_rewrite Nat.eqb_eq. setoid_rewrite list_elem_of_In. done. }
    assert (Hrev : all_reached (reverse_graph g) r (active g) = true <->
                   forall v, v ∈ active g -> exists m, reach g v m r).
    { rewrite (all_reached_spec (reverse_graph g) r _ (reverse_wf g Hwf) Hr).
      by setoid_rewrite (reach_reverse g r _ _ Hd). }
    pose proof (all_reached_spec g r (active g) Hwf Hr) as Hfw.
    destruct (forallb _ _ && _ && _) eqn:E.
    + apply andb_true_iff in E as [E E3]. apply andb_true_iff in E as [E1 E2].
      pose proof (proj1 Hbal E1) as B1. pose proof (proj1 Hfw E2) as B2. pose proof (proj1 Hrev E3) as B3.
      split; [|done]. intros _. split; [exact B1|]. intros u v Hu Hv.
      destruct (B3 u Hu) as [m Hm], (B2 v Hv) as [n Hn]. exists (m + n). by apply (reach_trans g u r v).
    + split; [intros H; by destruct (forallb _ _ && _ && _ && _)|].
      intros [Hb Hc]. exfalso. apply not_true_iff_false in E. apply E.
      apply andb_true_iff. split; [apply andb_true_iff; split|].
      * exact (proj2 Hbal Hb).
      * apply Hfw. intros v Hv. apply Hc; [rewrite Ha; apply elem_of_cons; by left|done].
      * apply Hrev. intros v Hv. apply Hc; [done|rewrite Ha; apply elem_of_cons; by left].
Qed.

(** The engine's answer for an undirected graph is the spec's: a circuit
    exactly when the vertices of nonzero degree are connected and every
    degree is even, a path exactly when they are connected and exactly
    two degrees are odd. *)
Lemma eulerian_undirected g :
  wf g -> directed g = false ->
  (eulerian g = Circuit <->
   connected_active g /\ forall v, v ∈ vertices g -> Nat.even (total_degree g v) = true) /\
  (eulerian g = EulerPath <->
   connected_active g /\ countb (fun v => Nat.odd (total_degree g v)) (vertices g) = 2).
Proof.
  intros Hwf Hd. unfold eulerian. destruct (active g) as [|r rs] eqn:Ha.
  - pose proof (no_active_even g Ha) as He.
    assert (Hc : connected_active g) by (intros u v Hu; by rewrite Ha in Hu; apply elem_of_nil in Hu).
    assert (Hz : countb (fun v => Nat.odd (total_degree g v)) (vertices g) = 0) by by apply odd_count_zero.
    rewrite Hz. split; split; try done; intros [_ H]; discriminate.
  - rewrite Hd. cbn [negb].
    assert (Hr : r ∈ vertices g) by (apply active_vertices; rewrite Ha; apply elem_of_cons; by left).
    rewrite <- Ha. pose proof (connected_from g r rs Hd Ha) as Hcf.
    destruct (all_reached g r (active g)) eqn:E.
    + pose proof (proj1 (all_reached_spec g r _ Hwf Hr) E) as Ec. rewrite <- Hcf in Ec.
      rewrite <- odd_count_zero.
      destruct (countb _ _ =? 0) eqn:E0; [apply Nat.eqb_eq in E0|apply Nat.eqb_neq in E0];
        [rewrite E0; split; split; try done; intros [_ H]; discriminate|].
      destruct (countb _ _ =? 2) eqn:E2; [apply Nat.eqb_eq in E2|apply Nat.eqb_neq in E2];
        split; split; try done; intros [_ H]; done.
    + assert (Hn : ~ connected_active g).
      { rewrite Hcf. rewrite <- (all_reached_spec g r _ Hwf Hr). by rewrite E. }
      split; split; try discriminate; intros [H _]; done.
Qed.

End Euler.
