(* ===== verification/JsValue.v ===== *)
(** JavaScript values and the builtins [App.js] relies on (module [Js]).

    These are the language's semantics, not code of the repository:
    values with [undefined] and [null], numbers with NaN and the
    infinities, truthiness and the [||] / [&&] operators, SameValueZero
    (the equality of [Set]), [Set] insertion in insertion order,
    [String.prototype.trim], [String.prototype.split] with a one-character
    separator, and [parseFloat] (ECMAScript's StrDecimalLiteral prefix
    grammar).  Strings are sequences of 8-bit code units; numbers are
    exact rationals, so the rounding of IEEE doubles and the overflow of
    huge exponents to Infinity are not modelled. *)

From Stdlib Require Import QArith String Ascii ZArith DecimalString DecimalN DecimalZ.
From stdpp Require Import base list strings decidable.
From S2P Require Import Prelude.

Module Js.

(** ** Values *)

Inductive number :=
| NaN
| PosInf
| NegInf
| Fin (q : Q).

(** Arrays and objects are modelled by their contents; every array or
    object of the program is a fresh literal or a fresh [JSON.parse]
    result, so no two of them are the same reference. *)
Inductive value :=
| Undefined
| Null
| Bool (b : bool)
| Num (n : number)
| Str (s : string)
| Arr (xs : list value)
| Obj (fields : list (string * value)).

(** ToBoolean. *)
Definition truthy (v : value) : bool :=
  match v with
  | Undefined | Null => false
  | Bool b => b
  | Num NaN => false
  | Num (Fin q) => negb (Qeq_bool q 0)
  | Num _ => true
  | Str s => negb (String.eqb s "")
  | Arr _ | Obj _ => true
  end.

(** [a || b] and [a && b] return one of their operands. *)
Definition js_or (a b : value) : value := if truthy a then a else b.
Definition js_and (a b : value) : value := if truthy a then b else a.

(** SameValueZero on primitives; distinct arrays and objects are distinct
    references. *)
Definition same_value_zero (a b : value) : bool :=
  match a, b with
  | Undefined, Undefined | Null, Null => true
  | Bool x, Bool y => Bool.eqb x y
  | Num NaN, Num NaN | Num PosInf, Num PosInf | Num NegInf, Num NegInf => true
  | Num (Fin x), Num (Fin y) => Qeq_bool x y
  | Str x, Str y => String.eqb x y
  | _, _ => false
  end.

(** [set.add(x)] on a Set kept as its insertion-ordered element list. *)
Definition set_add (x : value) (s : list value) : list value :=
  if existsb (same_value_zero x) s then s else s ++ [x].

(** [new Set(xs)] followed by [Array.from]. *)
Definition set_of_list (xs : list value) : list value :=
  fold_left (fun acc x => set_add x acc) xs [].

(** Property read [o.f] on an object; [undefined] when absent. *)
Definition get_field (o : value) (f : string) : value :=
  match o with
  | Obj fs => match List.find (fun p => String.eqb (fst p) f) fs with
              | Some (_, v) => v
              | None => Undefined
              end
  | _ => Undefined
  end.

(** Index read [a[i]]; [undefined] out of range. *)
Definition get_index (a : value) (i : nat) : value :=
  match a with
  | Arr xs => match xs !! i with Some v => v | None => Undefined end
  | _ => Undefined
  end.

(** ** Property access and iteration *)

(** [o.f]: a TypeError (None) on [undefined] and [null]; [undefined] for
    a member an object or primitive does not have. *)
Definition read_field (o : value) (f : string) : option value :=
  match o with
  | Undefined | Null => None
  | _ => Some (get_field o f)
  end.

Definition string_chars (s : string) : list value :=
  map (fun c => Str (String c EmptyString)) (list_ascii_of_string s).

(** The elements an iterable yields ([...x], [new Set(x)]): an array's
    items, a string's characters; a TypeError (None) otherwise. *)
Definition items (v : value) : option (list value) :=
  match v with
  | Arr xs => Some xs
  | Str s => Some (string_chars s)
  | _ => None
  end.

(** ** ToString *)

Definition N_to_string (n : N) : string := NilEmpty.string_of_uint (N.to_uint n).

(** Smallest [e <= fuel] with [q * 10^e] an integer, for a [q] whose
    reduced denominator is a product of 2s and 5s. *)
Fixpoint decimal_exponent (fuel : nat) (q : Q) (e : nat) : option nat :=
  if (Qnum q * 10 ^ Z.of_nat e mod Zpos (Qden q) =? 0)%Z then Some e
  else match fuel with
       | O => None
       | S f => decimal_exponent f q (S e)
       end.

(** [m = s * 10^t] with [s] not divisible by 10, for [m > 0]. *)
Fixpoint strip_zeros (fuel : nat) (m : Z) (t : nat) : Z * nat :=
  match fuel with
  | O => (m, t)
  | S f => if (m mod 10 =? 0)%Z then strip_zeros f (m / 10) (S t) else (m, t)
  end.

Definition zeros (n : nat) : string := string_of_list_ascii (repeat "0"%char n).

(** Number::toString(10) of a positive finite value [x = s * 10^(n-k)],
    [s] of [k] digits: plain notation when [-6 < n <= 21], exponent
    notation otherwise. *)
Definition positive_to_string (q : Q) : string :=
  let q := Qred q in
  match decimal_exponent (Pos.size_nat (Qden q)) q 0 with
  | None => (NilEmpty.string_of_int (Z.to_int (Qnum q)) ++ "/" ++ N_to_string (Npos (Qden q)))%string
  | Some e =>
      let m := (Qnum q * 10 ^ Z.of_nat e / Zpos (Qden q))%Z in
      let '(sd, t) := strip_zeros (Z.to_nat (Z.log2 m) + 1) m 0 in
      let ds := N_to_string (Z.to_N sd) in
      let k := Z.of_nat (String.length ds) in
      let n := (k + Z.of_nat t - Z.of_nat e)%Z in
      if ((k <=? n) && (n <=? 21))%Z then (ds ++ zeros (Z.to_nat (n - k)))%string
      else if ((0 <? n) && (n <=? 21))%Z then
        (substring 0 (Z.to_nat n) ds ++ "." ++ substring (Z.to_nat n) (Z.to_nat (k - n)) ds)%string
      else if ((-6 <? n) && (n <=? 0))%Z then
        ("0." ++ zeros (Z.to_nat (- n)) ++ ds)%string
      else
        let ex := (n - 1)%Z in
        let sign := if (0 <=? ex)%Z then "+" else "-" in
        let mant := if (k =? 1)%Z then ds
                    else (substring 0 1 ds ++ "." ++ substring 1 (Z.to_nat (k - 1)) ds)%string in
        (mant ++ "e" ++ sign ++ N_to_string (Z.to_N (Z.abs ex)))%string
  end.

Definition number_to_string (n : number) : string :=
  match n with
  | NaN => "NaN"
  | PosInf => "Infinity"
  | NegInf => "-Infinity"
  | Fin q =>
      if Qeq_bool q 0 then "0"
      else if Qle_bool 0 q then positive_to_string q
      else ("-" ++ positive_to_string (- q))%string
  end.

(** ToString, as a template literal [`${v}`] applies it; arrays join
    their items with commas, [null] and [undefined] items giving "". *)
Fixpoint to_string (v : value) : string :=
  match v with
  | Undefined => "undefined"
  | Null => "null"
  | Bool b => if b then "true" else "false"
  | Num n => number_to_string n
  | Str s => s
  | Arr xs =>
      (fix go (l : list value) (first : bool) : string :=
         match l with
         | [] => EmptyString
         | x :: l' =>
             ((if first then "" else ",") ++
              match x with Undefined | Null => "" | _ => to_string x end ++ go l' false)%string
         end) xs true
  | Obj _ => "[object Object]"
  end.

(** ** Strings *)

(** StrWhiteSpaceChar restricted to 8-bit code units: TAB, LF, VT, FF,
    CR, SPACE and NO-BREAK SPACE. *)
Definition is_space (c : ascii) : bool :=
  match nat_of_ascii c with
  | 9 | 10 | 11 | 12 | 13 | 32 | 160 => true
  | _ => false
  end.

Fixpoint trim_start (s : string) : string :=
  match s with
  | EmptyString => EmptyString
  | String c r => if is_space c then trim_start r else s
  end.

Definition rev_string (s : string) : string := string_of_list_ascii (rev (list_ascii_of_string s)).

Definition trim_end (s : string) : string := rev_string (trim_start (rev_string s)).

(** [s.trim()]. *)
Definition trim (s : string) : string := trim_end (trim_start s).

(** [s.split(sep)] for a one-character separator: the pieces between
    separators, an empty string giving [[""]]. *)
Fixpoint split (sep : ascii) (s : string) : list string :=
  match s with
  | EmptyString => [EmptyString]
  | String c r =>
      let parts := split sep r in
      if Ascii.eqb c sep then EmptyString :: parts
      else match parts with
           | p :: ps => String c p :: ps
           | [] => [String c EmptyString]
           end
  end.

(** Whether [c] occurs in [s]. *)
Definition has_char (c : ascii) (s : string) : bool :=
  existsb (Ascii.eqb c) (list_ascii_of_string s).

(** ** parseFloat *)

Definition digit_of (c : ascii) : option nat :=
  let n := nat_of_ascii c in
  if (48 <=? n) && (n <=? 57) then Some (n - 48) else None.

(** The longest run of decimal digits at the head of [s], and the rest. *)
Fixpoint take_digits (s : string) : list nat * string :=
  match s with
  | EmptyString => ([], EmptyString)
  | String c r =>
      match digit_of c with
      | Some d => let '(ds, rest) := take_digits r in (d :: ds, rest)
      | None => ([], s)
      end
  end.

Definition digits_value (ds : list nat) : Z :=
  fold_left (fun acc d => 10 * acc + Z.of_nat d)%Z ds 0%Z.

(** [m * 10^e] as a reduced rational. *)
Definition decimal_Q (m e : Z) : Q :=
  if (0 <=? e)%Z then Qred (inject_Z (m * 10 ^ e))
  else Qred (Qmake m (Z.to_pos (10 ^ (- e)))).

(** The value of an ExponentPart at the head of [s] ([e] or [E], an
    optional sign, at least one digit), 0 when there is none. *)
Definition exponent_part (s : string) : Z :=
  match s with
  | String c r =>
      if Ascii.eqb c "e" || Ascii.eqb c "E" then
        let '(sg, r') := match r with
                         | String "+" r' => (1%Z, r')
                         | String "-" r' => ((-1)%Z, r')
                         | _ => (1%Z, r)
                         end in
        match take_digits r' with
        | ([], _) => 0%Z
        | (ds, _) => (sg * digits_value ds)%Z
        end
      else 0%Z
  | EmptyString => 0%Z
  end.

(** The value of the longest StrUnsignedDecimalLiteral at the head of
    [s]: [Infinity], or digits with an optional fraction and exponent. *)
Definition unsigned_decimal (s : string) : option number :=
  if String.prefix "Infinity" s then Some PosInf
  else
    let '(ds, r) := take_digits s in
    let '(fs, r2) := match r with
                     | String "." r1 => take_digits r1
                     | _ => ([], r)
                     end in
    match ds, fs with
    | [], [] => None
    | _, _ => Some (Fin (decimal_Q (digits_value (ds ++ fs))
                                   (exponent_part r2 - Z.of_nat (length fs))))
    end.

Definition negate (n : number) : number :=
  match n with
  | NaN => NaN
  | PosInf => NegInf
  | NegInf => PosInf
  | Fin q => Fin (Qred (- q))
  end.

(** [parseFloat(s)]: skip leading white space, read an optional sign and
    the longest decimal literal; NaN when there is none. *)
Definition parseFloat (s : string) : number :=
  let t := trim_start s in
  let '(neg, body) := match t with
                      | String "-" r => (true, r)
                      | String "+" r => (false, r)
                      | _ => (false, t)
                      end in
  match unsigned_decimal body with
  | Some n => if neg then negate n else n
  | None => NaN
  end.

(** ** String lemmas *)

Lemma string_app_nil b : ("" ++ b)%string = b.
Proof. reflexivity. Qed.

Lemma string_app_cons x a b : (String x a ++ b)%string = String x (a ++ b).
Proof. reflexivity. Qed.

Lemma append_empty_r s : (s ++ "")%string = s.
Proof. induction s as [|x s IH]; [done|]. by rewrite string_app_cons, IH. Qed.

Lemma has_char_app c a b : has_char c (a ++ b) = has_char c a || has_char c b.
Proof.
  induction a as [|x a IH]; [done|]. rewrite string_app_cons.
  unfold has_char in *. simpl. rewrite IH. by destruct (Ascii.eqb c x).
Qed.

Lemma has_char_cons c x s : has_char c (String x s) = Ascii.eqb c x || has_char c s.
Proof. done. Qed.

Lemma split_not_nil c s : split c s <> [].
Proof.
  destruct s as [|x s]; simpl; [done|]. destruct (Ascii.eqb x c); [done|].
  by destruct (split c s).
Qed.

Lemma split_app_nosep c a b :
  has_char c a = false ->
  split c (a ++ b) = match split c b with p :: ps => (a ++ p)%string :: ps | [] => [a] end.
Proof.
  induction a as [|x a IH]; intros Ha.
  - rewrite string_app_nil. destruct (split c b) eqn:E; [by apply split_not_nil in E|done].
  - rewrite string_app_cons. simpl. rewrite has_char_cons, orb_false_iff in Ha. destruct Ha as [Hx Ha].
    rewrite IH by done. rewrite Ascii.eqb_sym, Hx.
    destruct (split c b) eqn:E; [by apply split_not_nil in E|done].
Qed.

Lemma split_nosep c s : has_char c s = false -> split c s = [s].
Proof.
  intros H. rewrite <- (append_empty_r s). rewrite split_app_nosep by done. done.
Qed.

Lemma split_sep c a b :
  has_char c a = false -> split c (a ++ String c b) = a :: split c b.
Proof.
  intros H. rewrite split_app_nosep by done. simpl. rewrite Ascii.eqb_refl.
  by rewrite append_empty_r.
Qed.

Lemma string_app_assoc a b c : ((a ++ b) ++ c)%string = (a ++ (b ++ c))%string.
Proof. induction a as [|x a IH]; [done|]. by rewrite !string_app_cons, IH. Qed.

End Js.
