(* ===== verification/Http.v ===== *)
(** The HTTP boundary between the client and the engine (module [Http]).

    JSON documents, [JSON.stringify] of the client's request bodies and
    [JSON.parse] of the engine's answers, requests and responses, the
    promise outcome of an [axios] call (rejected on a non-2xx status or a
    network failure, with axios's error message), and the interface
    [Backend]: a state and a [serve] function answering one request.  The
    client ([Client]) is written and proved against [Backend]; the engine
    ([Server]) is one instance. *)

From Stdlib Require Import QArith String Ascii ZArith DecimalString DecimalNat.
From stdpp Require Import base list strings decidable.
From S2P Require Import Prelude JsValue.

Module Http.
Import Js.

Inductive json :=
| JNull
| JBool (b : bool)
| JNum (q : Q)
| JStr (s : string)
| JArr (xs : list json)
| JObj (fields : list (string * json)).

(** [JSON.stringify]: [None] for [undefined] (no text at all);
    [undefined] and non-finite numbers become [null] inside arrays, and
    object members whose value is [undefined] are dropped. *)
Fixpoint to_json (v : value) : option json :=
  match v with
  | Undefined => None
  | Null => Some JNull
  | Bool b => Some (JBool b)
  | Num (Fin q) => Some (JNum q)
  | Num _ => Some JNull
  | Str s => Some (JStr s)
  | Arr xs =>
      Some (JArr ((fix go (l : list value) : list json :=
                     match l with
                     | [] => []
                     | x :: l' => match to_json x with Some j => j | None => JNull end :: go l'
                     end) xs))
  | Obj fs =>
      Some (JObj ((fix go (l : list (string * value)) : list (string * json) :=
                     match l with
                     | [] => []
                     | (k, x) :: l' => match to_json x with
                                       | Some j => (k, j) :: go l'
                                       | None => go l'
                                       end
                     end) fs))
  end.

(** [JSON.parse]. *)
Fixpoint of_json (j : json) : value :=
  match j with
  | JNull => Null
  | JBool b => Bool b
  | JNum q => Num (Fin q)
  | JStr s => Str s
  | JArr xs => Arr (map of_json xs)
  | JObj fs => Obj (map (fun '(k, x) => (k, of_json x)) fs)
  end.

(** Member of a JSON object, first occurrence. *)
Definition jfield (j : json) (k : string) : option json :=
  match j with
  | JObj fs => snd <$> List.find (fun p => String.eqb (fst p) k) fs
  | _ => None
  end.

Inductive method := GET | POST.

Record request := mkRequest {
  rmethod : method;
  rurl : string;        (** the URL as the client wrote it *)
  rbody : option json   (** the stringified body of a POST *)
}.

Record response := mkResponse { status : nat; rdata : json }.

Inductive outcome :=
| Delivered (r : response)
| NetworkError.

(** The base URL every request of [App.js] starts with. *)
Definition base_url : string := "http://127.0.0.1:5000".

Definition nat_to_string (n : nat) : string :=
  NilEmpty.string_of_uint (Nat.to_uint n).

(** What an awaited [axios] call yields: the parsed [response.data] when
    the status is 2xx, otherwise a rejection carrying [error.message]. *)
Definition axios (o : outcome) : result string value :=
  match o with
  | Delivered r =>
      if (200 <=? status r) && (status r <? 300) then Ok (of_json (rdata r))
      else Err ("Request failed with status code " ++ nat_to_string (status r))%string
  | NetworkError => Err "Network Error"%string
  end.

(** What a server promises: a state and an answer to each request. *)
Class Backend := {
  backend_state : Type;
  serve : backend_state -> request -> backend_state * outcome
}.

(** ** Lemmas *)

Definition json_or_null (v : value) : json :=
  match to_json v with Some j => j | None => JNull end.

Lemma to_json_arr xs : to_json (Arr xs) = Some (JArr (map json_or_null xs)).
Proof. reflexivity. Qed.

Lemma to_json_obj2 k1 x1 k2 x2 j1 j2 :
  to_json x1 = Some j1 -> to_json x2 = Some j2 ->
  to_json (Obj [(k1, x1); (k2, x2)]) = Some (JObj [(k1, j1); (k2, j2)]).
Proof. intros H1 H2. cbn [to_json]. by rewrite H1, H2. Qed.

End Http.
