(* ===== verification/Server.v ===== *)
(** The engine's request handler (spec 4.4, 6 and 7), module [Server].

    The engine is not in the repository; this file follows the spec's
    endpoint table.  [handle] takes the graph and one request: it parses
    the URL (the path, and the query string as Flask's [request.args]
    reads it: pairs split on [&] and at the first [=], [+] read as a
    space and [%XX] as the byte XX, the first value of a key winning; a
    [#] ends the URL, which the browser does not send), validates the JSON
    body's shape, runs the operation of [GraphStore], [Mutation], [Paths]
    or [Euler], and answers JSON with status 200, or an error object with
    404 ([UnknownVertex], [NoPath], unknown route) or 400 (the other
    errors, a malformed body, a missing parameter).  The percent-encoding
    the browser applies to other characters is undone by that decoding
    and is not modelled.  [engine] makes the handler a [Backend]. *)

From Stdlib Require Import QArith String Ascii.
From stdpp Require Import base list strings decidable.
From S2P Require Import Prelude Graph Mutation Paths Euler JsValue Http.

Module Server.
Import GraphStore Mutation Paths Euler Js Http.

(** ** Request targets *)

(** [s] without the prefix [p], when it starts with it. *)
Definition strip_prefix (p s : string) : option string :=
  if String.prefix p s then Some (substring (String.length p) (String.length s - String.length p) s)
  else None.

(** The text before the first [c], and the text after it if there is one. *)
Fixpoint split_first (c : ascii) (s : string) : string * option string :=
  match s with
  | EmptyString => (EmptyString, None)
  | String x r =>
      if Ascii.eqb x c then (EmptyString, Some r)
      else let '(a, b) := split_first c r in (String x a, b)
  end.

Definition hex_digit (c : ascii) : option nat :=
  let n := nat_of_ascii c in
  if (48 <=? n) && (n <=? 57) then Some (n - 48)
  else if (65 <=? n) && (n <=? 70) then Some (n - 55)
  else if (97 <=? n) && (n <=? 102) then Some (n - 87)
  else None.

(** Query-string decoding: [+] is a space, [%XX] the byte XX; any other
    [%] stays. *)
Fixpoint url_decode (s : string) : string :=
  match s with
  | EmptyString => EmptyString
  | String "+" r => String " " (url_decode r)
  | String "%" r =>
      match r with
      | String h1 (String h2 r') =>
          match hex_digit h1, hex_digit h2 with
          | Some a, Some b => String (ascii_of_nat (16 * a + b)) (url_decode r')
          | _, _ => String "%" (url_decode r)
          end
      | _ => String "%" (url_decode r)
      end
  | String c r => String c (url_decode r)
  end.

Definition parse_pair (kv : string) : string * string :=
  let '(k, v) := split_first "=" kv in
  (url_decode k, match v with Some x => url_decode x | None => EmptyString end).

(** The route and the query parameters of a URL of the engine. *)
Definition parse_target (url : string) : option (string * list (string * string)) :=
  match strip_prefix base_url url with
  | None => None
  | Some rest =>
      let sent := fst (split_first "#" rest) in
      let '(path, q) := split_first "?" sent in
      Some (path, match q with
                  | None => []
                  | Some qs => map parse_pair (split "&" qs)
                  end)
  end.

(** [request.args.get(k)]: the first value of [k]. *)
Definition arg (k : string) (args : list (string * string)) : option string :=
  snd <$> List.find (fun p => String.eqb (fst p) k) args.

(** ** Answers *)

Definition ok (j : json) : outcome := Delivered (mkResponse 200 j).

Definition fail (code : nat) (msg : string) : outcome :=
  Delivered (mkResponse code (JObj [("error", JStr msg)])).

Definition message (msg : string) : outcome := ok (JObj [("message", JStr msg)]).

Definition error_outcome (e : gerror) : outcome :=
  match e with
  | UnknownVertex v => fail 404 ("Vertex " ++ v ++ " not found")
  | InvalidWeight => fail 400 "Invalid weight"
  | NegativeWeight => fail 400 "Negative weight"
  | NoPath => fail 404 "No path"
  | InvalidMode => fail 400 "Invalid mode"
  end.

Definition Qnat (n : nat) : Q := inject_Z (Z.of_nat n).

Definition edge_json (e : edge) : json :=
  JArr ([JStr (efrom e); JStr (eto e)] ++
        match eweight e with Some q => [JNum q] | None => [] end).

Definition degree_json (v : label) (r : degree_report) : json :=
  JStr match r with
       | UndirectedDegree d => "Degree of " ++ v ++ ": " ++ nat_to_string d
       | DirectedDegree o i =>
           "Degree of " ++ v ++ ": " ++ nat_to_string (o + i) ++ " (out: " ++
           nat_to_string o ++ ", in: " ++ nat_to_string i ++ ")"
       end.

Definition euler_json (r : euler_result) : json :=
  JStr match r with Circuit => "circuit" | EulerPath => "path" | Neither => "neither" end.

Definition length_json (l : path_length) : json :=
  match l with Hops n => JNum (Qnat n) | Cost q => JNum q end.

(** ** Body shapes *)

(** An optional weight: absent or [null] is none, a number is one. *)
Definition weight_of (j : option json) : option (option Q) :=
  match j with
  | None | Some JNull => Some None
  | Some (JNum q) => Some (Some q)
  | _ => None
  end.

Definition batch_edge_of (j : json) : option batch_edge :=
  match j with
  | JArr [JStr a; JStr b] => Some (mkBatchEdge a b None)
  | JArr [JStr a; JStr b; w] =>
      match weight_of (Some w) with Some ow => Some (mkBatchEdge a b ow) | None => None end
  | _ => None
  end.

Definition label_of (j : json) : option label :=
  match j with JStr s => Some s | _ => None end.

Definition json_list (j : option json) : option (list json) :=
  match j with Some (JArr xs) => Some xs | _ => None end.

Definition bfield (body : option json) (k : string) : option json :=
  match body with Some b => jfield b k | None => None end.

(** ** Endpoints *)

Definition invalid : outcome := fail 400 "Invalid request".
Definition missing : outcome := fail 400 "Missing parameter".

(** POST /create_graph [{directed, weighted}]: a full reset. *)
Definition post_create (body : option json) (g : graph) : graph * outcome :=
  match bfield body "directed", bfield body "weighted" with
  | Some (JBool d), Some (JBool w) => (reset d w, message "Graph created")
  | _, _ => (g, error_outcome InvalidMode)
  end.

(** POST /add_vertex [{vertex}]. *)
Definition post_add_vertex (body : option json) (g : graph) : graph * outcome :=
  match bfield body "vertex" with
  | Some (JStr v) => (addVertex v g, message "Vertex added")
  | _ => (g, invalid)
  end.

(** POST /add_edge [{startVertex, endVertex, weight?}]. *)
Definition post_add_edge (body : option json) (g : graph) : graph * outcome :=
  match bfield body "startVertex", bfield body "endVertex", weight_of (bfield body "weight") with
  | Some (JStr a), Some (JStr b), Some w =>
      match addEdge a b w g with
      | Ok g' => (g', message "Edge added")
      | Err e => (g, error_outcome e)
      end
  | _, _, _ => (g, invalid)
  end.

(** POST /insert_batch_items [{vertices, edges}]: the complete lists
    after the batch, and the positions of the skipped edges. *)
Definition post_insert_batch (body : option json) (g : graph) : graph * outcome :=
  let vs := json_list (bfield body "vertices") ≫= (fun xs => all_some (map label_of xs)) in
  let es := json_list (bfield body "edges") ≫= (fun xs => all_some (map batch_edge_of xs)) in
  match vs, es with
  | Some vs, Some es =>
      let '(g', skipped) := insertBatch vs es g in
      (g', ok (JObj [("vertices", JArr (map JStr (vertices g')));
                     ("edges", JArr (map edge_json (edges g')));
                     ("skipped", JArr (map (fun p => JNum (Qnat (fst p))) skipped))]))
  | _, _ => (g, invalid)
  end.

Definition answer {A} (r : result gerror A) (k : A -> json) : outcome :=
  match r with Ok a => ok (k a) | Err e => error_outcome e end.

(** The read-only endpoints. *)
Definition get_endpoint (path : string) (args : list (string * string)) (g : graph) : outcome :=
  if String.eqb path "/adjacency" then
    match arg "vertex" args with
    | Some v => answer (neighbors v g) (fun ns => JObj [("neighbors", JArr (map JStr ns))])
    | None => missing
    end
  else if String.eqb path "/verify_adj" then
    match arg "vertex1" args, arg "vertex2" args with
    | Some a, Some b => answer (areAdjacent a b g) (fun r => JObj [("result", JBool r)])
    | _, _ => missing
    end
  else if String.eqb path "/degree" then
    match arg "vertex" args with
    | Some v => answer (degree v g) (fun r => JObj [("message", degree_json v r)])
    | None => missing
    end
  else if String.eqb path "/shortest_path" then
    match arg "vertex_start" args, arg "vertex_end" args with
    | Some s, Some t =>
        answer (shortestPath s t g)
          (fun pl => JObj [("path", JArr (map JStr (fst pl))); ("length", length_json (snd pl))])
    | _, _ => missing
    end
  else if String.eqb path "/check_eulerian" then ok (JObj [("result", euler_json (eulerian g))])
  else if String.eqb path "/get_graph_info" then
    ok (JObj [("order", JNum (Qnat (order g))); ("size", JNum (Qnat (size g)))])
  else fail 404 "Not found".

Definition handle (g : graph) (rq : request) : graph * outcome :=
  match parse_target (rurl rq) with
  | None => (g, fail 404 "Not found")
  | Some (path, args) =>
      match rmethod rq with
      | POST =>
          if String.eqb path "/create_graph" then post_create (rbody rq) g
          else if String.eqb path "/add_vertex" then post_add_vertex (rbody rq) g
          else if String.eqb path "/add_edge" then post_add_edge (rbody rq) g
          else if String.eqb path "/insert_batch_items" then post_insert_batch (rbody rq) g
          else (g, fail 404 "Not found")
      | GET => (g, get_endpoint path args g)
      end
  end.

(** The engine as the client's backend; it starts with an empty
    undirected, unweighted graph. *)
#[export] Instance engine : Backend := {| backend_state := graph; serve := handle |}.

Definition initial_graph : graph := reset false false.

(** A label the client can put in a query string unchanged: none of the
    characters the query syntax gives a meaning to. *)
Definition query_safe (s : string) : bool :=
  negb (has_char "&" s || has_char "#" s || has_char "+" s || has_char "%" s).

(** What the engine reads from one item the client put in its lists. *)
Definition sent_label (v : value) : option label := label_of (json_or_null v).
Definition sent_edge (v : value) : option batch_edge := batch_edge_of (json_or_null v).

(** ** Parsing lemmas *)

Lemma strip_prefix_app p r : strip_prefix p (p ++ r) = Some r.
Proof.
  unfold strip_prefix.
  assert (Hp : String.prefix p (p ++ r) = true).
  { induction p as [|a p IH]; [by destruct r|]. rewrite string_app_cons. simpl.
    destruct (ascii_dec a a); [done|congruence]. }
  rewrite Hp. f_equal. clear Hp.
  induction p as [|a p IH].
  - rewrite string_app_nil. simpl. rewrite Nat.sub_0_r.
    induction r as [|b r IHr]; simpl; [done|]. by rewrite IHr.
  - rewrite string_app_cons. simpl. done.
Qed.

Lemma split_first_app c a b :
  has_char c a = false ->
  split_first c (a ++ b) = let '(x, y) := split_first c b in ((a ++ x)%string, y).
Proof.
  induction a as [|x a IH]; intros Ha.
  - rewrite string_app_nil. by destruct (split_first c b).
  - rewrite string_app_cons. simpl. rewrite has_char_cons, orb_false_iff in Ha. destruct Ha as [Hx Ha].
    rewrite Ascii.eqb_sym, Hx, IH by done. by destruct (split_first c b).
Qed.

Lemma split_first_none c s : has_char c s = false -> split_first c s = (s, None).
Proof.
  intros H. rewrite <- (append_empty_r s) at 1. rewrite split_first_app by done.
  simpl. by rewrite append_empty_r.
Qed.

Lemma url_decode_plain s :
  has_char "+" s = false -> has_char "%" s = false -> url_decode s = s.
Proof.
  induction s as [|x s IH]; simpl; [done|]. rewrite !has_char_cons, !orb_false_iff.
  intros [H1 Hp] [H2 Hq].
  destruct (ascii_dec x "+") as [->|Hn1]; [done|].
  destruct (ascii_dec x "%") as [->|Hn2]; [done|].
  rewrite IH by done.
  destruct x as [[] [] [] [] [] [] [] []]; try done; simpl in *; congruence.
Qed.

Create Rewrite HintDb url_rw.
#[export] Hint Rewrite has_char_app has_char_cons : url_rw.

Lemma query_safe_spec v :
  query_safe v = true ->
  has_char "&" v = false /\ has_char "#" v = false /\ has_char "+" v = false /\ has_char "%" v = false.
Proof. unfold query_safe. rewrite negb_true_iff, !orb_false_iff. tauto. Qed.

(** How the engine reads [key=value] once split from the query. *)
Lemma parse_pair_plain key v :
  has_char "=" key = false -> has_char "+" key = false -> has_char "%" key = false ->
  query_safe v = true -> parse_pair (key ++ String "=" v) = (key, v).
Proof.
  intros Hk3 Hk4 Hk5 (_ & _ & Hv3 & Hv4)%query_safe_spec. unfold parse_pair.
  rewrite split_first_app by done. cbn [split_first]. rewrite Ascii.eqb_refl, append_empty_r.
  by rewrite !url_decode_plain.
Qed.

Lemma parse_target_one path key v :
  has_char "?" path = false -> has_char "#" path = false ->
  has_char "#" key = false -> has_char "&" key = false -> has_char "=" key = false ->
  has_char "+" key = false -> has_char "%" key = false -> query_safe v = true ->
  parse_target (base_url ++ (path ++ String "?" (key ++ String "=" v))) = Some (path, [(key, v)]).
Proof.
  intros Hp1 Hp2 Hk1 Hk2 Hk3 Hk4 Hk5 Hv.
  pose proof (query_safe_spec v Hv) as (Hv1 & Hv2 & _).
  unfold parse_target. rewrite strip_prefix_app.
  rewrite (split_first_none "#"); [|autorewrite with url_rw; rewrite Hp2, Hk1, Hv2; reflexivity].
  cbn [fst]. rewrite split_first_app by done. cbn [split_first].
  rewrite Ascii.eqb_refl, append_empty_r. cbn iota beta.
  rewrite split_nosep; [|autorewrite with url_rw; rewrite Hk2, Hv1; reflexivity].
  cbn [map]. by rewrite parse_pair_plain.
Qed.

Lemma parse_target_two path k1 v1 k2 v2 :
  has_char "?" path = false -> has_char "#" path = false ->
  has_char "#" k1 = false -> has_char "&" k1 = false -> has_char "=" k1 = false ->
  has_char "+" k1 = false -> has_char "%" k1 = false ->
  has_char "#" k2 = false -> has_char "&" k2 = false -> has_char "=" k2 = false ->
  has_char "+" k2 = false -> has_char "%" k2 = false ->
  query_safe v1 = true -> query_safe v2 = true ->
  parse_target (base_url ++ (path ++ String "?" (k1 ++ String "=" (v1 ++ String "&" (k2 ++ String "=" v2)))))
  = Some (path, [(k1, v1); (k2, v2)]).
Proof.
  intros Hp1 Hp2 Ha1 Ha2 Ha3 Ha4 Ha5 Hb1 Hb2 Hb3 Hb4 Hb5 Hv Hw.
  pose proof (query_safe_spec v1 Hv) as (Hv1 & Hv2 & _).
  pose proof (query_safe_spec v2 Hw) as (Hw1 & Hw2 & _).
  unfold parse_target. rewrite strip_prefix_app.
  rewrite (split_first_none "#");
    [|autorewrite with url_rw; rewrite Hp2, Ha1, Hv2, Hb1, Hw2; reflexivity].
  cbn [fst]. rewrite split_first_app by done. cbn [split_first].
  rewrite Ascii.eqb_refl, append_empty_r. cbn iota beta.
  rewrite <- (string_app_cons "="%char v1), <- string_app_assoc.
  rewrite split_sep; [|autorewrite with url_rw; rewrite Ha2, Hv1; reflexivity].
  rewrite split_nosep; [|autorewrite with url_rw; rewrite Hb2, Hw1; reflexivity].
  cbn [map]. by rewrite !parse_pair_plain.
Qed.

(** A label cut by [&] or [#]: the engine reads the part before it as the
    whole value of the parameter, whatever follows. *)
Lemma split_first_fst c p r : has_char c p = false -> fst (split_first c (p ++ r)) = (p ++ fst (split_first c r))%string.
Proof. intros H. rewrite split_first_app by done. by destruct (split_first c r). Qed.

Lemma split_head c a t :
  has_char c a = false -> t = EmptyString \/ (exists t', t = String c t') ->
  exists rest, split c (a ++ t) = a :: rest.
Proof.
  intros Ha [->|[t' ->]].
  - exists []. rewrite append_empty_r. by apply split_nosep.
  - exists (split c t'). by apply split_sep.
Qed.

Lemma parse_target_cut path key a c r :
  has_char "?" path = false -> has_char "#" path = false ->
  has_char "#" key = false -> has_char "&" key = false -> has_char "=" key = false ->
  has_char "+" key = false -> has_char "%" key = false -> query_safe a = true ->
  c = "&"%char \/ c = "#"%char ->
  exists rest, parse_target (base_url ++ (path ++ String "?" (key ++ String "=" (a ++ String c r)))) =
    Some (path, (key, a) :: rest).
Proof.
  intros Hp1 Hp2 Hk1 Hk2 Hk3 Hk4 Hk5 Ha Hc.
  pose proof (query_safe_spec a Ha) as (Ha1 & Ha2 & _).
  set (kv := (key ++ String "=" a)%string).
  assert (E : (path ++ String "?" (key ++ String "=" (a ++ String c r)))%string =
              ((path ++ String "?" kv) ++ String c r)%string).
  { unfold kv. by rewrite !string_app_assoc, !string_app_cons, !string_app_assoc. }
  assert (Hkv1 : has_char "&" kv = false) by (unfold kv; autorewrite with url_rw; by rewrite Hk2, Ha1).
  assert (Hkv2 : has_char "#" kv = false) by (unfold kv; autorewrite with url_rw; by rewrite Hk1, Ha2).
  set (t := fst (split_first "#" (String c r))).
  assert (Ht : t = EmptyString \/ exists t', t = String "&" t').
  { unfold t. destruct Hc as [->| ->]; [right|by left].
    exists (fst (split_first "#" r)). cbn. by destruct (split_first "#" r). }
  unfold parse_target. rewrite strip_prefix_app, E, split_first_fst
    by (autorewrite with url_rw; by rewrite Hp2, Hkv2).
  fold t. rewrite string_app_assoc, split_first_app by done. cbn [split_first].
  rewrite string_app_cons. cbn [split_first]. rewrite Ascii.eqb_refl. cbn iota beta.
  rewrite append_empty_r.
  destruct (split_head "&" kv t Hkv1 Ht) as [rest ->]. exists (map parse_pair rest).
  cbn [map]. unfold kv. by rewrite parse_pair_plain.
Qed.

(** ** The batch payload *)

Lemma batch_payload_fields vs es :
  bfield (to_json (Obj [("vertices", Arr vs); ("edges", Arr es)])) "vertices" =
    Some (JArr (map json_or_null vs)) /\
  bfield (to_json (Obj [("vertices", Arr vs); ("edges", Arr es)])) "edges" =
    Some (JArr (map json_or_null es)).
Proof. rewrite (to_json_obj2 _ _ _ _ _ _ (to_json_arr vs) (to_json_arr es)). done. Qed.

Lemma decode_labels vs :
  all_some (map label_of (map json_or_null vs)) = all_some (map sent_label vs).
Proof. by rewrite map_map. Qed.

Lemma decode_edges es :
  all_some (map batch_edge_of (map json_or_null es)) = all_some (map sent_edge es).
Proof. by rewrite map_map. Qed.

End Server.
