(* ===== verification/Client.v ===== *)
(** The React client of [src/src/App.js] (module [Client]).

    The component's state is the value of each [useState] hook, by the
    hook's variable name ([App], a finite map; [initial_state] is lines
    26-58).  A [world] pairs that state with the backend's state, the
    list of observable effects ([alert], [console.log], [console.error],
    uncaught exceptions) and whether an exception escaped into React's
    rendering.  Each handler of the file is one definition, in the order
    of its statements: the request it builds from the state its closure
    captured, the backend's answer through [axios], the state updates on
    success, the [catch] branch on failure.  A handler that makes one
    request is [send] of two definitions: the request built from the
    captured state ([X_request]) and the rest of the handler after
    [await] ([X_answer]); [Async] runs the two halves apart.  The client
    is written against the [Backend] interface, not against the
    engine. *)

From Stdlib Require Import QArith String Ascii.
From stdpp Require Import base list strings decidable gmap.
From S2P Require Import Prelude JsValue Http.

Module Client.
Import Js Http.

(** React state: the current value of each [useState] hook. *)
Abbreviation App := (gmap string value).

Definition st (s : App) (k : string) : value := default Undefined (s !! k).

(** The hooks' initial values, lines 26-58 ([networkRef], line 51, is a
    DOM reference of the presentation). *)
Definition initial_state : App :=
  list_to_map [
    ("directed", Bool false); ("weighted", Bool false);
    ("vertices", Arr []); ("edges", Arr []);
    ("newVertex", Str ""); ("startVertex", Str ""); ("endVertex", Str "");
    ("weight", Str ""); ("adjVertex", Str ""); ("degreeMessage", Arr []);
    ("error", Null); ("degreeVertex", Str ""); ("adjVertices", Arr []);
    ("pathStart", Str ""); ("pathEnd", Str ""); ("shortestPath", Str "");
    ("shortestPathLength", Null);
    ("graphInfo", Obj [("order", Num (Fin 0)); ("size", Num (Fin 0));
                       ("vertices", Arr []); ("edges", Arr [])]);
    ("selectedFile", Null); ("insertMode", Str "batch");
    ("vertex1", Str ""); ("vertex2", Str ""); ("adjResult", Null);
    ("batchData", Str ""); ("eulerianResult", Null)].

Inductive effect :=
| Alert (msg : string)
| ConsoleLog (v : value)
| ConsoleError (msg : string) (err : string)
| Uncaught (err : string).

(** A browser [File] is represented by the text [readAsText] yields. *)
Definition file_object (content : string) : value := Obj [("content", Str content)].
Definition file_text (f : value) : string := to_string (get_field f "content").

Definition nullish (v : value) : bool :=
  match v with Undefined | Null => true | _ => false end.

(** The message of the TypeError thrown by [data.f] on a nullish [data]. *)
Definition read_error (data : value) (f : string) : string :=
  ("Cannot read properties of " ++ to_string data ++ " (reading '" ++ f ++ "')")%string.

Definition newline : ascii := ascii_of_nat 10.

(** ** The batch text format *)

(** The body of [lines.forEach] in [handleBatchInsert] (lines 86-99) and
    [handleFileUpload] (lines 153-166): a trimmed line split on single
    spaces is an edge when it has two or three parts; both endpoints go
    into the vertex Set, the edge (with [parseFloat] of the third part)
    at the end of the edge array; other lines are skipped. *)
Definition batch_line (acc : list value * list value) (line : string) : list value * list value :=
  let parts := split " " (trim line) in
  if (length parts =? 2) || (length parts =? 3) then
    let vertex1 := nth 0 parts "" in
    let vertex2 := nth 1 parts "" in
    let vs := set_add (Str vertex2) (set_add (Str vertex1) (fst acc)) in
    if length parts =? 3 then
      (vs, snd acc ++ [Arr [Str vertex1; Str vertex2; Num (parseFloat (nth 2 parts ""))]])
    else (vs, snd acc ++ [Arr [Str vertex1; Str vertex2]])
  else acc.

(** [text.split("\n")] followed by the loop. *)
Definition parse_lines (text : string) (acc : list value * list value) : list value * list value :=
  fold_left batch_line (split newline text) acc.

(** ** The controls of the page *)

(** The text inputs, each bound to its hook by [value]/[onChange]. *)
Inductive text_field :=
| FBatchData | FNewVertex | FStartVertex | FEndVertex | FWeight
| FVertex1 | FVertex2 | FAdjVertex | FDegreeVertex | FPathStart | FPathEnd.

Definition field_hook (f : text_field) : string :=
  match f with
  | FBatchData => "batchData" | FNewVertex => "newVertex"
  | FStartVertex => "startVertex" | FEndVertex => "endVertex" | FWeight => "weight"
  | FVertex1 => "vertex1" | FVertex2 => "vertex2" | FAdjVertex => "adjVertex"
  | FDegreeVertex => "degreeVertex" | FPathStart => "pathStart" | FPathEnd => "pathEnd"
  end.

Inductive button :=
| BBatchInsert | BAddVertex | BAddEdge | BVerifyAdjacency | BCheckAdjacency
| BCheckDegree | BFindShortestPath | BCheckEulerian | BGraphInfo.

Inductive event :=
| ChooseDirected (radio_value : string)   (** lines 326-327 *)
| ChooseWeighted (radio_value : string)   (** lines 349-350 *)
| SubmitCreate                            (** line 317 *)
| ChooseFile (files : list string)        (** line 387 *)
| ClickUpload                             (** line 394 *)
| ChooseInsertMode (radio_value : string) (** lines 412-413 *)
| TypeText (f : text_field) (text : string)
| Click (b : button).

Definition mode_is (s : App) (m : string) : bool :=
  match st s "insertMode" with Str x => String.eqb x m | _ => false end.

(** Which inputs are rendered: the batch box in batch mode (line 430),
    the single-insert boxes in single mode (line 465), the weight box
    only for a weighted graph (line 520). *)
Definition field_shown (s : App) (f : text_field) : bool :=
  match f with
  | FBatchData => mode_is s "batch"
  | FNewVertex | FStartVertex | FEndVertex => mode_is s "single"
  | FWeight => mode_is s "single" && truthy (st s "weighted")
  | _ => true
  end.

Definition button_shown (s : App) (b : button) : bool :=
  match b with
  | BBatchInsert => mode_is s "batch"
  | BAddVertex | BAddEdge => mode_is s "single"
  | _ => true
  end.


Section WithBackend.
Context `{B : Backend}.

Record world := mkWorld {
  app : App;
  server : backend_state;
  effects : list effect;
  crashed : bool  (** an exception escaped into rendering: the page is gone *)
}.

Definition set (k : string) (v : value) (w : world) : world :=
  mkWorld (<[k := v]> (app w)) (server w) (effects w) (crashed w).

Definition emit (e : effect) (w : world) : world :=
  mkWorld (app w) (server w) (effects w ++ [e]) (crashed w).

(** [setK(prev => [...prev, x])]: the updater runs while React renders;
    when [prev] is not iterable its TypeError unmounts the page. *)
Definition push (k : string) (x : value) (w : world) : world :=
  match items (st (app w) k) with
  | Some xs => set k (Arr (xs ++ [x])) w
  | None => mkWorld (app w) (server w) (effects w ++ [Uncaught "TypeError: prev is not iterable"]) true
  end.

(** [await axios(...)]: the backend answers the request. *)
Definition call (rq : request) (w : world) : world * result string value :=
  let '(b', o) := serve (server w) rq in
  (mkWorld (app w) b' (effects w) (crashed w), axios o).

(** A handler that makes one request: the request is built from the
    state its closure captured at the click, and after [await] the rest
    of the handler runs on the answer, with that captured state, against
    the page as it is then. *)
Definition send (rq : App -> request) (k : App -> result string value -> world -> world)
    (w : world) : world :=
  let '(w', r) := call (rq (app w)) w in k (app w) r w'.

(** ** Handlers *)

Definition graph_info_request : request :=
  mkRequest GET (base_url ++ "/get_graph_info")%string None.

(** The part of [fetchGraphInfo] (lines 263-270) after the answer. *)
Definition fetchGraphInfo_done (r : result string value) (w : world) : world :=
  match r with
  | Ok data =>
      if nullish data
      then emit (ConsoleError "Erro ao obter informações do grafo:" (read_error data "order")) w
      else set "graphInfo" (Obj [("order", get_field data "order"); ("size", get_field data "size")]) w
  | Err m => emit (ConsoleError "Erro ao obter informações do grafo:" m) w
  end.

(** [fetchGraphInfo], lines 263-270. *)
Definition fetchGraphInfo (w : world) : world :=
  let '(w, r) := call graph_info_request w in fetchGraphInfo_done r w.

(** [handleCheckEulerian], lines 60-67. *)
Definition eulerian_request (s : App) : request :=
  mkRequest GET (base_url ++ "/check_eulerian")%string None.

Definition eulerian_answer (s : App) (r : result string value) (w : world) : world :=
  match r with
  | Ok data =>
      if nullish data
      then emit (ConsoleError "Erro ao verificar se o grafo é Euleriano:" (read_error data "result")) w
      else set "eulerianResult" (get_field data "result") w
  | Err m => emit (ConsoleError "Erro ao verificar se o grafo é Euleriano:" m) w
  end.

Definition handleCheckEulerian : world -> world := send eulerian_request eulerian_answer.

(** [handleVerifyAdjacency], lines 69-79: the labels are pasted into the
    query string as they are. *)
Definition verify_request (s : App) : request :=
  mkRequest GET (base_url ++ "/verify_adj?vertex1=" ++ to_string (st s "vertex1") ++
                 "&vertex2=" ++ to_string (st s "vertex2"))%string None.

Definition verify_answer (s : App) (r : result string value) (w : world) : world :=
  match r with
  | Ok data =>
      if nullish data
      then emit (ConsoleError "Erro ao verificar adjacência entre vértices:" (read_error data "result")) w
      else set "adjResult" (get_field data "result") (emit (ConsoleLog (get_field data "result")) w)
  | Err m => emit (ConsoleError "Erro ao verificar adjacência entre vértices:" m) w
  end.

Definition handleVerifyAdjacency : world -> world := send verify_request verify_answer.

(** A handler whose rest, after its answer, may call [fetchGraphInfo()]
    without awaiting it: [k] returns the page and whether it made that
    call.  The refresh is served and applied after the rest has run (the
    alert of [handleBatchInsert] comes before the graph info). *)
Definition send_refresh (rq : App -> request)
    (k : App -> result string value -> world -> world * bool) (w : world) : world :=
  let '(w', r) := call (rq (app w)) w in
  let '(w'', refresh) := k (app w) r w' in
  if refresh then fetchGraphInfo w'' else w''.

(** [handleBatchInsert], lines 81-117: parse [batchData], post the Set's
    elements and the edges, adopt the answer's lists, ask for the graph
    info (not awaited: the alert comes before its answer is applied). *)
Definition batch_request (s : App) : request :=
  let '(vs, es) := parse_lines (to_string (st s "batchData")) ([], []) in
  let body := Obj [("vertices", Arr vs); ("edges", Arr es)] in
  mkRequest POST (base_url ++ "/insert_batch_items")%string (to_json body).

Definition batch_answer (s : App) (r : result string value) (w : world) : world * bool :=
  match r with
  | Ok data =>
      let w := emit (ConsoleLog data) w in
      if nullish data
      then (emit (ConsoleError "Error inserting items in batch:" (read_error data "vertices")) w, false)
      else
        let w := set "edges" (js_or (get_field data "edges") (Arr []))
                   (set "vertices" (js_or (get_field data "vertices") (Arr [])) w) in
        (emit (Alert "Data inserted in batch successfully.") w, true)
  | Err m => (emit (ConsoleError "Error inserting items in batch:" m) w, false)
  end.

Definition handleBatchInsert : world -> world := send_refresh batch_request batch_answer.

(** [handleGraphCreation], lines 119-133: post the two mode flags, clear
    the client's lists, refresh the graph info. *)
Definition create_request (s : App) : request :=
  let body := Obj [("directed", st s "directed"); ("weighted", st s "weighted")] in
  mkRequest POST (base_url ++ "/create_graph")%string (to_json body).

Definition create_answer (s : App) (r : result string value) (w : world) : world * bool :=
  match r with
  | Ok data =>
      if nullish data
      then (emit (ConsoleError "Erro ao criar grafo:" (read_error data "message")) w, false)
      else
        let w := emit (ConsoleLog (get_field data "message")) w in
        (set "edges" (Arr []) (set "vertices" (Arr []) w), true)
  | Err m => (emit (ConsoleError "Erro ao criar grafo:" m) w, false)
  end.

Definition handleGraphCreation : world -> world := send_refresh create_request create_answer.

(** [handleFileChange], lines 135-137: the first chosen file, or
    [undefined] when the choice was cancelled. *)
Definition handleFileChange (files : list string) (w : world) : world :=
  set "selectedFile" (match files with c :: _ => file_object c | [] => Undefined end) w.

(** What [new Set(x)] iterates: nothing for [null] or [undefined], the
    items of an iterable, a TypeError ([None]) otherwise.  Spreading
    ([[...x]]) has no such exception: [items]. *)
Definition set_items (v : value) : option (list value) := if nullish v then Some [] else items v.

(** [reader.onload] of [handleFileUpload], lines 150-187: read the
    file's lines into copies of the lists the click's closure captured
    ([s]), show them, and post them; [None] when no request is made
    ([new Set(vertices)] throws on a list that is not iterable; React
    does not catch an exception of [onload]). *)
Definition upload_onload (s : App) (w : world) : world * option request :=
  match set_items (st s "vertices"), items (st s "edges") with
  | Some vs0, Some es0 =>
      let '(vs, es) := parse_lines (file_text (st s "selectedFile")) (set_of_list vs0, es0) in
      let w := set "edges" (Arr es) (set "vertices" (Arr vs) w) in
      let body := Obj [("vertices", Arr vs); ("edges", Arr es)] in
      (w, Some (mkRequest POST (base_url ++ "/insert_batch_items")%string (to_json body)))
  | _, _ => (emit (Uncaught "TypeError: object is not iterable") w, None)
  end.

(** The rest of the [onload] after its [await]. *)
Definition upload_answer (s : App) (r : result string value) (w : world) : world :=
  match r with
  | Ok data =>
      let w := emit (ConsoleLog data) w in
      if nullish data
      then emit (ConsoleError "Erro ao inserir dados do arquivo:" (read_error data "vertices")) w
      else
        emit (Alert "Dados do arquivo inseridos com sucesso.")
          (set "edges" (js_or (get_field data "edges") (Arr []))
             (set "vertices" (js_or (get_field data "vertices") (Arr [])) w))
  | Err m => emit (ConsoleError "Erro ao inserir dados do arquivo:" m) w
  end.

(** [handleFileUpload], lines 139-190, with the file read at once (the
    sequential model; [Async] lets the read finish later). *)
Definition handleFileUpload (w : world) : world :=
  if negb (truthy (st (app w) "selectedFile"))
  then emit (Alert "Por favor, selecione um arquivo primeiro.") w
  else
    match upload_onload (app w) w with
    | (w', Some rq) => send (fun _ => rq) upload_answer w'
    | (w', None) => w'
    end.

(** [handleAddVertex], lines 191-202: post the label, then append it to
    the client's vertex list whatever the answer says. *)
Definition add_vertex_request (s : App) : request :=
  mkRequest POST (base_url ++ "/add_vertex")%string (to_json (Obj [("vertex", st s "newVertex")])).

Definition add_vertex_answer (s : App) (r : result string value) (w : world) : world :=
  let nv := st s "newVertex" in
  match r with
  | Ok data =>
      let w := set "newVertex" (Str "") (push "vertices" nv w) in
      if nullish data
      then emit (ConsoleError "Erro ao adicionar vértice:" (read_error data "message")) w
      else emit (ConsoleLog (get_field data "message")) w
  | Err m => emit (ConsoleError "Erro ao adicionar vértice:" m) w
  end.

Definition handleAddVertex : world -> world := send add_vertex_request add_vertex_answer.

(** The weight [handleAddEdge] sends and stores (lines 209 and 213). *)
Definition edge_weight (s : App) : value :=
  if truthy (st s "weighted") then Num (parseFloat (to_string (st s "weight"))) else Undefined.

(** [handleAddEdge], lines 204-222: post the endpoints and the weight,
    append the edge to the client's edge list, clear the inputs. *)
Definition add_edge_request (s : App) : request :=
  let body := Obj [("startVertex", st s "startVertex"); ("endVertex", st s "endVertex");
                   ("weight", edge_weight s)] in
  mkRequest POST (base_url ++ "/add_edge")%string (to_json body).

Definition add_edge_answer (s : App) (r : result string value) (w : world) : world :=
  let sv := st s "startVertex" in
  let ev := st s "endVertex" in
  match r with
  | Ok data =>
      let w := set "weight" (Str "") (set "endVertex" (Str "") (set "startVertex" (Str "")
                 (push "edges" (Arr [sv; ev; edge_weight s]) w))) in
      if nullish data
      then emit (ConsoleError "Erro ao adicionar aresta:" (read_error data "message")) w
      else emit (ConsoleLog (get_field data "message")) w
  | Err m => emit (ConsoleError "Erro ao adicionar aresta:" m) w
  end.

Definition handleAddEdge : world -> world := send add_edge_request add_edge_answer.

Definition adjacency_error_text : string :=
  "Erro ao verificar adjacência. Verifique se o vértice existe.".

(** [handleCheckAdjacency], lines 224-236. *)
Definition adjacency_request (s : App) : request :=
  mkRequest GET (base_url ++ "/adjacency?vertex=" ++ to_string (st s "adjVertex"))%string None.

Definition adjacency_answer (s : App) (r : result string value) (w : world) : world :=
  let fail m w := set "adjVertices" (Arr []) (set "error" (Str adjacency_error_text)
                    (emit (ConsoleError "Erro ao verificar adjacência:" m) w)) in
  match r with
  | Ok data =>
      if nullish data then fail (read_error data "neighbors") w
      else set "error" Null (set "adjVertices" (js_or (get_field data "neighbors") (Arr [])) w)
  | Err m => fail m w
  end.

Definition handleCheckAdjacency : world -> world := send adjacency_request adjacency_answer.

(** [handleCheckDegree], lines 238-249: on failure the error text is set
    and the previous degree message is left as it was. *)
Definition degree_request (s : App) : request :=
  mkRequest GET (base_url ++ "/degree?vertex=" ++ to_string (st s "degreeVertex"))%string None.

Definition degree_answer (s : App) (r : result string value) (w : world) : world :=
  let fail m w := set "error" (Str ("Erro ao verificar grau: " ++ m)%string)
                    (emit (ConsoleError "Erro ao verificar grau:" m) w) in
  match r with
  | Ok data =>
      if nullish data then fail (read_error data "message") w
      else set "error" (Str "") (set "degreeMessage" (get_field data "message") w)
  | Err m => fail m w
  end.

Definition handleCheckDegree : world -> world := send degree_request degree_answer.

(** [handleFindShortestPath], lines 251-261: on failure the previous path
    and length stay on screen. *)
Definition path_request (s : App) : request :=
  mkRequest GET (base_url ++ "/shortest_path?vertex_start=" ++ to_string (st s "pathStart") ++
                 "&vertex_end=" ++ to_string (st s "pathEnd"))%string None.

Definition path_answer (s : App) (r : result string value) (w : world) : world :=
  match r with
  | Ok data =>
      if nullish data
      then emit (ConsoleError "Erro ao encontrar o caminho mais curto:" (read_error data "path")) w
      else set "shortestPathLength" (get_field data "length") (set "shortestPath" (get_field data "path") w)
  | Err m => emit (ConsoleError "Erro ao encontrar o caminho mais curto:" m) w
  end.

Definition handleFindShortestPath : world -> world := send path_request path_answer.

(** The first render: [useEffect(() => fetchGraphInfo(), [])], lines
    272-274, from the initial state. *)
Definition mount (b : backend_state) : world :=
  fetchGraphInfo (mkWorld initial_state b [] false).

(** ** Event dispatch *)

(** The [onClick] handler of each button. *)
Definition click_handler (b : button) : world -> world :=
  match b with
  | BBatchInsert => handleBatchInsert
  | BAddVertex => handleAddVertex
  | BAddEdge => handleAddEdge
  | BVerifyAdjacency => handleVerifyAdjacency
  | BCheckAdjacency => handleCheckAdjacency
  | BCheckDegree => handleCheckDegree
  | BFindShortestPath => handleFindShortestPath
  | BCheckEulerian => handleCheckEulerian
  | BGraphInfo => fetchGraphInfo
  end.

(** The page's event wiring, lines 305-763: each rendered control runs
    its handler; a control that is not rendered cannot be used. *)
Definition on_event (ev : event) (w : world) : world :=
  let s := app w in
  match ev with
  | ChooseDirected v => set "directed" (Bool (String.eqb v "yes")) w
  | ChooseWeighted v => set "weighted" (Bool (String.eqb v "yes")) w
  | SubmitCreate => handleGraphCreation w
  | ChooseFile files => handleFileChange files w
  | ClickUpload => handleFileUpload w
  | ChooseInsertMode v => set "insertMode" (Str v) w
  | TypeText f t => if field_shown s f then set (field_hook f) (Str t) w else w
  | Click b =>
      if negb (button_shown s b) then w else click_handler b w
  end.

(** Once the page has crashed nothing can be used. *)
Definition dispatch (ev : event) (w : world) : world :=
  if crashed w then w else on_event ev w.

Definition run_events (evs : list event) (w : world) : world :=
  fold_left (fun w ev => dispatch ev w) evs w.

End WithBackend.

(** Shapes of the items the batch parser produces. *)
Definition str_value (v : value) : Prop := exists s, v = Str s.
Definition edge_value (v : value) : Prop :=
  exists a b, v = Arr [Str a; Str b] \/ exists n, v = Arr [Str a; Str b; Num n].

(** ** State access *)

Lemma st_insert_eq (s : App) k v : st (<[k := v]> s) k = v.
Proof. unfold st. by rewrite lookup_insert_eq. Qed.

Lemma st_insert_ne (s : App) k k' v : k <> k' -> st (<[k := v]> s) k' = st s k'.
Proof. intros H. unfold st. by rewrite lookup_insert_ne. Qed.

Section Dispatch.
Context `{B : Backend}.

(** Writing a hook twice keeps the last value; writes to distinct hooks
    commute, and commute with the effect log; writing back the value a
    hook holds changes nothing. *)
Lemma set_set k v v' (w : world) : set k v (set k v' w) = set k v w.
Proof. unfold set. cbn. by rewrite insert_insert_eq. Qed.

Lemma set_comm k k' v v' (w : world) : k <> k' -> set k v (set k' v' w) = set k' v' (set k v w).
Proof. intros H. unfold set. cbn. by rewrite insert_insert_ne. Qed.

Lemma set_emit k v e (w : world) : set k v (emit e w) = emit e (set k v w).
Proof. reflexivity. Qed.

Lemma set_st k v (w : world) : st (app w) k = v -> v <> Undefined -> set k v w = w.
Proof.
  intros Hk Hv. destruct w as [s b e c]. unfold set, st in *. cbn in *. f_equal.
  destruct (s !! k) eqn:E; cbn in Hk; [subst; by apply insert_id|done].
Qed.


Lemma dispatch_live (w : world) ev :
  crashed w = false -> dispatch ev w = on_event ev w.
Proof. intros Hc. unfold dispatch. by rewrite Hc. Qed.

Lemma dispatch_type (w : world) f t :
  crashed w = false -> field_shown (app w) f = true ->
  dispatch (TypeText f t) w = set (field_hook f) (Str t) w.
Proof. intros Hc Hf. unfold dispatch, on_event. by rewrite Hc, Hf. Qed.

Lemma dispatch_click (w : world) b :
  crashed w = false -> button_shown (app w) b = true ->
  dispatch (Click b) w = click_handler b w.
Proof. intros Hc Hb. unfold dispatch, on_event. by rewrite Hc, Hb. Qed.

Lemma run_events_app evs1 evs2 (w : world) :
  run_events (evs1 ++ evs2) w = run_events evs2 (run_events evs1 w).
Proof. unfold run_events. by rewrite fold_left_app. Qed.

Lemma run_events_cons ev evs (w : world) :
  run_events (ev :: evs) w = run_events evs (dispatch ev w).
Proof. reflexivity. Qed.

End Dispatch.

Create Rewrite HintDb client_rw.
#[export] Hint Rewrite st_insert_eq : client_rw.
#[export] Hint Rewrite st_insert_ne using discriminate : client_rw.


(** ** The parser's output *)

Lemma set_add_Forall (P : value -> Prop) x s : P x -> Forall P s -> Forall P (set_add x s).
Proof.
  intros Hx Hs. unfold set_add. destruct (existsb _ _); [done|].
  apply Forall_app. split; [done|]. by constructor.
Qed.

Lemma batch_line_shape acc line :
  Forall str_value (fst acc) -> Forall edge_value (snd acc) ->
  Forall str_value (fst (batch_line acc line)) /\ Forall edge_value (snd (batch_line acc line)).
Proof.
  intros Hv He. unfold batch_line.
  case_match; [|done]. cbn zeta.
  assert (Hs : Forall str_value (set_add (Str (nth 1 (split " " (trim line)) ""))
                 (set_add (Str (nth 0 (split " " (trim line)) "")) (fst acc)))).
  { apply set_add_Forall; [eexists; done|]. apply set_add_Forall; [eexists; done|done]. }
  destruct (_ =? 3); simpl; split; try done; apply Forall_app; split; try done;
    apply Forall_singleton; do 2 eexists; eauto.
Qed.

Lemma parse_lines_shape text acc :
  Forall str_value (fst acc) -> Forall edge_value (snd acc) ->
  Forall str_value (fst (parse_lines text acc)) /\ Forall edge_value (snd (parse_lines text acc)).
Proof.
  unfold parse_lines. generalize (split newline text) as ls.
  intros ls. revert acc. induction ls as [|l ls IH]; intros acc Hv He; simpl; [done|].
  destruct (batch_line_shape acc l Hv He). by apply IH.
Qed.

(** The edges a parse appends do not depend on the vertex Set or on the
    edges already there. *)
Lemma batch_line_edges a a' es0 l :
  snd (batch_line (a, es0) l) = es0 ++ snd (batch_line (a', []) l).
Proof.
  unfold batch_line. case_match; [|by rewrite app_nil_r].
  by destruct (_ =? 3).
Qed.

Lemma parse_lines_edges t a a' es0 :
  snd (parse_lines t (a, es0)) = es0 ++ snd (parse_lines t (a', [])).
Proof.
  unfold parse_lines. generalize (split newline t) as ls. intros ls.
  revert a a' es0. induction ls as [|l ls IH]; intros a a' es0; simpl; [by rewrite app_nil_r|].
  destruct (batch_line (a, es0) l) as [a1 e1] eqn:H1.
  destruct (batch_line (a', []) l) as [a2 e2] eqn:H2.
  pose proof (batch_line_edges a a' es0 l) as He. rewrite H1, H2 in He. simpl in He. subst e1.
  rewrite (IH a1 a2 (es0 ++ e2)), (IH a2 a2 e2). by rewrite app_assoc.
Qed.

Lemma set_of_list_Forall (P : value -> Prop) xs : Forall P xs -> Forall P (set_of_list xs).
Proof.
  unfold set_of_list. intros Hxs.
  cut (forall acc, Forall P acc -> Forall P (fold_left (fun acc x => set_add x acc) xs acc));
    [intros H; apply H; constructor|].
  induction Hxs as [|x xs Hx Hxs IH]; intros acc Hacc; simpl; [done|].
  apply IH. by apply set_add_Forall.
Qed.

End Client.
