(* ===== verification/View.v ===== *)
(** What the page shows (module [View]), from [App.js].

    The [graph] value of lines 276-284, handed to vis-network: one node
    per entry of the vertex list (its index is its id), one edge per entry
    of the edge list, its ends found with [vertices.indexOf] (so [-1] for
    a label the list lacks), an arrow for a directed graph, the weight as
    label when it is truthy.  The result panels of lines 582-796: each is
    shown under its JSX condition, and its text is what React renders
    for the child expression ([render_child]): strings as they are,
    numbers by [Number::toString], [null], [undefined] and booleans as
    nothing, arrays as the concatenation of their elements, objects not
    at all (React throws).  [show_if] is [x !== null && ...]; [show_and]
    is [x && ...], which renders [x] itself when [x] is falsy, so a
    number 0 appears as the text "0".  The lists ([adjVertices],
    [vertices], [edges]) render one line per element through [.map],
    which throws on anything but an array.  [view_okb] is the condition
    on the rendered hooks under which none of the ten [panels] throws
    ([view_okb_panels]).  Layout and styling are not modelled. *)

From Stdlib Require Import QArith String ZArith.
From stdpp Require Import base list strings decidable.
From S2P Require Import Prelude JsValue Client.

Module View.
Import Js Client.

(** ** Rendering *)

(** What React renders for [{v}]; [None] when it throws. *)
Fixpoint render_child (v : value) : option string :=
  match v with
  | Undefined | Null | Bool _ => Some ""
  | Num n => Some (number_to_string n)
  | Str s => Some s
  | Arr xs =>
      (fix go (l : list value) : option string :=
         match l with
         | [] => Some ""
         | x :: l' =>
             match render_child x, go l' with
             | Some a, Some b => Some (a ++ b)%string
             | _, _ => None
             end
         end) xs
  | Obj _ => None
  end.

(** A panel: not rendered, rendered with its lines of text, or a render
    that throws. *)
Inductive shown := Hidden | Shown (lines : list string) | Throws.

Definition show_if (cond : bool) (v : value) : shown :=
  if cond then match render_child v with Some t => Shown [t] | None => Throws end
  else Hidden.

(** [{x && (<...>{x}</...>)}]: a truthy [x] renders the element with
    [x] as its child; a falsy [x] is itself the child React renders, so
    [0] and [NaN] show as text and [""], [false], [null], [undefined]
    show nothing. *)
Definition show_and (v : value) : shown :=
  if truthy v then match render_child v with Some t => Shown [t] | None => Throws end
  else match v with Num n => Shown [number_to_string n] | _ => Hidden end.

(** [x !== null]. *)
Definition not_null (v : value) : bool := match v with Null => false | _ => true end.

(** [xs.map(x => <ListItem>...)]: one line per element. *)
Definition map_panel (v : value) (line : value -> option string) : shown :=
  match v with
  | Arr xs => match all_some (map line xs) with Some ls => Shown ls | None => Throws end
  | _ => Throws
  end.

(** ** The result panels *)

(** Lines 582-586: the adjacency answer. *)
Definition adj_result_panel (s : App) : shown :=
  show_if (not_null (st s "adjResult")) (st s "adjResult").

(** Lines 616-620: the neighbour list. *)
Definition adj_list_panel (s : App) : shown := map_panel (st s "adjVertices") render_child.

(** Lines 650-656: the degree message. *)
Definition degree_panel (s : App) : shown := show_and (st s "degreeMessage").

(** Lines 657-663: the error text (shared by the adjacency and degree
    queries). *)
Definition error_panel (s : App) : shown := show_and (st s "error").

(** Lines 703-708: the shortest path. *)
Definition path_panel (s : App) : shown := show_and (st s "shortestPath").

(** Lines 709-716: its length. *)
Definition path_length_panel (s : App) : shown :=
  show_if (not_null (st s "shortestPathLength")) (st s "shortestPathLength").

(** Lines 736-740: the Eulerian answer. *)
Definition eulerian_panel (s : App) : shown :=
  show_if (not_null (st s "eulerianResult")) (st s "eulerianResult").

(** Lines 752-761: order and size; [graphInfo.order] throws when
    [graphInfo] is [undefined]. *)
Definition graph_info_panel (s : App) : shown :=
  let gi := st s "graphInfo" in
  if not_null gi then
    match gi with
    | Undefined => Throws
    | _ =>
        match render_child (get_field gi "order"), render_child (get_field gi "size") with
        | Some o, Some z => Shown [("Ordem do Grafo: " ++ o)%string; ("Tamanho do Grafo: " ++ z)%string]
        | _, _ => Throws
        end
    end
  else Hidden.

(** Lines 773-777: the vertex list. *)
Definition vertex_list_panel (s : App) : shown := map_panel (st s "vertices") render_child.

(** Lines 791-793: the text of one edge,
    [`${edge[0]} - ${edge[1]} ${edge[2] && `(weight: ${edge[2]})`}`]. *)
Definition edge_text (e : value) : string :=
  let w := get_index e 2 in
  (to_string (get_index e 0) ++ " - " ++ to_string (get_index e 1) ++ " " ++
   to_string (js_and w (Str ("(weight: " ++ to_string w ++ ")"))))%string.

(** Lines 788-796: the edge list. *)
Definition edge_list_panel (s : App) : shown :=
  map_panel (st s "edges") (fun e => Some (edge_text e)).

(** ** The vis-network data, lines 276-284 *)

Record vis_node := mkNode { node_id : nat; node_label : value }.

Record vis_edge := mkVisEdge {
  vfrom : Z;
  vto : Z;
  arrows : string;
  elabel : option string   (** [None]: [undefined] *)
}.

(** [===] on the values the lists hold. *)
Definition strict_eq (a b : value) : bool :=
  match a, b with
  | Num NaN, _ | _, Num NaN => false
  | _, _ => same_value_zero a b
  end.

(** [xs.indexOf(x)]: the first position, or [-1]. *)
Fixpoint index_of (x : value) (xs : list value) : Z :=
  match xs with
  | [] => (-1)%Z
  | y :: xs' => if strict_eq x y then 0%Z else
                let i := index_of x xs' in if (i <? 0)%Z then i else (i + 1)%Z
  end.

Definition vis_edge_of (s : App) (vs : list value) (e : value) : vis_edge :=
  mkVisEdge (index_of (get_index e 0) vs) (index_of (get_index e 1) vs)
    (if truthy (st s "directed") then "to" else "")
    (if truthy (get_index e 2) then Some (to_string (get_index e 2)) else None).

(** The [graph] object; [None] when a [.map] throws. *)
Definition vis_graph (s : App) : option (list vis_node * list vis_edge) :=
  match st s "vertices", st s "edges" with
  | Arr vs, Arr es =>
      Some (imap (fun i v => mkNode i v) vs, map (vis_edge_of s vs) es)
  | _, _ => None
  end.

(** ** What can be rendered without an exception *)

(** [{v}] renders. *)
Definition renders_b (v : value) : bool :=
  match render_child v with Some _ => true | None => false end.

(** An array whose items render: the lists mapped to [<ListItem>]s. *)
Definition list_ok_b (v : value) : bool := match v with Arr _ => renders_b v | _ => false end.

Definition arr_b (v : value) : bool := match v with Arr _ => true | _ => false end.

(** [graphInfo]: [null], or an object whose order and size render. *)
Definition info_ok_b (v : value) : bool :=
  match v with
  | Null => true
  | Undefined => false
  | _ => renders_b (get_field v "order") && renders_b (get_field v "size")
  end.

(** The hooks rendered as a child ([newVertex] included: the label the
    add-vertex answer pushes onto the vertex list). *)
Definition rendered_hooks : list string :=
  ["adjResult"; "degreeMessage"; "error"; "shortestPath"; "shortestPathLength";
   "eulerianResult"; "newVertex"].

(** What each hook must hold for the page to render. *)
Definition hook_okb (k : string) (v : value) : bool :=
  if String.eqb k "adjVertices" || String.eqb k "vertices" then list_ok_b v
  else if String.eqb k "edges" then arr_b v
  else if String.eqb k "graphInfo" then info_ok_b v
  else if existsb (String.eqb k) rendered_hooks then renders_b v
  else true.

Definition view_keys : list string := ["adjVertices"; "vertices"; "edges"; "graphInfo"] ++ rendered_hooks.

(** The render invariant of the page. *)
Definition view_okb (s : App) : bool := forallb (fun k => hook_okb k (st s k)) view_keys.

(** The panels of the page, and whether one throws. *)
Definition panels (s : App) : list shown :=
  [adj_result_panel s; adj_list_panel s; degree_panel s; error_panel s; path_panel s;
   path_length_panel s; eulerian_panel s; graph_info_panel s; vertex_list_panel s; edge_list_panel s].

Definition no_throw (p : shown) : bool := match p with Throws => false | _ => true end.

(** ** Lemmas *)

Lemma strict_eq_str x y : strict_eq (Str x) (Str y) = String.eqb x y.
Proof. reflexivity. Qed.

Lemma index_of_notin x vs : x ∉ vs -> index_of (Str x) (map Str vs) = (-1)%Z.
Proof.
  induction vs as [|y vs IH]; intros Hx; [done|]. rewrite elem_of_cons in Hx. cbn [map index_of].
  rewrite strict_eq_str. destruct (String.eqb_spec x y) as [->|]; [tauto|]. rewrite IH; [done|tauto].
Qed.

Lemma index_of_in x vs : x ∈ vs -> (0 <= index_of (Str x) (map Str vs) < Z.of_nat (length vs))%Z.
Proof.
  induction vs as [|y vs IH]; intros Hx; [by apply elem_of_nil in Hx|].
  cbn [map index_of length]. rewrite strict_eq_str.
  destruct (String.eqb_spec x y) as [->|Hne]; [lia|].
  apply elem_of_cons in Hx as [->|Hx]; [done|]. specialize (IH Hx).
  destruct (Z.ltb_spec (index_of (Str x) (map Str vs)) 0); lia.
Qed.

(** An array renders when each of its items does. *)
Lemma renders_arr xs : renders_b (Arr xs) = forallb renders_b xs.
Proof.
  unfold renders_b. induction xs as [|x xs IH]; [done|]. cbn [render_child forallb] in *.
  destruct (render_child x); cbn; [|done].
  by destruct ((fix go (l : list value) : option string := _) xs).
Qed.

Lemma map_panel_render xs : renders_b (Arr xs) = true -> no_throw (map_panel (Arr xs) render_child) = true.
Proof.
  unfold map_panel, renders_b. cbn [render_child]. intros H.
  assert (E : forall l, (fix go (l : list value) : option string :=
                          match l with
                          | [] => Some ""
                          | x :: l' => match render_child x, go l' with
                                       | Some a, Some b => Some (a ++ b)%string
                                       | _, _ => None
                                       end
                          end) l <> None -> all_some (map render_child l) <> None).
  { induction l as [|x l IH]; [done|]. cbn. destruct (render_child x); [|done].
    destruct (_ l); [|done]. intros _. unfold all_some in IH. cbn in IH.
    destruct (fold_right _ _ _); [done|]. by destruct IH. }
  destruct (all_some (map render_child xs)) eqn:A; [done|]. exfalso.
  apply (E xs); [by destruct (_ xs)|done].
Qed.

Lemma show_if_render c v : renders_b v = true -> no_throw (show_if c v) = true.
Proof. unfold show_if, renders_b. destruct c, (render_child v); done. Qed.

Lemma show_and_render v : renders_b v = true -> no_throw (show_and v) = true.
Proof. unfold show_and, renders_b. destruct (truthy v), (render_child v); try done. by destruct v. Qed.

Lemma view_okb_insert (s : App) k v :
  hook_okb k v = true -> view_okb s = true -> view_okb (<[k := v]> s) = true.
Proof.
  unfold view_okb. rewrite !forallb_forall. intros Hk Hs k' Hk'.
  destruct (decide (k = k')) as [<-|Hne]; [by rewrite st_insert_eq|].
  rewrite st_insert_ne by done. by apply Hs.
Qed.

Lemma view_okb_insert_other (s : App) k v :
  k ∉ view_keys -> view_okb (<[k := v]> s) = view_okb s.
Proof.
  intros Hk. unfold view_okb.
  assert (H : forall l, (forall k', In k' l -> k <> k') ->
    forallb (fun k' => hook_okb k' (st (<[k := v]> s) k')) l = forallb (fun k' => hook_okb k' (st s k')) l).
  { induction l as [|x l IH]; intros Hl; [done|]. cbn.
    rewrite st_insert_ne by (apply Hl; by left). rewrite IH; [done|]. intros k' Hk'. apply Hl. by right. }
  apply H. intros k' Hk' ->. by apply Hk, list_elem_of_In.
Qed.

(** The render invariant: no panel throws. *)
Lemma view_okb_panels s : view_okb s = true -> forallb no_throw (panels s) = true.
Proof.
  unfold view_okb. cbn [forallb view_keys rendered_hooks app]. unfold hook_okb. cbn -[st].
  rewrite !andb_true_iff. intros (H1 & H2 & H3 & H4 & H5 & H6 & H7 & H8 & H9 & H10 & H11 & _).
  cbn [panels forallb]. unfold adj_result_panel, adj_list_panel, degree_panel, error_panel,
    path_panel, path_length_panel, eulerian_panel, graph_info_panel, vertex_list_panel, edge_list_panel.
  rewrite show_if_render, !show_and_render, !show_if_render by done.
  destruct (st s "adjVertices"); try done. rewrite map_panel_render by done.
  destruct (st s "vertices"); try done. rewrite map_panel_render by done.
  destruct (st s "edges") as [| | | | |ys|]; try done. unfold map_panel.
  rewrite all_some_map_Some. cbn.
  unfold info_ok_b in H4. destruct (st s "graphInfo"); try done; cbn [not_null];
    apply andb_true_iff in H4 as [Ho Hz]; unfold renders_b in Ho, Hz;
    by destruct (render_child _), (render_child _).
Qed.

End View.
