(* ===== verification/Parser.v ===== *)
(** The batch text format of the page (module [Parser]).

    [Client.parse_lines] is the loop of [handleBatchInsert] and
    [handleFileUpload]: split the text on newlines, trim each line, split
    it on single spaces, keep the lines of two or three parts as edges,
    and add both endpoints to a JavaScript [Set].  The theorems here say
    what that loop computes: the Set, kept with SameValueZero on strings,
    is the duplicate-free list of endpoints in first-occurrence order
    (the engine's [dedup], [parse_lines_dedup]), and text written one
    "a b" line per edge parses back to exactly those edges
    ([batch_text_roundtrip]), and the lines of other shapes are ignored
    or, with a doubled space, read with an empty label
    ([batch_line_malformed]). *)

From Stdlib Require Import QArith String Ascii.
From stdpp Require Import base list strings decidable.
From S2P Require Import Prelude JsValue Client.

Module Parser.
Import Js Client.

(** The value the loop pushes for an edge [(a, b, w)]. *)
Definition edge_item (e : string * string * option number) : value :=
  let '(a, b, w) := e in
  Arr ([Str a; Str b] ++ match w with Some n => [Num n] | None => [] end).

Definition edge_ends (e : string * string * option number) : list string :=
  let '(a, b, _) := e in [a; b].

(** A label the format can carry: not empty, no white space. *)
Definition label_ok (a : string) : Prop :=
  a <> EmptyString /\ forallb (fun c => negb (is_space c)) (list_ascii_of_string a) = true.

(** ** The Set of labels *)

Lemma same_value_zero_str x y : same_value_zero (Str x) (Str y) = String.eqb x y.
Proof. reflexivity. Qed.

Lemma set_add_str x l : set_add (Str x) (map Str l) = map Str (add_unique x l).
Proof.
  unfold set_add, add_unique.
  assert (existsb (same_value_zero (Str x)) (map Str l) = bool_decide (x ∈ l)) as ->.
  { induction l as [|y l IH]; [done|]. cbn [map existsb]. rewrite same_value_zero_str, IH.
    apply eq_iff_eq_true. rewrite orb_true_iff, String.eqb_eq, !bool_decide_eq_true, elem_of_cons.
    naive_solver. }
  case_bool_decide; case_decide; try done; by rewrite map_app.
Qed.

(** One line of the loop: it appends at most one edge, and the Set stays
    the deduplicated endpoint list. *)
Lemma batch_line_dedup D es0 line :
  exists new, length new <= 1 /\
    batch_line (map Str (dedup D), map edge_item es0) line =
    (map Str (dedup (D ++ List.flat_map edge_ends new)), map edge_item (es0 ++ new)).
Proof.
  unfold batch_line. cbn [fst snd].
  case_match.
  - set (a := nth 0 _ _). set (b := nth 1 _ _). rewrite !set_add_str.
    destruct (_ =? 3).
    + exists [(a, b, Some (parseFloat (nth 2 (split " " (trim line)) "")))].
      split; [cbn; lia|]. rewrite map_app. cbn. unfold dedup. by rewrite fold_add_unique_app.
    + exists [(a, b, None)]. split; [cbn; lia|]. rewrite map_app. cbn. unfold dedup.
      by rewrite fold_add_unique_app.
  - exists []. split; [cbn; lia|]. by rewrite !app_nil_r.
Qed.

Lemma fold_batch_line_dedup D es0 ls :
  exists new,
    fold_left batch_line ls (map Str (dedup D), map edge_item es0) =
    (map Str (dedup (D ++ List.flat_map edge_ends new)), map edge_item (es0 ++ new)).
Proof.
  revert D es0. induction ls as [|l ls IH]; intros D es0.
  { exists []. by rewrite !app_nil_r. }
  cbn [fold_left]. destruct (batch_line_dedup D es0 l) as (n1 & _ & ->).
  destruct (IH (D ++ List.flat_map edge_ends n1) (es0 ++ n1)) as (n2 & ->).
  exists (n1 ++ n2). by rewrite List.flat_map_app, !app_assoc.
Qed.

(** ** Trimming and splitting a line *)

Lemma list_ascii_app a b :
  list_ascii_of_string (a ++ b) = list_ascii_of_string a ++ list_ascii_of_string b.
Proof. induction a as [|x a IH]; [done|]. rewrite string_app_cons. cbn. by rewrite IH. Qed.

(** [trim] leaves a string whose first and last characters are not white
    space unchanged. *)
Lemma trim_keep s :
  (forall c r, list_ascii_of_string s = c :: r -> is_space c = false) ->
  (forall c r, rev (list_ascii_of_string s) = c :: r -> is_space c = false) ->
  trim s = s.
Proof.
  intros H1 H2. unfold trim, trim_end, rev_string.
  assert (trim_start s = s) as ->.
  { destruct s as [|c r]; [done|]. cbn. by rewrite (H1 c (list_ascii_of_string r) eq_refl). }
  destruct (rev (list_ascii_of_string s)) as [|c r] eqn:E.
  - apply (f_equal (@rev _)) in E. rewrite rev_involutive in E. cbn in E.
    rewrite <- (string_of_list_ascii_of_string s), E. reflexivity.
  - cbn [string_of_list_ascii trim_start]. rewrite (H2 c r eq_refl).
    change (String c (string_of_list_ascii r)) with (string_of_list_ascii (c :: r)).
    rewrite <- E, list_ascii_of_string_of_list_ascii, rev_involutive.
    apply string_of_list_ascii_of_string.
Qed.

Lemma label_ok_chars a c : label_ok a -> c ∈ list_ascii_of_string a -> is_space c = false.
Proof.
  intros [_ Ha] Hc. apply forallb_forall with (x := c) in Ha; [|by apply list_elem_of_In].
  by apply negb_true_iff in Ha.
Qed.

Lemma label_ok_no_space a c : label_ok a -> is_space c = true -> has_char c a = false.
Proof.
  intros Ha Hc. unfold has_char. apply not_true_iff_false. intros Hx.
  apply existsb_exists in Hx as (x & Hin & Heq). apply Ascii.eqb_eq in Heq. subst x.
  rewrite (label_ok_chars a c Ha) in Hc; [done|]. by apply list_elem_of_In.
Qed.

(** The first character of a label, and the last, are not white space. *)
Lemma label_head a m c r : label_ok a -> list_ascii_of_string (a ++ m) = c :: r -> is_space c = false.
Proof.
  intros Ha. rewrite list_ascii_app. destruct a as [|x a]; [by destruct Ha|].
  cbn. intros [= -> _]. apply (label_ok_chars _ _ Ha). cbn. apply elem_of_cons. by left.
Qed.

Lemma label_tail m b c r : label_ok b -> rev (list_ascii_of_string (m ++ b)) = c :: r -> is_space c = false.
Proof.
  intros Hb. rewrite list_ascii_app, rev_app_distr.
  destruct (rev (list_ascii_of_string b)) as [|x l] eqn:E.
  - apply (f_equal (@rev _)) in E. rewrite rev_involutive in E. destruct b; [by destruct Hb|done].
  - intros [= -> _]. apply (label_ok_chars _ _ Hb). apply list_elem_of_In, in_rev.
    rewrite E. by left.
Qed.

(** [trim] keeps a text that starts and ends with a label. *)
Lemma trim_between a m b : label_ok a -> label_ok b -> trim (a ++ m ++ b) = (a ++ m ++ b)%string.
Proof.
  intros Ha Hb. apply trim_keep; intros c r.
  - by apply (label_head a).
  - rewrite <- string_app_assoc. by apply label_tail.
Qed.

Lemma trim_label a : label_ok a -> trim a = a.
Proof.
  intros Ha. apply trim_keep; intros c r; rewrite <- (append_empty_r a).
  - by apply (label_head a).
  - change (a ++ "")%string with ("" ++ a ++ "")%string. rewrite <- string_app_assoc, append_empty_r.
    by apply label_tail.
Qed.

Lemma line_trim a b : label_ok a -> label_ok b -> trim (a ++ String " " b) = (a ++ String " " b)%string.
Proof. exact (trim_between a " " b). Qed.

Lemma line_split a b : label_ok a -> label_ok b -> split " " (a ++ String " " b) = [a; b].
Proof.
  intros Ha Hb. rewrite split_sep by (by apply label_ok_no_space).
  rewrite split_nosep by (by apply label_ok_no_space). done.
Qed.

(** A label alone, two labels with two spaces between them, and two with
    three, as [split(" ")] cuts them. *)
Lemma split_label a : label_ok a -> split " " a = [a].
Proof. intros Ha. apply split_nosep. by apply label_ok_no_space. Qed.

Lemma split_two_spaces a b :
  label_ok a -> label_ok b -> split " " (a ++ String " " (String " " b)) = [a; EmptyString; b].
Proof.
  intros Ha Hb. rewrite split_sep by (by apply label_ok_no_space).
  cbn [split]. rewrite Ascii.eqb_refl, split_label by done. done.
Qed.

Lemma split_three_spaces a b :
  label_ok a -> label_ok b -> split " " (a ++ String " " (String " " (String " " b))) = [a; EmptyString; EmptyString; b].
Proof.
  intros Ha Hb. rewrite split_sep by (by apply label_ok_no_space).
  cbn [split]. rewrite Ascii.eqb_refl, split_label by done. done.
Qed.

Lemma split_lines (ls : list string) :
  ls <> [] -> Forall (fun l => has_char newline l = false) ls ->
  split newline (String.concat (String newline "") ls) = ls.
Proof.
  induction ls as [|x [|y ls] IH]; intros Hne Hf; [done| |].
  - cbn. apply split_nosep. by inversion Hf.
  - inversion Hf as [|? ? Hx Hf']. subst.
    change (String.concat (String newline "") (x :: y :: ls))
      with (x ++ (String newline "" ++ String.concat (String newline "") (y :: ls)))%string.
    rewrite string_app_cons, string_app_nil, split_sep by done. f_equal. by apply IH.
Qed.

(** ** The format read back *)

Lemma batch_line_edge D es0 a b :
  label_ok a -> label_ok b ->
  batch_line (map Str (dedup D), es0) (a ++ String " " b) =
  (map Str (dedup (D ++ [a; b])), es0 ++ [Arr [Str a; Str b]]).
Proof.
  intros Ha Hb. unfold batch_line. rewrite line_trim, line_split by done.
  cbn [length nth fst snd Nat.eqb orb]. rewrite !set_add_str. unfold dedup.
  by rewrite fold_add_unique_app.
Qed.

Lemma fold_lines D es0 (es : list (string * string)) :
  Forall (fun e => label_ok (fst e) /\ label_ok (snd e)) es ->
  fold_left batch_line (map (fun e => fst e ++ String " " (snd e))%string es) (map Str (dedup D), es0) =
  (map Str (dedup (D ++ List.flat_map (fun e => [fst e; snd e]) es)),
   es0 ++ map (fun e => Arr [Str (fst e); Str (snd e)]) es).
Proof.
  revert D es0. induction es as [|[a b] es IH]; intros D es0 Hok.
  { cbn. by rewrite !app_nil_r. }
  inversion Hok as [|? ? [Ha Hb] Hok']. subst. cbn [map fold_left fst snd].
  rewrite batch_line_edge, IH by done. cbn [List.flat_map]. by rewrite <- !app_assoc.
Qed.

Lemma line_no_newline a b :
  label_ok a -> label_ok b -> has_char newline (a ++ String " " b) = false.
Proof.
  intros Ha Hb. rewrite has_char_app, has_char_cons, !label_ok_no_space by done. reflexivity.
Qed.

(** The whole text of one doubled-space line, as the batch loop reads it. *)
Lemma parse_double_space a b :
  label_ok a -> label_ok b ->
  parse_lines (a ++ "  " ++ b) ([], []) =
    ([Str a; Str EmptyString], [Arr [Str a; Str EmptyString; Num (parseFloat b)]]).
Proof.
  intros Ha Hb. unfold parse_lines. rewrite split_nosep.
  2: { rewrite !has_char_app, (label_ok_no_space a), (label_ok_no_space b) by done. reflexivity. }
  cbn [fold_left]. unfold batch_line. rewrite trim_between by done.
  change ("  " ++ b)%string with (String " " (String " " b)).
  rewrite split_two_spaces by done.
  cbn [length nth fst snd Nat.eqb orb]. unfold set_add. cbn [existsb app].
  destruct Ha as [Ha _].
  destruct a; [done|]. reflexivity.
Qed.

(** ** Properties *)

(** C15 (equivalence): the label Set the batch loop builds equals the
    engine's reference [dedup] of the endpoints of the edges it parsed:
    each endpoint once, in first-occurrence order, whatever the text. *)
Theorem parse_lines_dedup (t : string) :
  exists es,
    parse_lines t ([], []) = (map Str (dedup (List.flat_map edge_ends es)), map edge_item es).
Proof.
  destruct (fold_batch_line_dedup [] [] (split newline t)) as (es & H).
  exists es. exact H.
Qed.

(** C16 (roundtrip): text written in the batch format, one "a b" line per
    edge with labels that are not empty and hold no white space, is read
    back as exactly those edges, in order, and as the distinct labels in
    first-occurrence order. *)
Theorem batch_text_roundtrip (es : list (string * string)) :
  Forall (fun e => label_ok (fst e) /\ label_ok (snd e)) es ->
  parse_lines (String.concat (String newline "") (map (fun e => fst e ++ String " " (snd e))%string es))
    ([], []) =
  (map Str (dedup (List.flat_map (fun e => [fst e; snd e]) es)),
   map (fun e => Arr [Str (fst e); Str (snd e)]) es).
Proof.
  intros Hok. destruct es as [|e es]; [reflexivity|].
  unfold parse_lines. rewrite split_lines.
  - exact (fold_lines [] [] (e :: es) Hok).
  - done.
  - apply Forall_map. eapply Forall_impl; [|exact Hok]. intros [a b] [Ha Hb].
    by apply line_no_newline.
Qed.

(** C26 (error): the batch loop keeps only the lines that [split(" ")]
    cuts into two or three parts.  A line holding a single label is
    ignored (the format cannot add an isolated vertex); two labels with
    two spaces between them read as an edge from the first label to the
    empty label, whose weight is [parseFloat] of the second label, and
    the empty label joins the Set; with three spaces the line is
    ignored. *)
Theorem batch_line_malformed acc a b :
  label_ok a -> label_ok b ->
  batch_line acc a = acc /\
  batch_line acc (a ++ "  " ++ b) =
    (set_add (Str EmptyString) (set_add (Str a) (fst acc)), snd acc ++ [Arr [Str a; Str EmptyString; Num (parseFloat b)]]) /\
  batch_line acc (a ++ "   " ++ b) = acc.
Proof.
  intros Ha Hb. unfold batch_line. rewrite trim_label, split_label by done.
  rewrite (trim_between a "  " b), (trim_between a "   " b) by done.
  change ("  " ++ b)%string with (String " " (String " " b)).
  change ("   " ++ b)%string with (String " " (String " " (String " " b))).
  rewrite split_two_spaces, split_three_spaces by done. done.
Qed.

(** ** Witnesses *)

Lemma batch_text_roundtrip_witness :
  Forall (fun e => label_ok (fst e) /\ label_ok (snd e)) [("A", "B"); ("B", "C")] /\
  parse_lines (String.concat (String newline "")
                 (map (fun e => fst e ++ String " " (snd e))%string [("A", "B"); ("B", "C")])) ([], []) =
  (map Str (dedup (List.flat_map (fun e => [fst e; snd e]) [("A", "B"); ("B", "C")])),
   map (fun e => Arr [Str (fst e); Str (snd e)]) [("A", "B"); ("B", "C")]).
Proof.
  assert (H : Forall (fun e => label_ok (fst e) /\ label_ok (snd e)) [("A", "B"); ("B", "C")]).
  { repeat constructor; cbn; discriminate. }
  split; [exact H|]. exact (batch_text_roundtrip _ H).
Defined.

Lemma batch_line_malformed_witness :
  label_ok "A" /\ label_ok "B" /\
  batch_line ([], []) "A" = ([], []) /\
  batch_line ([], []) "A  B" = ([Str "A"; Str EmptyString], [Arr [Str "A"; Str EmptyString; Num NaN]]) /\
  batch_line ([], []) "A   B" = ([], []).
Proof.
  assert (Ha : label_ok "A") by (split; [discriminate|reflexivity]).
  assert (Hb : label_ok "B") by (split; [discriminate|reflexivity]).
  split_and!; [exact Ha|exact Hb|..]; apply (batch_line_malformed ([], []) "A" "B" Ha Hb).
Defined.

End Parser.
