(* ===== verification/Contract.v ===== *)
(** What the client needs from its backend (module [Contract]).

    The page's vertex and edge lists are read with [[...prev, x]] and
    [new Set(vertices)]: if either hook ever holds something that is not
    iterable, the next insertion throws inside a React state updater and
    the page is gone.  The hooks are written only from the client's own
    arrays and from the answer to [POST /insert_batch_items], through
    [data.vertices || []] and [data.edges || []].  [BatchContract] is
    what a backend must promise for that to be safe: the two members of
    a successful batch answer are arrays or falsy.  Against any backend
    that keeps the contract, no sequence of user events crashes the page
    ([no_crash]).  [backend_invariant]: a property of the backend's state
    that every answer preserves holds after any sequence of events, since
    the client changes that state only through requests.
    [fields_always_text]: every text input holds a string in every
    reachable state, whatever the backend answers.
    [upload_failure_shows_merged]: when the upload's POST fails, the page
    keeps the merged lists it set before sending; [offline] is the
    backend that never answers, used to witness it. *)

From Stdlib Require Import QArith String.
From stdpp Require Import base list strings decidable gmap.
From S2P Require Import Prelude JsValue Http Client.

Module Contract.
Import Js Http Client.

Definition arr_or_falsy (v : value) : Prop := truthy v = false \/ exists xs, v = Arr xs.

Definition batch_post (body : option json) : request :=
  mkRequest POST (base_url ++ "/insert_batch_items")%string body.

(** The backend's side of the interface: a successful batch answer
    carries arrays (or nothing usable) as [vertices] and [edges]. *)
Class BatchContract `{B : Backend} : Prop :=
  batch_answer_lists : forall s body,
    match axios (snd (serve s (batch_post body))) with
    | Ok data => arr_or_falsy (get_field data "vertices") /\ arr_or_falsy (get_field data "edges")
    | Err _ => True
    end.

(** A backend that is not running: every request ends in a network
    error. *)
Definition offline : Backend := {| backend_state := unit; serve s _ := (s, NetworkError) |}.

(** The page loaded against it, with the file "C D" chosen. *)
Definition ex_offline_world : world (B := offline) :=
  run_events [ChooseFile ["C D"]] (mount (B := offline) tt).

Section Safety.
Context `{B : Backend}.

(** The backend's state satisfies [P]. *)
Definition srv_ok (P : backend_state -> Prop) (w : world) : Prop := P (server w).

(** Every text input holds a string. *)
Definition fields_typed (w : world) : Prop := forall f, exists t, st (app w) (field_hook f) = Str t.

(** The page is alive and both list hooks hold arrays. *)
Definition hooks_ok (w : world) : Prop :=
  crashed w = false /\
  (exists xs, st (app w) "vertices" = Arr xs) /\ (exists ys, st (app w) "edges" = Arr ys).

Lemma js_or_arr v : arr_or_falsy v -> exists xs, js_or v (Arr []) = Arr xs.
Proof. intros [H|[xs ->]]; unfold js_or; [rewrite H; eauto|eauto]. Qed.

Lemma hooks_ok_set (w : world) k v :
  k <> "vertices" -> k <> "edges" -> hooks_ok w -> hooks_ok (set k v w).
Proof.
  intros H1 H2 (Hc & [xs Hx] & [ys Hy]). unfold hooks_ok. cbn [crashed app set].
  rewrite !st_insert_ne by congruence. eauto.
Qed.

Lemma hooks_ok_set_arr (w : world) k xs :
  hooks_ok w -> hooks_ok (set k (Arr xs) w).
Proof.
  intros (Hc & [vs Hx] & [ys Hy]). unfold hooks_ok. cbn [crashed app set].
  split; [done|]. split.
  - destruct (decide (k = "vertices")) as [->|Hv];
      [rewrite st_insert_eq | rewrite st_insert_ne by congruence]; eauto.
  - destruct (decide (k = "edges")) as [->|He];
      [rewrite st_insert_eq | rewrite st_insert_ne by congruence]; eauto.
Qed.

Lemma hooks_ok_emit (w : world) e : hooks_ok w -> hooks_ok (emit e w).
Proof. done. Qed.

Lemma hooks_ok_server (w : world) b' :
  hooks_ok w -> hooks_ok (mkWorld (app w) b' (effects w) (crashed w)).
Proof. done. Qed.

Lemma hooks_ok_push (w : world) k x :
  k = "vertices" \/ k = "edges" -> hooks_ok w -> hooks_ok (push k x w).
Proof.
  intros Hk Hw. unfold push.
  assert (exists xs, st (app w) k = Arr xs) as [xs Hxs]
    by (destruct Hw as (_ & Hx & Hy); by destruct Hk as [->| ->]).
  rewrite Hxs. by apply hooks_ok_set_arr.
Qed.

Create HintDb hooks discriminated.
#[local] Hint Resolve hooks_ok_set_arr hooks_ok_emit hooks_ok_server : hooks.
#[local] Hint Extern 2 (hooks_ok (set _ _ _)) =>
  apply hooks_ok_set; [discriminate | discriminate |] : hooks.
#[local] Hint Extern 2 (hooks_ok (push _ _ _)) =>
  apply hooks_ok_push; [by (left + right) |] : hooks.

(** Answer the request the handler makes and split on the promise. *)
Ltac answer_tac :=
  unfold call;
  match goal with |- context [serve ?s ?rq] => destruct (serve s rq) as [?b' ?o] eqn:? end;
  cbn iota beta;
  match goal with |- context [axios ?o] =>
    destruct (axios o) as [?data|?m]; [try destruct (nullish _)|] end.

Lemma fetchGraphInfo_done_ok r (w : world) : hooks_ok w -> hooks_ok (fetchGraphInfo_done r w).
Proof. intros Hw. destruct r as [data|m]; cbn; [destruct (nullish data)|]; eauto with hooks. Qed.
#[local] Hint Resolve fetchGraphInfo_done_ok : hooks.

Lemma fetchGraphInfo_ok (w : world) : hooks_ok w -> hooks_ok (fetchGraphInfo w).
Proof. intros Hw. unfold fetchGraphInfo, call. destruct (serve _ _). eauto with hooks. Qed.
#[local] Hint Resolve fetchGraphInfo_ok : hooks.

Lemma handleCheckEulerian_ok (w : world) : hooks_ok w -> hooks_ok (handleCheckEulerian w).
Proof. intros Hw. unfold handleCheckEulerian, send, eulerian_request, eulerian_answer. answer_tac; eauto with hooks. Qed.

Lemma handleVerifyAdjacency_ok (w : world) : hooks_ok w -> hooks_ok (handleVerifyAdjacency w).
Proof. intros Hw. unfold handleVerifyAdjacency, send, verify_request, verify_answer. answer_tac; eauto with hooks. Qed.

Lemma handleCheckAdjacency_ok (w : world) : hooks_ok w -> hooks_ok (handleCheckAdjacency w).
Proof. intros Hw. unfold handleCheckAdjacency, send, adjacency_request, adjacency_answer. answer_tac; eauto 7 with hooks. Qed.

Lemma handleCheckDegree_ok (w : world) : hooks_ok w -> hooks_ok (handleCheckDegree w).
Proof. intros Hw. unfold handleCheckDegree, send, degree_request, degree_answer. answer_tac; eauto 7 with hooks. Qed.

Lemma handleFindShortestPath_ok (w : world) : hooks_ok w -> hooks_ok (handleFindShortestPath w).
Proof. intros Hw. unfold handleFindShortestPath, send, path_request, path_answer. answer_tac; eauto 7 with hooks. Qed.

Lemma handleAddVertex_ok (w : world) : hooks_ok w -> hooks_ok (handleAddVertex w).
Proof. intros Hw. unfold handleAddVertex, send, add_vertex_request, add_vertex_answer. answer_tac; eauto 7 with hooks. Qed.

Lemma handleAddEdge_ok (w : world) : hooks_ok w -> hooks_ok (handleAddEdge w).
Proof. intros Hw. unfold handleAddEdge, send, add_edge_request, add_edge_answer. answer_tac; eauto 10 with hooks. Qed.

Lemma handleGraphCreation_ok (w : world) : hooks_ok w -> hooks_ok (handleGraphCreation w).
Proof.
  intros Hw. unfold handleGraphCreation, send_refresh, create_request, create_answer.
  answer_tac; eauto 7 with hooks.
Qed.

Lemma handleFileChange_ok (w : world) files : hooks_ok w -> hooks_ok (handleFileChange files w).
Proof. intros Hw. unfold handleFileChange. eauto with hooks. Qed.

Section WithContract.
Context {HC : BatchContract}.

(** Post a batch; on success, adopt the answer's lists through
    [data.x || []]: both hooks stay arrays. *)
Ltac batch_answer_tac :=
  unfold call;
  match goal with |- context [serve ?s (mkRequest POST _ (to_json ?body))] =>
    let Hk := fresh "Hk" in
    pose proof (batch_answer_lists s (to_json body)) as Hk; unfold batch_post in Hk;
    destruct (serve s _) as [b' o]; cbn [snd] in Hk; cbn iota beta;
    destruct (axios o) as [data|m]; [|eauto with hooks];
    destruct (nullish data); [eauto with hooks|];
    let Hv := fresh "Hv" in let He := fresh "He" in
    destruct Hk as [Hv He];
    try (destruct (js_or_arr _ Hv) as [xs ->]); try (destruct (js_or_arr _ He) as [ys ->])
  end.

Lemma handleBatchInsert_ok (w : world) : hooks_ok w -> hooks_ok (handleBatchInsert w).
Proof.
  intros Hw. unfold handleBatchInsert, send_refresh, batch_request, batch_answer.
  destruct (parse_lines _ _) as [vs es]. batch_answer_tac. eauto 8 with hooks.
Qed.

Lemma handleFileUpload_ok (w : world) : hooks_ok w -> hooks_ok (handleFileUpload w).
Proof.
  intros Hw. unfold handleFileUpload, upload_onload. destruct (negb _); [eauto with hooks|].
  destruct (set_items (st (app w) "vertices")) as [vs0|], (items (st (app w) "edges")) as [es0|];
    try eauto with hooks.
  destruct (parse_lines _ _) as [vs es].
  assert (Hw' : hooks_ok (set "edges" (Arr es) (set "vertices" (Arr vs) w))) by eauto with hooks.
  revert Hw'. generalize (set "edges" (Arr es) (set "vertices" (Arr vs) w)). intros w' Hw'.
  unfold send, upload_answer. batch_answer_tac. eauto 8 with hooks.
Qed.

#[local] Hint Resolve handleCheckEulerian_ok handleVerifyAdjacency_ok handleCheckAdjacency_ok
  handleCheckDegree_ok handleFindShortestPath_ok handleAddVertex_ok handleAddEdge_ok
  handleGraphCreation_ok handleFileChange_ok handleBatchInsert_ok handleFileUpload_ok : hooks.

Lemma on_event_ok ev (w : world) : hooks_ok w -> hooks_ok (on_event ev w).
Proof.
  intros Hw. destruct ev as [v|v| |files| |v|f t|b]; cbn [on_event]; eauto with hooks.
  - destruct (field_shown _ _); [|done]. apply hooks_ok_set; [destruct f; discriminate.. | done].
  - destruct (negb _); [done|]. destruct b; cbn [click_handler]; eauto with hooks.
Qed.

Lemma run_events_ok evs (w : world) : hooks_ok w -> hooks_ok (run_events evs w).
Proof.
  revert w. induction evs as [|ev evs IH]; intros w Hw; [done|].
  rewrite run_events_cons, dispatch_live by apply Hw. by apply IH, on_event_ok.
Qed.

Lemma mount_ok (b : backend_state) : hooks_ok (mount b).
Proof. apply fetchGraphInfo_ok. split; [done|]. split; eexists; reflexivity. Qed.

(** Against a backend that keeps [BatchContract], no sequence of user
    events crashes the page. *)
Theorem no_crash (b : backend_state) (evs : list event) :
  crashed (run_events evs (mount b)) = false.
Proof. apply run_events_ok, mount_ok. Qed.

End WithContract.

End Safety.

(** ** Backend invariants *)

Create HintDb srv.

(** The backend's state changes only by answering requests: whatever
    [serve] preserves holds after every user event. *)
Section ServerInvariant.
Context `{B : Backend} (P : backend_state -> Prop).
Context (HP : forall s rq, P s -> P (fst (serve s rq))).

Lemma srv_ok_set (w : world) k v : srv_ok P w -> srv_ok P (set k v w).
Proof. done. Qed.

Lemma srv_ok_emit (w : world) e : srv_ok P w -> srv_ok P (emit e w).
Proof. done. Qed.

Lemma srv_ok_push (w : world) k x : srv_ok P w -> srv_ok P (push k x w).
Proof. unfold push. by destruct (items _). Qed.

Lemma srv_ok_call (w : world) rq b' o :
  srv_ok P w -> serve (server w) rq = (b', o) -> srv_ok P (mkWorld (app w) b' (effects w) (crashed w)).
Proof. intros Hw E. unfold srv_ok. cbn. change b' with (fst (b', o)). rewrite <- E. by apply HP. Qed.

Lemma srv_ok_done r (w : world) : srv_ok P w -> srv_ok P (fetchGraphInfo_done r w).
Proof. intros Hw. destruct r as [data|m]; cbn; [destruct (nullish data)|]; done. Qed.

#[local] Hint Resolve srv_ok_set srv_ok_emit srv_ok_push srv_ok_call srv_ok_done : srv.

Lemma srv_ok_fetch (w : world) : srv_ok P w -> srv_ok P (fetchGraphInfo w).
Proof. intros Hw. unfold fetchGraphInfo, call. destruct (serve _ _) eqn:E. eauto with srv. Qed.
#[local] Hint Resolve srv_ok_fetch : srv.

(** Answer every request of the handler, then rebuild the state. *)
Ltac serve_tac :=
  repeat (unfold call in *;
          match goal with
          | |- context [serve ?s ?rq] => let E := fresh "E" in destruct (serve s rq) eqn:E
          | |- context [match ?r with Ok _ => _ | Err _ => _ end] => destruct r
          | |- context [if ?c then _ else _] => destruct c
          | |- context [let '(_, _) := ?p in _] => destruct p
          | |- context [match ?x with Some _ => _ | None => _ end] => destruct x
          end; cbn iota beta).

Lemma srv_ok_send rq k (w : world) :
  (forall s r w, srv_ok P w -> srv_ok P (k s r w)) -> srv_ok P w -> srv_ok P (send rq k w).
Proof. intros Hk Hw. unfold send, call. destruct (serve _ _) eqn:E. eauto with srv. Qed.

Lemma srv_ok_send_refresh rq k (w : world) :
  (forall s r w, srv_ok P w -> srv_ok P (fst (k s r w))) -> srv_ok P w -> srv_ok P (send_refresh rq k w).
Proof.
  intros Hk Hw. unfold send_refresh, call. destruct (serve _ _) as [b' o] eqn:E.
  pose proof (Hk (app w) (axios o) _ (srv_ok_call w _ b' o Hw E)) as H.
  destruct (k _ _ _) as [w'' []]; cbn in H; eauto with srv.
Qed.

(** The rest of a handler after its answer leaves the backend alone. *)
Ltac srv_cont :=
  let r := fresh "r" in
  intros ? r ? ?; destruct r;
  unfold add_vertex_answer, add_edge_answer, verify_answer, adjacency_answer, degree_answer,
    path_answer, eulerian_answer, batch_answer, create_answer, upload_answer;
  serve_tac; cbn [fst]; eauto 10 with srv.

Lemma srv_ok_upload (w : world) : srv_ok P w -> srv_ok P (handleFileUpload w).
Proof.
  intros Hw. unfold handleFileUpload, upload_onload. destruct (negb _); [done|].
  destruct (set_items (st (app w) "vertices")), (items (st (app w) "edges")); try done.
  destruct (parse_lines _ _).
  apply srv_ok_send; [srv_cont|done].
Qed.

Lemma on_event_srv ev (w : world) : srv_ok P w -> srv_ok P (on_event ev w).
Proof.
  intros Hw. destruct ev as [v|v| |files| |v|f t|b]; cbn [on_event].
  all: try destruct b; cbn [click_handler]; repeat case_match; try done.
  all: unfold handleGraphCreation, handleFileChange, handleBatchInsert,
         handleAddVertex, handleAddEdge, handleVerifyAdjacency, handleCheckAdjacency,
         handleCheckDegree, handleFindShortestPath, handleCheckEulerian.
  all: first [ apply srv_ok_send; [srv_cont|done] | apply srv_ok_send_refresh; [srv_cont|done]
             | by apply srv_ok_upload | eauto with srv ].
Qed.

Lemma run_events_srv evs (w : world) : srv_ok P w -> srv_ok P (run_events evs w).
Proof.
  revert w. induction evs as [|ev evs IH]; intros w Hw; [done|].
  rewrite run_events_cons. unfold dispatch. destruct (crashed w); [by apply IH|].
  by apply IH, on_event_srv.
Qed.

(** From any starting state satisfying [P], every sequence of user events
    leaves the backend in a state satisfying [P]. *)
Lemma backend_invariant (b : backend_state) (evs : list event) :
  P b -> P (server (run_events evs (mount b))).
Proof. intros Hb. apply run_events_srv, srv_ok_fetch. exact Hb. Qed.

End ServerInvariant.

(** ** The text inputs hold strings *)

Section Typing.
Context `{B : Backend}.

Lemma typed_set (w : world) k v :
  (forall f, field_hook f <> k) -> fields_typed w -> fields_typed (set k v w).
Proof.
  intros Hk Hw f. destruct (Hw f) as [t Ht]. exists t. cbn [app set].
  rewrite st_insert_ne; [done|]. intros E. by apply (Hk f).
Qed.

Lemma typed_set_str (w : world) k t : fields_typed w -> fields_typed (set k (Str t) w).
Proof.
  intros Hw f. cbn [app set]. destruct (decide (k = field_hook f)) as [<-|Hne].
  - rewrite st_insert_eq. eauto.
  - rewrite st_insert_ne by done. apply Hw.
Qed.

Lemma typed_emit (w : world) e : fields_typed w -> fields_typed (emit e w).
Proof. done. Qed.

Lemma typed_server (w : world) b' : fields_typed w -> fields_typed (mkWorld (app w) b' (effects w) (crashed w)).
Proof. done. Qed.

Lemma typed_push (w : world) k x :
  (forall f, field_hook f <> k) -> fields_typed w -> fields_typed (push k x w).
Proof. intros Hk Hw. unfold push. destruct (items _); [by apply typed_set|done]. Qed.

Lemma typed_done r (w : world) : fields_typed w -> fields_typed (fetchGraphInfo_done r w).
Proof.
  intros Hw. destruct r as [data|m]; cbn; [destruct (nullish data)|]; try done.
  apply typed_set; [by intros []|done].
Qed.

Create HintDb typed.
#[local] Hint Resolve typed_set_str typed_emit typed_server typed_done : typed.
#[local] Hint Extern 2 (fields_typed (set _ _ _)) => apply typed_set; [by intros [] |] : typed.
#[local] Hint Extern 2 (fields_typed (push _ _ _)) => apply typed_push; [by intros [] |] : typed.

Ltac typed_tac :=
  repeat (unfold call in *;
          match goal with
          | |- context [serve ?s ?rq] => destruct (serve s rq)
          | |- context [match ?r with Ok _ => _ | Err _ => _ end] => destruct r
          | |- context [if ?c then _ else _] => destruct c
          | |- context [let '(_, _) := ?p in _] => destruct p
          | |- context [match ?x with Some _ => _ | None => _ end] => destruct x
          end; cbn iota beta).

Lemma typed_send rq k (w : world) :
  (forall s r w, fields_typed w -> fields_typed (k s r w)) -> fields_typed w -> fields_typed (send rq k w).
Proof. intros Hk Hw. unfold send, call. destruct (serve _ _). eauto with typed. Qed.

Lemma typed_send_refresh rq k (w : world) :
  (forall s r w, fields_typed w -> fields_typed (fst (k s r w))) -> fields_typed w ->
  fields_typed (send_refresh rq k w).
Proof.
  intros Hk Hw. unfold send_refresh, call. destruct (serve _ _) as [b' o].
  pose proof (Hk (app w) (axios o) (mkWorld (app w) b' (effects w) (crashed w)) Hw) as H.
  destruct (k _ _ _) as [w'' []]; cbn in H; [|done].
  unfold fetchGraphInfo, call. destruct (serve _ _). eauto with typed.
Qed.

(** The rest of a handler after its answer writes no text input but
    [newVertex], and that with a string. *)
Ltac typed_cont :=
  let r := fresh "r" in
  intros ? r ? ?; destruct r;
  unfold add_vertex_answer, add_edge_answer, verify_answer, adjacency_answer, degree_answer,
    path_answer, eulerian_answer, batch_answer, create_answer, upload_answer;
  typed_tac; cbn [fst]; eauto 10 with typed.

Lemma typed_upload (w : world) : fields_typed w -> fields_typed (handleFileUpload w).
Proof.
  intros Hw. unfold handleFileUpload, upload_onload. destruct (negb _); [eauto with typed|].
  destruct (set_items (st (app w) "vertices")), (items (st (app w) "edges")); try eauto with typed.
  destruct (parse_lines _ _).
  apply typed_send; [typed_cont|eauto with typed].
Qed.

Lemma on_event_typed ev (w : world) : fields_typed w -> fields_typed (on_event ev w).
Proof.
  intros Hw. destruct ev as [v|v| |files| |v|f t|b]; cbn [on_event].
  all: try destruct b; cbn [click_handler]; repeat case_match; try done.
  all: unfold handleGraphCreation, handleFileChange, handleBatchInsert,
         handleAddVertex, handleAddEdge, handleVerifyAdjacency, handleCheckAdjacency,
         handleCheckDegree, handleFindShortestPath, handleCheckEulerian.
  all: first [ apply typed_send; [typed_cont|done] | apply typed_send_refresh; [typed_cont|done]
             | by apply typed_upload | unfold fetchGraphInfo, call; destruct (serve _ _)
             | idtac ].
  all: eauto with typed.
Qed.

Lemma run_events_typed evs (w : world) : fields_typed w -> fields_typed (run_events evs w).
Proof.
  revert w. induction evs as [|ev evs IH]; intros w Hw; [done|].
  rewrite run_events_cons. unfold dispatch. destruct (crashed w); [by apply IH|].
  by apply IH, on_event_typed.
Qed.

Lemma mount_typed (b : backend_state) : fields_typed (mount b).
Proof.
  unfold mount, fetchGraphInfo, call. destruct (serve _ _). apply typed_done.
  intros f. destruct f; eexists; reflexivity.
Qed.

(** C19 (type): whatever the backend answers and whatever the user does,
    every text input of the page holds a string: the value the handlers
    read to build their requests and URLs is always text. *)
Theorem fields_always_text (b : backend_state) (evs : list event) (f : text_field) :
  exists t, st (app (run_events evs (mount b))) (field_hook f) = Str t.
Proof. apply run_events_typed, mount_typed. Qed.

End Typing.

(** ** A failed upload *)

Section Upload.
Context `{B : Backend}.

(** C28 (error): when the POST of a file upload fails (the backend
    answers an error status or cannot be reached), the page keeps the
    merged lists it set before sending the request, its old vertices and
    edges followed by the file's, and only logs the error; the backend's
    state is whatever serving the failed request left it.  Nothing on
    the page tells the user that the insertion failed, and the lists do
    not depend on what the backend stored. *)
Theorem upload_failure_shows_merged (w : world) vs0 es0 vs es m :
  truthy (st (app w) "selectedFile") = true ->
  st (app w) "vertices" = Arr vs0 -> st (app w) "edges" = Arr es0 ->
  parse_lines (file_text (st (app w) "selectedFile")) (set_of_list vs0, es0) = (vs, es) ->
  axios (snd (serve (server w) (batch_post (to_json (Obj [("vertices", Arr vs); ("edges", Arr es)]))))) = Err m ->
  st (app (handleFileUpload w)) "vertices" = Arr vs /\
  st (app (handleFileUpload w)) "edges" = Arr es /\
  server (handleFileUpload w) = fst (serve (server w) (batch_post (to_json (Obj [("vertices", Arr vs); ("edges", Arr es)])))) /\
  effects (handleFileUpload w) = effects w ++ [ConsoleError "Erro ao inserir dados do arquivo:" m].
Proof.
  intros Hf Hv He Hp Hm. unfold handleFileUpload. rewrite Hf. cbn [negb].
  unfold upload_onload. rewrite Hv, He. cbn [set_items nullish items]. rewrite Hp.
  unfold send, call, batch_post in *. cbn [app set].
  destruct (serve _ _) as [b' o]. cbn in Hm |- *. rewrite Hm. cbn. autorewrite with client_rw. done.
Qed.

End Upload.

(** ** Witness *)

Lemma upload_failure_shows_merged_witness :
  truthy (st (app ex_offline_world) "selectedFile") = true /\
  st (app (handleFileUpload ex_offline_world)) "vertices" = Arr [Str "C"; Str "D"] /\
  st (app (handleFileUpload ex_offline_world)) "edges" = Arr [Arr [Str "C"; Str "D"]] /\
  effects (handleFileUpload ex_offline_world) =
    effects ex_offline_world ++ [ConsoleError "Erro ao inserir dados do arquivo:" "Network Error"].
Proof.
  assert (Hf : truthy (st (app ex_offline_world) "selectedFile") = true) by reflexivity.
  destruct (upload_failure_shows_merged (B := offline) ex_offline_world [] [] [Str "C"; Str "D"]
              [Arr [Str "C"; Str "D"]] "Network Error" Hf eq_refl eq_refl)
    as (Hv & He & _ & Hl); [vm_compute; reflexivity|reflexivity|].
  split_and!; [exact Hf|exact Hv|exact He|exact Hl].
Defined.

End Contract.
