(* ===== verification/System.v ===== *)
(** The client of [App.js] running against the engine (module [System]).

    [world] is instantiated with the [engine] backend of [Server]: the
    backend state is the engine's graph.  The theorems follow a user's
    actions through the client's handlers into the engine and back into
    the page's state: what the engine stores, what the page shows, and
    where the two disagree. *)

From Stdlib Require Import QArith String Ascii.
From stdpp Require Import base list strings decidable gmap.
From S2P Require Import Prelude Graph Mutation Paths Dijkstra Euler JsValue Http Server Client Parser Contract.

Module System.
Import GraphStore Mutation Paths Dijkstra Euler Js Http Server Client Parser Contract.

(** ** Scenarios *)

(** What a user does in the single-insert form: add a vertex (type the
    label, press the button), or add an edge of an unweighted graph (type
    both endpoints, press the button). *)
Inductive user_insert :=
| UIVertex (v : string)
| UIEdge (a b : string).

Definition insert_events (u : user_insert) : list event :=
  match u with
  | UIVertex v => [TypeText FNewVertex v; Click BAddVertex]
  | UIEdge a b => [TypeText FStartVertex a; TypeText FEndVertex b; Click BAddEdge]
  end.

(** The engine operation a user insertion is meant to perform. *)
Definition user_op (u : user_insert) : op :=
  match u with
  | UIVertex v => OpAddVertex v
  | UIEdge a b => OpAddEdge a b None
  end.

Definition is_edge_insert (u : user_insert) : bool :=
  match u with UIEdge _ _ => true | UIVertex _ => false end.

(** Create an unweighted graph, directed or not, and switch to the
    single-insert form. *)
Definition create_events (d : bool) : list event :=
  [ChooseDirected (if d then "yes" else "no"); ChooseWeighted "no"; SubmitCreate;
   ChooseInsertMode "single"].

(** A page whose degree form holds "Z", over an engine with the edge A-B. *)
Definition ex_degree_world : world :=
  mkWorld (<["degreeVertex" := Str "Z"]> initial_state)
          (run_ops [OpAddEdge "A" "B" None] (reset false false)) [] false.

(** The engine holds the edge A-B; the degree field reads "A&B". *)
Definition ex_cut_world : world :=
  mkWorld (<["degreeVertex" := Str "A&B"]> initial_state)
          (run_ops [OpAddEdge "A" "B" None] (reset false false)) [] false.

(** A weighted engine graph with the edge A-B of weight -1; the path
    inputs read A and B. *)
Definition ex_negative_world : world :=
  mkWorld (<["pathStart" := Str "A"]> (<["pathEnd" := Str "B"]> initial_state))
          (run_ops [OpAddEdge "A" "B" (Some (-1)%Q)] (reset false true)) [] false.

(** The batch box holds "A  B", two spaces between the labels, over
    the empty graph. *)
Definition ex_double_space_world : world :=
  mkWorld (<["batchData" := Str "A  B"]> initial_state) (reset false false) [] false.

(** The page after a batch insert of the edge A-B, with the file
    "C D" chosen. *)
Definition ex_upload_world : world :=
  run_events [TypeText FBatchData "A B"; Click BBatchInsert; ChooseFile ["C D"]]
    (mount (B := engine) initial_graph).

(** The single-insert form after A was added, holding A again. *)
Definition ex_vertex_world : world :=
  run_events [ChooseInsertMode "single"; TypeText FNewVertex "A"; Click BAddVertex;
              TypeText FNewVertex "A"]
    (mount (B := engine) initial_graph).

(** A batch of the edges A-B, A-C, B-C into the undirected graph, then
    the adjacency forms filled in. *)
Definition ex_triangle_world : world :=
  run_events [TypeText FBatchData "A B
A C
B C"; Click BBatchInsert;
              TypeText FAdjVertex "A"; TypeText FVertex1 "A"; TypeText FVertex2 "C"]
    (mount (B := engine) initial_graph).

(** A batch of the path A-B-C-D, then the path form filled with A and D. *)
Definition ex_path_world : world :=
  run_events [TypeText FBatchData (String.concat (String newline "") ["A B"; "B C"; "C D"]);
              Click BBatchInsert; TypeText FPathStart "A"; TypeText FPathEnd "D"]
    (mount (B := engine) initial_graph).

(** A weighted undirected graph with the edges A-B of weight 3, B-C of
    weight 1 and A-C of weight 5, then the path form filled with A and
    C: the direct edge is dearer than the way through B. *)
Definition ex_weighted_world : world :=
  run_events [ChooseWeighted "yes"; SubmitCreate;
              TypeText FBatchData (String.concat (String newline "") ["A B 3"; "B C 1"; "A C 5"]);
              Click BBatchInsert; TypeText FPathStart "A"; TypeText FPathEnd "C"]
    (mount (B := engine) initial_graph).

(** The loaded page over the unweighted empty graph, switched to
    "weighted" with the radio (no new graph created), with A, B and the
    weight 2 typed into the single-insert form. *)
Definition ex_mode_world : world :=
  run_events [ChooseInsertMode "single"; ChooseWeighted "yes"; TypeText FStartVertex "A";
              TypeText FEndVertex "B"; TypeText FWeight "2"]
    (mount (B := engine) initial_graph).

(** A directed graph created from the page, with the cycle A->B->C->A
    batch-inserted. *)
Definition ex_directed_world : world :=
  run_events [ChooseDirected "yes"; SubmitCreate;
              TypeText FBatchData (String.concat (String newline "") ["A B"; "B C"; "C A"]);
              Click BBatchInsert]
    (mount (B := engine) initial_graph).

(** The batch item the page sends back for an edge it got from the engine. *)
Definition batch_of_edge (e : edge) : batch_edge := mkBatchEdge (efrom e) (eto e) (eweight e).

(** A page ready for single insertions into an unweighted graph. *)
Definition single_ready (w : world) : Prop :=
  crashed w = false /\ st (app w) "insertMode" = Str "single" /\
  st (app w) "weighted" = Bool false /\
  (exists xs, st (app w) "vertices" = Arr xs) /\ (exists ys, st (app w) "edges" = Arr ys).

(** The engine keeps the client's contract: a successful batch answer
    lists the graph's vertices and edges as arrays. *)
#[export] Instance engine_batch_contract : BatchContract (B := engine).
Proof.
  intros g body. unfold batch_post. change (serve g (mkRequest POST (base_url ++ "/insert_batch_items")%string body))
    with (post_insert_batch body g). unfold post_insert_batch.
  destruct (json_list (bfield body "vertices") ≫= (fun xs => all_some (map label_of xs))),
    (json_list (bfield body "edges") ≫= (fun xs => all_some (map batch_edge_of xs))); try exact I.
  destruct (insertBatch _ _ _). cbn. split; right; eexists; reflexivity.
Qed.

(** ** The engine behind the client *)

Lemma serve_get g url path args :
  parse_target url = Some (path, args) ->
  serve (Backend := engine) g (mkRequest GET url None) = (g, get_endpoint path args g).
Proof. intros H. cbn. unfold handle. cbn [rurl rmethod]. by rewrite H. Qed.

Lemma degree_target v :
  query_safe v = true ->
  parse_target (base_url ++ "/degree?vertex=" ++ v) = Some ("/degree", [("vertex", v)]).
Proof. intros H. by apply (parse_target_one "/degree" "vertex" v). Qed.

Lemma serve_post_add_vertex g body :
  serve (Backend := engine) g (mkRequest POST (base_url ++ "/add_vertex")%string body) =
  post_add_vertex body g.
Proof. reflexivity. Qed.

Lemma serve_post_add_edge g body :
  serve (Backend := engine) g (mkRequest POST (base_url ++ "/add_edge")%string body) =
  post_add_edge body g.
Proof. reflexivity. Qed.

Lemma serve_post_create g body :
  serve (Backend := engine) g (mkRequest POST (base_url ++ "/create_graph")%string body) =
  post_create body g.
Proof. reflexivity. Qed.

Lemma adjacency_target v :
  query_safe v = true ->
  parse_target (base_url ++ "/adjacency?vertex=" ++ v) = Some ("/adjacency", [("vertex", v)]).
Proof. intros H. by apply (parse_target_one "/adjacency" "vertex" v). Qed.

Lemma verify_adj_target a b :
  query_safe a = true -> query_safe b = true ->
  parse_target (base_url ++ "/verify_adj?vertex1=" ++ a ++ "&vertex2=" ++ b) =
  Some ("/verify_adj", [("vertex1", a); ("vertex2", b)]).
Proof. intros Ha Hb. by apply (parse_target_two "/verify_adj" "vertex1" a "vertex2" b). Qed.

Lemma shortest_path_target a b :
  query_safe a = true -> query_safe b = true ->
  parse_target (base_url ++ "/shortest_path?vertex_start=" ++ a ++ "&vertex_end=" ++ b) =
  Some ("/shortest_path", [("vertex_start", a); ("vertex_end", b)]).
Proof. intros Ha Hb. by apply (parse_target_two "/shortest_path" "vertex_start" a "vertex_end" b). Qed.

Lemma handle_get_world (w : world) url path args :
  parse_target url = Some (path, args) ->
  call (mkRequest GET url None) w =
  (mkWorld (app w) (server w) (effects w) (crashed w),
   axios (get_endpoint path args (server w))).
Proof. intros H. unfold call. by rewrite (serve_get _ _ _ _ H). Qed.

Lemma degree_target_cut a c r :
  query_safe a = true -> c = "&"%char \/ c = "#"%char ->
  exists rest, parse_target (base_url ++ "/degree?vertex=" ++ (a ++ String c r)) =
    Some ("/degree", ("vertex", a) :: rest).
Proof. intros Ha Hc. exact (parse_target_cut "/degree" "vertex" a c r eq_refl eq_refl eq_refl eq_refl eq_refl eq_refl eq_refl Ha Hc). Qed.

(** The engine reads only the first [vertex] parameter. *)
Lemma get_degree_first a rest g :
  get_endpoint "/degree" (("vertex", a) :: rest) g = get_endpoint "/degree" [("vertex", a)] g.
Proof. reflexivity. Qed.

(** The rest of [handleCheckDegree] leaves the degree input alone. *)
Lemma degree_answer_set s r v (w : world) :
  degree_answer s r (set "degreeVertex" v w) = set "degreeVertex" v (degree_answer s r w).
Proof.
  unfold degree_answer. destruct r as [data|m]; [destruct (nullish data)|];
    rewrite ?set_emit, ?(set_comm "degreeVertex" "error"), ?(set_comm "degreeVertex" "degreeMessage")
      by discriminate; done.
Qed.

Lemma world_eta (w : world) : mkWorld (app w) (server w) (effects w) (crashed w) = w.
Proof. by destruct w. Qed.

(** The neighbour and degree queries of a label the query string carries
    unchanged: the rest of the handler runs on the engine's answer. *)
Lemma adjacency_query (w : world) v :
  st (app w) "adjVertex" = Str v -> query_safe v = true ->
  handleCheckAdjacency w = adjacency_answer (app w) (axios (get_endpoint "/adjacency" [("vertex", v)] (server w))) w.
Proof.
  intros Hv Hs. unfold handleCheckAdjacency, send, adjacency_request. rewrite Hv. cbn [to_string].
  by rewrite (handle_get_world w _ _ _ (adjacency_target v Hs)), world_eta.
Qed.

Lemma degree_query (w : world) v :
  st (app w) "degreeVertex" = Str v -> query_safe v = true ->
  handleCheckDegree w = degree_answer (app w) (axios (get_endpoint "/degree" [("vertex", v)] (server w))) w.
Proof.
  intros Hv Hs. unfold handleCheckDegree, send, degree_request. rewrite Hv. cbn [to_string].
  by rewrite (handle_get_world w _ _ _ (degree_target v Hs)), world_eta.
Qed.

Lemma run_ops_snoc ops o g : run_ops (ops ++ [o]) g = apply_op (run_ops ops g) o.
Proof. unfold run_ops. by rewrite fold_left_app. Qed.

Lemma handleAddVertex_engine (w : world) v xs :
  st (app w) "newVertex" = Str v -> st (app w) "vertices" = Arr xs ->
  handleAddVertex w =
  emit (ConsoleLog (Str "Vertex added"))
    (set "newVertex" (Str "") (set "vertices" (Arr (xs ++ [Str v]))
      (mkWorld (app w) (addVertex v (server w)) (effects w) (crashed w)))).
Proof.
  intros Hn Hx. unfold handleAddVertex, send, add_vertex_request, add_vertex_answer, call. rewrite Hn, serve_post_add_vertex.
  cbn -[addVertex st]. unfold push. cbn [app]. by rewrite Hx.
Qed.

Lemma handleAddEdge_unweighted (w : world) a b ys :
  st (app w) "startVertex" = Str a -> st (app w) "endVertex" = Str b ->
  st (app w) "weighted" = Bool false -> weighted (server w) = false ->
  st (app w) "edges" = Arr ys ->
  handleAddEdge w =
  emit (ConsoleLog (Str "Edge added"))
    (set "weight" (Str "") (set "endVertex" (Str "") (set "startVertex" (Str "")
      (set "edges" (Arr (ys ++ [Arr [Str a; Str b; Undefined]]))
        (mkWorld (app w) (apply_op (server w) (OpAddEdge a b None)) (effects w) (crashed w)))))).
Proof.
  intros Ha Hb Hw Hsw Hy. unfold handleAddEdge, send, add_edge_request, add_edge_answer, call, edge_weight.
  rewrite Ha, Hb, Hw, serve_post_add_edge. cbn -[addEdge st]. unfold addEdge. rewrite Hsw. cbn -[add_unique st].
  unfold push. cbn [app]. by rewrite Hy.
Qed.

Ltac shown_tac :=
  match goal with
  | Hm : st (app ?w) "insertMode" = Str "single" |- _ =>
      cbn [crashed app set]; try done;
      unfold field_shown, button_shown, mode_is; autorewrite with client_rw; rewrite Hm; reflexivity
  end.

Lemma insert_step (u : user_insert) (w : world) :
  single_ready w -> weighted (server w) = false ->
  single_ready (run_events (insert_events u) w) /\
  server (run_events (insert_events u) w) = apply_op (server w) (user_op u).
Proof.
  intros (Hc & Hm & Hw & [xs Hx] & [ys Hy]) Hsw. unfold single_ready.
  destruct u as [v|a b]; cbn [insert_events user_op].
  - rewrite run_events_cons, dispatch_type by shown_tac.
    rewrite run_events_cons, dispatch_click by shown_tac.
    cbn [click_handler run_events fold_left].
    rewrite (handleAddVertex_engine _ v xs) by (cbn [app set]; by autorewrite with client_rw).
    cbn [crashed app set emit server]. autorewrite with client_rw.
    split_and!; eauto.
  - rewrite run_events_cons, dispatch_type by shown_tac.
    rewrite run_events_cons, dispatch_type by shown_tac.
    rewrite run_events_cons, dispatch_click by shown_tac.
    cbn [click_handler run_events fold_left].
    rewrite (handleAddEdge_unweighted _ a b ys) by (cbn [app set server]; by autorewrite with client_rw).
    cbn [crashed app set emit server]. autorewrite with client_rw.
    split_and!; eauto.
Qed.

Lemma has_vertex_false v g : v ∉ vertices g -> has_vertex v g = false.
Proof. intros H. destruct (has_vertex v g) eqn:E; [|done]. by apply has_vertex_spec in E. Qed.

Lemma serve_post_batch g body :
  serve (Backend := engine) g (mkRequest POST (base_url ++ "/insert_batch_items")%string body) =
  post_insert_batch body g.
Proof. reflexivity. Qed.

Lemma handle_graph_info g :
  handle g graph_info_request =
  (g, ok (JObj [("order", JNum (Qnat (order g))); ("size", JNum (Qnat (size g)))])).
Proof. reflexivity. Qed.

Lemma all_some_cons {A} (o : option A) l :
  all_some (o :: l) = match o, all_some l with Some x, Some xs => Some (x :: xs) | _, _ => None end.
Proof. reflexivity. Qed.

Lemma all_some_labels vs :
  Forall str_value vs -> all_some (map sent_label vs) = Some (map to_string vs).
Proof.
  induction 1 as [|v vs [x ->] _ IH]; [done|]. cbn [map]. by rewrite all_some_cons, IH.
Qed.

Lemma all_some_edges es :
  Forall edge_value es -> exists bes, all_some (map sent_edge es) = Some bes.
Proof.
  induction 1 as [|e es He _ [bes IH]]; [by exists []|].
  destruct He as (a & b & [->|[n ->]]).
  - exists (mkBatchEdge a b None :: bes). cbn [map]. by rewrite all_some_cons, IH.
  - exists (mkBatchEdge a b (match n with Fin q => Some q | _ => None end) :: bes).
    cbn [map]. rewrite all_some_cons, IH. by destruct n.
Qed.

Lemma map_of_json_str (l : list string) : map of_json (map JStr l) = map Str l.
Proof. by rewrite map_map. Qed.

Lemma sent_edge_of_edge e : sent_edge (of_json (edge_json e)) = Some (batch_of_edge e).
Proof. destruct e as [a b [q|]]; reflexivity. Qed.

Lemma all_some_app {A} (l1 l2 : list (option A)) :
  all_some (l1 ++ l2) =
  match all_some l1, all_some l2 with Some a, Some b => Some (a ++ b) | _, _ => None end.
Proof.
  induction l1 as [|o l1 IH].
  - change ([] ++ l2) with l2. destruct (all_some l2); reflexivity.
  - change ((o :: l1) ++ l2) with (o :: (l1 ++ l2)).
    rewrite !all_some_cons, IH. destruct o, (all_some l1), (all_some l2); done.
Qed.

Lemma all_some_resent (l : list edge) :
  all_some (map sent_edge (map (fun e => of_json (edge_json e)) l)) = Some (map batch_of_edge l).
Proof.
  induction l as [|e l IH]; [done|]. cbn [map]. by rewrite all_some_cons, sent_edge_of_edge, IH.
Qed.

Lemma op_edges_vertices p ls : List.flat_map op_edges (List.filter p (map OpAddVertex ls)) = [].
Proof. induction ls as [|v ls IH]; simpl; [done|]. by destruct (p _). Qed.

Lemma op_edges_resent wt (l : list edge) :
  (forall e, e ∈ l -> weight_ok wt (eweight e) = true) ->
  List.flat_map op_edges (List.filter (accepted wt) (map edge_op (map batch_of_edge l))) = l.
Proof.
  induction l as [|[a b x] l IH]; intros Hl; [done|].
  assert (Hx : weight_ok wt x = true) by exact (Hl (mkEdge a b x) ltac:(constructor)).
  simpl. rewrite Hx. simpl. f_equal. apply IH. intros e He. apply Hl. by constructor.
Qed.

(** Sending back the engine's own edges before a batch appends them again. *)
Lemma insertBatch_resent g ls bes :
  wf g ->
  edges (fst (insertBatch ls (map batch_of_edge (edges g) ++ bes) g)) =
  edges g ++ edges g ++ List.flat_map op_edges (List.filter (accepted (weighted g)) (map edge_op bes)).
Proof.
  intros (_ & _ & Hw). rewrite insertBatch_run_ops.
  destruct (run_ops_lists (map OpAddVertex ls ++ map edge_op (map batch_of_edge (edges g) ++ bes)) g)
    as [_ ->].
  f_equal. rewrite map_app, !List.filter_app, !flat_map_app, op_edges_vertices.
  by rewrite op_edges_resent.
Qed.

(** ** Properties *)

(** C5 (error): asking the degree of a label the engine does not have,
    through the degree form: the engine answers [UnknownVertex] with
    status 404 and keeps its graph; the page shows "Erro ao verificar
    grau: Request failed with status code 404" and keeps the previous
    degree message on screen. *)
Theorem degree_unknown_vertex_ui (w : world) (v : string) :
  st (app w) "degreeVertex" = Str v -> query_safe v = true -> v ∉ vertices (server w) ->
  server (handleCheckDegree w) = server w /\
  st (app (handleCheckDegree w)) "error" =
    Str "Erro ao verificar grau: Request failed with status code 404" /\
  st (app (handleCheckDegree w)) "degreeMessage" = st (app w) "degreeMessage".
Proof.
  intros Hv Hs Hn. unfold handleCheckDegree, send, degree_request, degree_answer, call. rewrite Hv. cbn [to_string].
  rewrite (serve_get _ _ _ _ (degree_target v Hs)).
  unfold get_endpoint. cbn -[degree]. unfold degree. rewrite (has_vertex_false v _ Hn).
  cbn. autorewrite with client_rw. done.
Qed.

Lemma create_step d (w : world) :
  crashed w = false ->
  single_ready (run_events (create_events d) w) /\
  server (run_events (create_events d) w) = reset d false.
Proof.
  intros Hc. unfold create_events.
  rewrite run_events_cons, dispatch_live by done. cbn [on_event].
  rewrite run_events_cons, dispatch_live by done. cbn [on_event].
  rewrite run_events_cons, dispatch_live by done. cbn [on_event].
  unfold handleGraphCreation, send_refresh, create_request, create_answer, call. cbn [app set]. autorewrite with client_rw.
  rewrite serve_post_create.
  replace (Bool (String.eqb (if d then "yes" else "no") "yes")) with (Bool d) by (by destruct d).
  cbn -[st reset fetchGraphInfo].
  unfold fetchGraphInfo, call. cbn [serve engine]. rewrite handle_graph_info.
  cbn -[st reset].
  rewrite dispatch_live by done. cbn [on_event].
  unfold single_ready; cbn [crashed app set emit server]. autorewrite with client_rw.
  split_and!; eauto.
Qed.
Lemma inserts_run (us : list user_insert) (w : world) :
  single_ready w -> weighted (server w) = false ->
  single_ready (run_events (List.flat_map insert_events us) w) /\
  server (run_events (List.flat_map insert_events us) w) = run_ops (map user_op us) (server w).
Proof.
  revert w. induction us as [|u us IH]; intros w Hr Hw; [done|].
  cbn [List.flat_map map]. rewrite run_events_app.
  destruct (insert_step u w Hr Hw) as [Hr1 Hs1].
  destruct (IH _ Hr1) as [Hr2 Hs2].
  { rewrite Hs1, (proj2 (apply_op_mode _ _)). done. }
  split; [done|]. rewrite Hs2, Hs1. reflexivity.
Qed.

Lemma fetchGraphInfo_engine (w : world) :
  fetchGraphInfo w =
  set "graphInfo" (Obj [("order", Num (Fin (Qnat (order (server w)))));
                        ("size", Num (Fin (Qnat (size (server w)))))])
      (mkWorld (app w) (server w) (effects w) (crashed w)).
Proof. unfold fetchGraphInfo, call. cbn [serve engine]. by rewrite handle_graph_info. Qed.

Lemma mount_live (b : graph) : crashed (mount (B := engine) b) = false.
Proof. reflexivity. Qed.

Lemma user_ops_accepted us : List.filter (accepted false) (map user_op us) = map user_op us.
Proof. induction us as [|[v|a b] us IH]; cbn; by rewrite ?IH. Qed.

Lemma user_ops_edges us : length (List.flat_map op_edges (map user_op us)) = countb is_edge_insert us.
Proof.
  induction us as [|[v|a b] us IH]; [done| |]; rewrite countb_cons; cbn -[countb]; lia.
Qed.

(** C6 (functional): creating an unweighted graph and then adding
    vertices and edges one by one through the single-insert form, the
    engine holds exactly the graph those insertions build from an empty
    one, the page does not crash, and "graph info" then shows as order
    the number of distinct labels typed and as size the number of edges
    submitted, whatever the engine held before. *)
Theorem single_inserts_graph_info (b : graph) (d : bool) (us : list user_insert) :
  let w := run_events (create_events d ++ List.flat_map insert_events us ++ [Click BGraphInfo])
             (mount (B := engine) b) in
  server w = run_ops (map user_op us) (reset d false) /\
  crashed w = false /\
  st (app w) "graphInfo" =
    Obj [("order", Num (Fin (Qnat (length (dedup (List.flat_map op_labels (map user_op us)))))));
         ("size", Num (Fin (Qnat (countb is_edge_insert us))))].
Proof.
  intros w. subst w. rewrite !run_events_app.
  destruct (create_step d _ (mount_live b)) as [Hr1 Hs1].
  destruct (inserts_run us _ Hr1) as [Hr2 Hs2]; [by rewrite Hs1|].
  rewrite Hs1 in Hs2. destruct Hr2 as [Hc _].
  rewrite run_events_cons, dispatch_click by done. cbn [click_handler run_events fold_left].
  rewrite fetchGraphInfo_engine. cbn [server crashed app set].
  autorewrite with client_rw. rewrite Hs2.
  destruct (run_ops_from_reset d false (map user_op us)) as (_ & _ & Ho & Hsz & _).
  cbn zeta in Ho, Hsz. rewrite user_ops_accepted in Ho, Hsz.
  by rewrite Ho, Hsz, user_ops_edges.
Qed.

Lemma post_create_wf body g : wf g -> wf (fst (post_create body g)).
Proof. intros Hg. unfold post_create. repeat case_match; cbn [fst]; auto using wf_reset. Qed.

Lemma post_add_vertex_wf body g : wf g -> wf (fst (post_add_vertex body g)).
Proof.
  intros Hg. unfold post_add_vertex. repeat case_match; cbn [fst]; try done.
  apply (apply_op_wf g (OpAddVertex _) Hg).
Qed.

Lemma post_add_edge_wf body g : wf g -> wf (fst (post_add_edge body g)).
Proof.
  intros Hg. unfold post_add_edge. repeat case_match; cbn [fst]; try done.
  match goal with H : addEdge ?a ?b ?w g = Ok ?g' |- _ =>
    pose proof (apply_op_wf g (OpAddEdge a b w) Hg) as Hw; cbn [apply_op] in Hw; by rewrite H in Hw
  end.
Qed.

Lemma post_insert_batch_wf body g : wf g -> wf (fst (post_insert_batch body g)).
Proof.
  intros Hg. unfold post_insert_batch. repeat case_match; cbn [fst]; try done.
  match goal with H : insertBatch ?vs ?es g = (?g', _) |- _ =>
    pose proof (insertBatch_run_ops vs es g) as Hr; rewrite H in Hr; cbn [fst] in Hr; rewrite Hr
  end.
  by apply run_ops_preserves_wf.
Qed.

(** Every answer of the engine keeps its graph well formed. *)
Lemma handle_wf g rq : wf g -> wf (fst (handle g rq)).
Proof.
  intros Hg. unfold handle. destruct (parse_target (rurl rq)) as [[path args]|]; [|done].
  destruct (rmethod rq); [done|].
  repeat (case_match; [first [apply post_create_wf | apply post_add_vertex_wf |
                              apply post_add_edge_wf | apply post_insert_batch_wf]; done|]).
  done.
Qed.

(** C10 (invariant): the engine's graph stays well formed under any use
    of the page: from a well-formed graph at load time, after any
    sequence of user events, the vertices are distinct, every edge
    endpoint is a vertex and every weight fits the mode. *)
Theorem engine_wf_invariant (b : graph) (evs : list event) :
  wf b -> wf (server (run_events evs (mount (B := engine) b))).
Proof. apply (backend_invariant (B := engine) wf handle_wf). Qed.

(** C1 (safety): whatever the engine holds when the page loads and
    whatever the user does, in any order, the page never crashes: both
    list hooks hold arrays at every step, so no state updater throws. *)
Theorem engine_never_crashes (b : graph) (evs : list event) :
  crashed (run_events evs (mount (B := engine) b)) = false.
Proof. apply no_crash. Qed.

(** What [handleBatchInsert] does against the engine, for any batch text. *)
Lemma batch_insert_engine (w : world) :
  let '(vs, es) := parse_lines (to_string (st (app w) "batchData")) ([], []) in
  exists ls bes,
    all_some (map sent_label vs) = Some ls /\ all_some (map sent_edge es) = Some bes /\
    let g' := fst (insertBatch ls bes (server w)) in
    server (handleBatchInsert w) = g' /\
    st (app (handleBatchInsert w)) "vertices" = Arr (map Str (vertices g')) /\
    st (app (handleBatchInsert w)) "edges" = Arr (map (fun e => of_json (edge_json e)) (edges g')) /\
    st (app (handleBatchInsert w)) "graphInfo" =
      Obj [("order", Num (Fin (Qnat (order g')))); ("size", Num (Fin (Qnat (size g'))))].
Proof.
  unfold handleBatchInsert, send_refresh, batch_request, batch_answer.
  destruct (parse_lines _ _) as [vs es] eqn:Hp.
  destruct (parse_lines_shape (to_string (st (app w) "batchData")) ([], []))
    as [Hv He]; [constructor|constructor|]. rewrite Hp in Hv, He. cbn in Hv, He.
  destruct (all_some_edges es He) as [bes Hbes].
  exists (map to_string vs), bes. rewrite (all_some_labels vs Hv).
  split; [done|]. split; [done|].
  unfold call. rewrite serve_post_batch. unfold post_insert_batch.
  destruct (batch_payload_fields vs es) as [H1 H2]. rewrite H1, H2. cbn [json_list].
  cbn [mbind option_bind]. rewrite decode_labels, decode_edges, (all_some_labels vs Hv), Hbes.
  destruct (insertBatch _ _ _) as [g' sk] eqn:Hib. cbn [fst].
  cbn -[insertBatch map json_or_null edge_json handle st fetchGraphInfo].
  unfold fetchGraphInfo, call. cbn [serve engine server].
  rewrite handle_graph_info. cbn -[insertBatch map json_or_null edge_json handle st].
  autorewrite with client_rw. cbn. by rewrite !map_map.
Qed.

(** C2 (refinement): a batch insert from the batch box.  Every item the
    text parser produces is accepted by the engine's payload check; the
    engine applies exactly that batch ([insertBatch]: the labels, then the
    edges, in input order); and the page then holds the engine's complete
    vertex and edge lists (the authoritative view of spec 4.2) and the
    engine's order and size in its info panel. *)
Theorem batch_insert_authoritative (w : world) :
  let '(vs, es) := parse_lines (to_string (st (app w) "batchData")) ([], []) in
  exists ls bes,
    all_some (map sent_label vs) = Some ls /\ all_some (map sent_edge es) = Some bes /\
    let g' := fst (insertBatch ls bes (server w)) in
    server (handleBatchInsert w) = g' /\
    st (app (handleBatchInsert w)) "vertices" = Arr (map Str (vertices g')) /\
    st (app (handleBatchInsert w)) "edges" = Arr (map (fun e => of_json (edge_json e)) (edges g')) /\
    st (app (handleBatchInsert w)) "graphInfo" =
      Obj [("order", Num (Fin (Qnat (order g')))); ("size", Num (Fin (Qnat (size g'))))].
Proof. apply batch_insert_engine. Qed.

(** C32 (error; a doubled space in the batch box): two labels typed with
    two spaces between them, the engine and the page both end up with
    the vertex whose label is the empty string: the loop reads the line
    as an edge to the empty label and adds it to its Set, the engine
    accepts it as a label, and the page adopts the engine's list. *)
Theorem batch_double_space_ui (w : world) (a b : string) :
  label_ok a -> label_ok b -> st (app w) "batchData" = Str (a ++ "  " ++ b) ->
  EmptyString ∈ vertices (server (handleBatchInsert w)) /\
  exists xs, st (app (handleBatchInsert w)) "vertices" = Arr xs /\ Str EmptyString ∈ xs.
Proof.
  intros Ha Hb Hd. pose proof (batch_insert_engine w) as H.
  rewrite Hd in H. cbn [to_string] in H. rewrite parse_double_space in H by done.
  destruct H as (ls & bes & Hl & _ & Hs & Hv & _).
  assert (Hls : ls = [a; EmptyString]).
  { cbn in Hl. destruct Ha as [Ha0 _]. destruct a; [done|]. by injection Hl. }
  subst ls. assert (He : EmptyString ∈ vertices (server (handleBatchInsert w))).
  { rewrite Hs. apply insertBatch_has_vertex. set_solver. }
  split; [done|]. eexists. split; [exact Hv|]. rewrite Hs in He.
  apply list_elem_of_In, in_map, list_elem_of_In, He.
Qed.

(** C3 (safety; a defect of [handleFileUpload]): when the page shows the
    engine's lists (as after a batch insert) and a file is chosen,
    uploading it posts the page's whole edge list together with the
    file's edges, so the engine, which keeps multi-edges, ends up with
    every edge it had twice, followed by the file's edges; and the info
    panel is not refreshed. *)
Theorem file_upload_resends_edges (w : world) (t : string) :
  wf (server w) ->
  st (app w) "vertices" = Arr (map Str (vertices (server w))) ->
  st (app w) "edges" = Arr (map (fun e => of_json (edge_json e)) (edges (server w))) ->
  st (app w) "selectedFile" = file_object t ->
  exists new,
    edges (server (handleFileUpload w)) = edges (server w) ++ edges (server w) ++ new /\
    st (app (handleFileUpload w)) "graphInfo" = st (app w) "graphInfo".
Proof.
  intros Hwf Hv He Hf. unfold handleFileUpload, upload_onload, send, upload_answer. rewrite Hf, Hv, He. cbn [truthy negb set_items nullish items].
  set (es0 := map (fun e => of_json (edge_json e)) (edges (server w))).
  set (vs0 := set_of_list (map Str (vertices (server w)))).
  destruct (parse_lines (file_text (file_object t)) (vs0, es0)) as [vs es] eqn:Hp.
  pose proof (parse_lines_edges (file_text (file_object t)) vs0 [] es0) as Hes.
  rewrite Hp in Hes. cbn [snd] in Hes.
  destruct (parse_lines_shape (file_text (file_object t)) (vs0, es0)) as [Hsv _].
  { apply set_of_list_Forall, Forall_forall. intros x Hx.
    apply list_elem_of_In, in_map_iff in Hx as (l & <- & _). by eexists. }
  { apply Forall_forall. intros x Hx. apply list_elem_of_In, in_map_iff in Hx as (e & <- & _).
    destruct e as [a b [q|]]; do 2 eexists; eauto. }
  destruct (parse_lines_shape (file_text (file_object t)) ([], [])) as [_ Hse];
    [constructor|constructor|].
  rewrite Hp in Hsv. cbn [fst] in Hsv.
  destruct (all_some_edges _ Hse) as [bes Hbes].
  unfold call. cbn [app server]. rewrite serve_post_batch. unfold post_insert_batch.
  destruct (batch_payload_fields vs es) as [H1 H2]. rewrite H1, H2. cbn [json_list mbind option_bind].
  rewrite decode_labels, decode_edges, (all_some_labels vs Hsv), Hes, map_app, all_some_app.
  unfold es0. rewrite all_some_resent, Hbes.
  pose proof (insertBatch_resent (server w) (map to_string vs) bes Hwf) as Hr.
  destruct (insertBatch _ _ _) as [g' sk] eqn:Hib. cbn [fst] in Hr.
  eexists. split.
  - cbn -[handle insertBatch]. exact Hr.
  - cbn -[handle insertBatch st]. by autorewrite with client_rw.
Qed.

(** C4 (functional; the page and the engine disagree): adding through
    the single-insert form a label the engine already has leaves the
    engine's graph as it was ([addVertex] is idempotent), while the page
    appends the label to its vertex list once more. *)
Theorem add_vertex_existing_label (w : world) (v : string) (xs : list value) :
  st (app w) "newVertex" = Str v -> v ∈ vertices (server w) -> st (app w) "vertices" = Arr xs ->
  server (handleAddVertex w) = server w /\
  st (app (handleAddVertex w)) "vertices" = Arr (xs ++ [Str v]) /\
  st (app (handleAddVertex w)) "newVertex" = Str "".
Proof.
  intros Hn Hv Hxs. unfold handleAddVertex, send, add_vertex_request, add_vertex_answer, call. rewrite Hn, serve_post_add_vertex.
  cbn -[addVertex]. rewrite (addVertex_present v _ Hv). unfold push. cbn [app].
  rewrite Hxs. cbn. by autorewrite with client_rw.
Qed.

(** C7 (functional): the neighbour query of the page.  For a label the
    query string carries unchanged, the page lists exactly the engine's
    [neighbors] (each vertex one edge away, once, in insertion order) and
    clears the error; for a label the engine does not have it shows the
    "vertex does not exist" text and an empty list.  The engine's graph
    is not changed. *)
Theorem check_adjacency_ui (w : world) (v : string) :
  st (app w) "adjVertex" = Str v -> query_safe v = true ->
  server (handleCheckAdjacency w) = server w /\
  st (app (handleCheckAdjacency w)) "adjVertices" =
    (if has_vertex v (server w) then Arr (map Str (dedup (successors (server w) v))) else Arr []) /\
  st (app (handleCheckAdjacency w)) "error" =
    (if has_vertex v (server w) then Null else Str adjacency_error_text).
Proof.
  intros Hv Hs. unfold handleCheckAdjacency, send, adjacency_request, adjacency_answer. rewrite Hv. cbn [to_string].
  rewrite (handle_get_world w _ _ _ (adjacency_target v Hs)).
  unfold get_endpoint. cbn -[neighbors]. unfold neighbors.
  destruct (has_vertex v (server w)); cbn; autorewrite with client_rw; by rewrite ?map_map.
Qed.

(** C8 (functional): in an undirected graph, for two labels the engine
    has, the page's "verify adjacency" answer is the boolean that says
    whether an edge joins them, in either direction; the engine's graph
    is not changed, and swapping the two inputs shows the same answer. *)
Theorem verify_adjacency_ui (w : world) (a b : string) :
  directed (server w) = false -> query_safe a = true -> query_safe b = true ->
  st (app w) "vertex1" = Str a -> st (app w) "vertex2" = Str b ->
  a ∈ vertices (server w) -> b ∈ vertices (server w) ->
  server (handleVerifyAdjacency w) = server w /\
  (exists r, st (app (handleVerifyAdjacency w)) "adjResult" = Bool r /\
     (r = true <-> exists e, e ∈ edges (server w) /\
                             ((efrom e = a /\ eto e = b) \/ (efrom e = b /\ eto e = a)))) /\
  st (app (handleVerifyAdjacency (set "vertex2" (Str a) (set "vertex1" (Str b) w)))) "adjResult" =
  st (app (handleVerifyAdjacency w)) "adjResult".
Proof.
  intros Hd Ha Hb H1 H2 Hav Hbv. unfold handleVerifyAdjacency, send, verify_request, verify_answer.
  cbn [app set server]. rewrite H1, H2. autorewrite with client_rw. cbn [to_string].
  rewrite (handle_get_world _ _ _ _ (verify_adj_target a b Ha Hb)).
  rewrite (handle_get_world _ _ _ _ (verify_adj_target b a Hb Ha)).
  unfold get_endpoint. cbn -[areAdjacent].
  pose proof (areAdjacent_undirected_sym a b (server w) Hd) as Hsym.
  unfold areAdjacent in *. rewrite (proj2 (has_vertex_spec a _) Hav), (proj2 (has_vertex_spec b _) Hbv) in *.
  rewrite Hd in *. cbn in Hsym |- *. autorewrite with client_rw. rewrite Hsym.
  split_and!; [done| |done]. eexists. split; [reflexivity|].
  split.
  - intros Hx. apply existsb_exists in Hx as (e & He & Hj). exists e.
    split; [by apply list_elem_of_In|]. unfold joins in Hj. cbn in Hj.
    apply orb_true_iff in Hj as [Hj|Hj]; apply bool_decide_eq_true in Hj; tauto.
  - intros (e & He & Hj). apply existsb_exists. exists e.
    split; [by apply list_elem_of_In in He|]. unfold joins. cbn [negb andb orb]. apply orb_true_iff.
    destruct Hj as [Hj|Hj]; [right|left]; by apply bool_decide_eq_true.
Qed.

(** C9 (functional; BFS optimality seen on the page): on an unweighted
    graph, for two labels the engine has, the shortest-path button shows
    a walk from the start to the end with no shorter walk between them,
    and as length its number of edges; when the end cannot be reached the
    engine answers 404 and the page keeps the previous path and length.
    The engine's graph is not changed. *)
Theorem shortest_path_ui_unweighted (w : world) (a b : string) :
  wf (server w) -> weighted (server w) = false ->
  query_safe a = true -> query_safe b = true ->
  st (app w) "pathStart" = Str a -> st (app w) "pathEnd" = Str b ->
  a ∈ vertices (server w) -> b ∈ vertices (server w) ->
  server (handleFindShortestPath w) = server w /\
  ((exists m, reach (server w) a m b) ->
   exists path,
     st (app (handleFindShortestPath w)) "shortestPath" = Arr (map Str path) /\
     st (app (handleFindShortestPath w)) "shortestPathLength" = Num (Fin (Qnat (length path - 1))) /\
     shortest_entry (server w) a b (rev path)) /\
  ((~ exists m, reach (server w) a m b) ->
   st (app (handleFindShortestPath w)) "shortestPath" = st (app w) "shortestPath" /\
   st (app (handleFindShortestPath w)) "shortestPathLength" = st (app w) "shortestPathLength").
Proof.
  intros Hwf Hw Ha Hb Hs Ht Hav Hbv. unfold handleFindShortestPath, send, path_request, path_answer. rewrite Hs, Ht. cbn [to_string].
  rewrite (handle_get_world w _ _ _ (shortest_path_target a b Ha Hb)).
  pose proof (shortestPath_unweighted _ a b Hwf Hw Hav Hbv) as Hsp.
  unfold get_endpoint. cbn -[shortestPath].
  destruct (shortestPath a b (server w)) as [[path [n|q]]|e]; [|done|].
  - destruct Hsp as [Hent ->]. cbn. autorewrite with client_rw. rewrite !map_map.
    split_and!; [done| |].
    + intros _. exists path. by split_and!.
    + intros Hn. exfalso. apply Hn. destruct Hent as (Hh & Hwk & _).
      destruct (rev path) as [|v p] eqn:E; [done|]. injection Hh as ->. eexists. by apply rwalk_reach in Hwk.
  - destruct Hsp as [-> Hn]. cbn. autorewrite with client_rw. split_and!; [done| |done].
    intros Hr. by destruct (Hn Hr).
Qed.

(** C21 (functional; Dijkstra's optimality seen on the page): on a
    weighted graph without negative weights, for two labels the engine
    has, the shortest-path button shows a walk from the start to the end
    whose total weight, shown as its length, no other walk beats; when
    the end cannot be reached the page keeps the previous path and
    length.  The engine's graph is not changed. *)
Theorem shortest_path_ui_weighted (w : world) (a b : string) :
  wf (server w) -> weighted (server w) = true -> has_negative_weight (server w) = false ->
  query_safe a = true -> query_safe b = true ->
  st (app w) "pathStart" = Str a -> st (app w) "pathEnd" = Str b ->
  a ∈ vertices (server w) -> b ∈ vertices (server w) ->
  server (handleFindShortestPath w) = server w /\
  ((exists c p, wwalk (server w) a b c p) ->
   exists path c,
     st (app (handleFindShortestPath w)) "shortestPath" = Arr (map Str path) /\
     st (app (handleFindShortestPath w)) "shortestPathLength" = Num (Fin c) /\
     wwalk (server w) a b c (rev path) /\
     forall c' p', wwalk (server w) a b c' p' -> (c <= c')%Q) /\
  ((forall c p, ~ wwalk (server w) a b c p) ->
   st (app (handleFindShortestPath w)) "shortestPath" = st (app w) "shortestPath" /\
   st (app (handleFindShortestPath w)) "shortestPathLength" = st (app w) "shortestPathLength").
Proof.
  intros Hwf Hw Hneg Ha Hb Hs Ht Hav Hbv.
  unfold handleFindShortestPath, send, path_request, path_answer. rewrite Hs, Ht. cbn [to_string].
  rewrite (handle_get_world w _ _ _ (shortest_path_target a b Ha Hb)).
  pose proof (shortestPath_weighted _ a b Hwf Hw Hneg Hav Hbv) as Hsp.
  unfold get_endpoint. cbn -[shortestPath].
  destruct (shortestPath a b (server w)) as [[path [n|q]]|e]; [done| |].
  - destruct Hsp as (p & -> & Hwk & Hopt). cbn. autorewrite with client_rw. rewrite !map_map.
    split_and!; [done| |].
    + intros _. exists (rev p), q. rewrite rev_involutive. by split_and!.
    + intros Hn. by destruct (Hn q p).
  - destruct Hsp as [-> Hn]. cbn. autorewrite with client_rw. split_and!; [done| |done].
    intros (c & p & Hr). by destruct (Hn c p).
Qed.

(** C23 (error; the weight of [handleAddEdge]): when the page's
    "weighted" radio is on, the weight sent is [parseFloat] of the typed
    text.  If the engine's graph is weighted and the text is no number
    (left blank, for instance), [JSON.stringify] sends [null]; if the
    graph is unweighted (the radio was switched after the graph was
    created), a number is sent.  Either way the engine refuses the edge
    with 400 and is unchanged, and the page only logs the failure to the
    console: its lists and inputs stay as they were. *)
Theorem add_edge_weight_mismatch_ui (w : world) (a b : string) :
  st (app w) "startVertex" = Str a -> st (app w) "endVertex" = Str b ->
  st (app w) "weighted" = Bool true ->
  (weighted (server w) = true /\ parseFloat (to_string (st (app w) "weight")) = NaN) \/
  (weighted (server w) = false /\ exists q, parseFloat (to_string (st (app w) "weight")) = Fin q) ->
  server (handleAddEdge w) = server w /\ app (handleAddEdge w) = app w /\
  effects (handleAddEdge w) =
    effects w ++ [ConsoleError "Erro ao adicionar aresta:" "Request failed with status code 400"].
Proof.
  intros Ha Hb Hw Hm. unfold handleAddEdge, send, add_edge_request, add_edge_answer, call, edge_weight.
  rewrite Ha, Hb, Hw, serve_post_add_edge. cbn [truthy].
  destruct Hm as [[Hg Hn]|[Hg [q Hq]]]; [rewrite Hn|rewrite Hq]; cbn -[addEdge st];
    unfold addEdge; rewrite Hg; cbn; by split_and!.
Qed.

(** C24 (equivalence; the Eulerian button on an undirected graph): the
    page shows "circuit" exactly when the vertices of nonzero degree are
    pairwise joined by walks and every degree is even, and "path"
    exactly when they are joined and exactly two degrees are odd (the
    spec's characterization); the engine's graph is not changed. *)
Theorem eulerian_ui_undirected (w : world) :
  wf (server w) -> directed (server w) = false ->
  server (handleCheckEulerian w) = server w /\
  (st (app (handleCheckEulerian w)) "eulerianResult" = Str "circuit" <->
   connected_active (server w) /\
   forall v, v ∈ vertices (server w) -> Nat.even (total_degree (server w) v) = true) /\
  (st (app (handleCheckEulerian w)) "eulerianResult" = Str "path" <->
   connected_active (server w) /\
   countb (fun v => Nat.odd (total_degree (server w) v)) (vertices (server w)) = 2).
Proof.
  intros Hwf Hd. unfold handleCheckEulerian, send, eulerian_request, eulerian_answer.
  rewrite (handle_get_world w (base_url ++ "/check_eulerian")%string "/check_eulerian" [] eq_refl).
  pose proof (eulerian_undirected _ Hwf Hd) as [Hc Hp]. rewrite <- Hc, <- Hp.
  unfold get_endpoint. cbn -[eulerian st]. autorewrite with client_rw.
  split; [done|]. destruct (eulerian (server w)); cbn; split; split; congruence.
Qed.

(** C25 (equivalence; the Eulerian button on a directed graph): the page
    shows "circuit" exactly when every vertex has as many edges in as
    out and every two vertices of nonzero degree are joined by walks both
    ways (the spec's strong connectivity); the engine's graph is not
    changed. *)
Theorem eulerian_ui_directed (w : world) :
  wf (server w) -> directed (server w) = true ->
  server (handleCheckEulerian w) = server w /\
  (st (app (handleCheckEulerian w)) "eulerianResult" = Str "circuit" <->
   (forall v, v ∈ vertices (server w) -> out_degree (server w) v = in_degree (server w) v) /\
   connected_active (server w)).
Proof.
  intros Hwf Hd. unfold handleCheckEulerian, send, eulerian_request, eulerian_answer.
  rewrite (handle_get_world w (base_url ++ "/check_eulerian")%string "/check_eulerian" [] eq_refl).
  rewrite <- (eulerian_directed_circuit _ Hwf Hd).
  unfold get_endpoint. cbn -[eulerian st]. autorewrite with client_rw.
  split; [done|]. destruct (eulerian (server w)); cbn; split; congruence.
Qed.

(** C27 (error; labels pasted into the query string): when the degree
    input holds a label [a] followed by [&] or [#] and anything else, the
    engine is asked about [a] alone.  The page ends exactly as if [a] had
    been typed (same engine, hooks and log), except the input still
    shows the whole text: the degree of another vertex is shown for a
    label the engine may not have. *)
Theorem degree_query_cut (w : world) (a r : string) (c : ascii) :
  st (app w) "degreeVertex" = Str (a ++ String c r) -> query_safe a = true ->
  c = "&"%char \/ c = "#"%char ->
  handleCheckDegree w =
    set "degreeVertex" (Str (a ++ String c r)) (handleCheckDegree (set "degreeVertex" (Str a) w)).
Proof.
  intros Hv Ha Hc. destruct (degree_target_cut a c r Ha Hc) as [rest Hrest].
  unfold handleCheckDegree, send, degree_request. rewrite Hv.
  cbn [app set]. rewrite st_insert_eq. cbn [to_string].
  rewrite (handle_get_world w _ _ _ Hrest), (handle_get_world (set "degreeVertex" (Str a) w) _ _ _ (degree_target a Ha)).
  rewrite get_degree_first. cbn [app server effects crashed set].
  change (mkWorld (<["degreeVertex" := Str a]> (app w)) (server w) (effects w) (crashed w))
    with (set "degreeVertex" (Str a) (mkWorld (app w) (server w) (effects w) (crashed w))).
  rewrite world_eta, degree_answer_set, set_set, <- degree_answer_set, set_st by first [exact Hv|discriminate].
  reflexivity.
Qed.

(** C31 (error; a negative weight): the engine accepts negative weights
    on a weighted graph, but then refuses every shortest-path query
    (spec 4.3, [NegativeWeight], status 400).  The shortest-path button
    only logs the error: the engine and every hook are unchanged, the
    previous path and length stay on screen. *)
Theorem shortest_path_negative_ui (w : world) (a b : string) :
  weighted (server w) = true -> has_negative_weight (server w) = true ->
  query_safe a = true -> query_safe b = true ->
  st (app w) "pathStart" = Str a -> st (app w) "pathEnd" = Str b ->
  a ∈ vertices (server w) -> b ∈ vertices (server w) ->
  handleFindShortestPath w =
    emit (ConsoleError "Erro ao encontrar o caminho mais curto:" "Request failed with status code 400") w.
Proof.
  intros Hw Hneg Ha Hb Hs Ht Hav Hbv. unfold handleFindShortestPath, send, path_request. rewrite Hs, Ht.
  cbn [to_string]. rewrite (handle_get_world w _ _ _ (shortest_path_target a b Ha Hb)), world_eta.
  unfold get_endpoint. cbn -[shortestPath]. unfold shortestPath.
  rewrite (proj2 (has_vertex_spec a _) Hav), (proj2 (has_vertex_spec b _) Hbv), Hw, Hneg. reflexivity.
Qed.

(** ** Witnesses *)

Lemma degree_unknown_vertex_ui_witness :
  st (app ex_degree_world) "degreeVertex" = Str "Z" /\ query_safe "Z" = true /\
  "Z" ∉ vertices (server ex_degree_world) /\
  server (handleCheckDegree ex_degree_world) = server ex_degree_world /\
  st (app (handleCheckDegree ex_degree_world)) "error" =
    Str "Erro ao verificar grau: Request failed with status code 404" /\
  st (app (handleCheckDegree ex_degree_world)) "degreeMessage" =
    st (app ex_degree_world) "degreeMessage".
Proof.
  assert (H1 : st (app ex_degree_world) "degreeVertex" = Str "Z") by reflexivity.
  assert (H2 : query_safe "Z" = true) by reflexivity.
  assert (H3 : "Z" ∉ vertices (server ex_degree_world)) by decide_by_eval.
  split; [exact H1|]. split; [exact H2|]. split; [exact H3|].
  exact (degree_unknown_vertex_ui ex_degree_world "Z" H1 H2 H3).
Defined.

Lemma file_upload_resends_edges_witness :
  wf (server ex_upload_world) /\
  st (app ex_upload_world) "vertices" = Arr (map Str (vertices (server ex_upload_world))) /\
  st (app ex_upload_world) "edges" =
    Arr (map (fun e => of_json (edge_json e)) (edges (server ex_upload_world))) /\
  st (app ex_upload_world) "selectedFile" = file_object "C D" /\
  exists new,
    edges (server (handleFileUpload ex_upload_world)) =
      edges (server ex_upload_world) ++ edges (server ex_upload_world) ++ new /\
    st (app (handleFileUpload ex_upload_world)) "graphInfo" = st (app ex_upload_world) "graphInfo".
Proof.
  assert (H1 : wf (server ex_upload_world)) by (apply wfb_sound; vm_compute; reflexivity).
  assert (H2 : st (app ex_upload_world) "vertices" = Arr (map Str (vertices (server ex_upload_world))))
    by (vm_compute; reflexivity).
  assert (H3 : st (app ex_upload_world) "edges" =
    Arr (map (fun e => of_json (edge_json e)) (edges (server ex_upload_world)))) by (vm_compute; reflexivity).
  assert (H4 : st (app ex_upload_world) "selectedFile" = file_object "C D") by (vm_compute; reflexivity).
  split; [exact H1|]. split; [exact H2|]. split; [exact H3|]. split; [exact H4|].
  exact (file_upload_resends_edges ex_upload_world "C D" H1 H2 H3 H4).
Defined.

Lemma add_vertex_existing_label_witness :
  st (app ex_vertex_world) "newVertex" = Str "A" /\ "A" ∈ vertices (server ex_vertex_world) /\
  st (app ex_vertex_world) "vertices" = Arr [Str "A"] /\
  server (handleAddVertex ex_vertex_world) = server ex_vertex_world /\
  st (app (handleAddVertex ex_vertex_world)) "vertices" = Arr ([Str "A"] ++ [Str "A"]) /\
  st (app (handleAddVertex ex_vertex_world)) "newVertex" = Str "".
Proof.
  assert (H1 : st (app ex_vertex_world) "newVertex" = Str "A") by (vm_compute; reflexivity).
  assert (H2 : "A" ∈ vertices (server ex_vertex_world)) by decide_by_eval.
  assert (H3 : st (app ex_vertex_world) "vertices" = Arr [Str "A"]) by (vm_compute; reflexivity).
  split; [exact H1|]. split; [exact H2|]. split; [exact H3|].
  exact (add_vertex_existing_label ex_vertex_world "A" [Str "A"] H1 H2 H3).
Defined.

Lemma check_adjacency_ui_witness :
  st (app ex_triangle_world) "adjVertex" = Str "A" /\ query_safe "A" = true /\
  server (handleCheckAdjacency ex_triangle_world) = server ex_triangle_world /\
  st (app (handleCheckAdjacency ex_triangle_world)) "adjVertices" =
    (if has_vertex "A" (server ex_triangle_world)
     then Arr (map Str (dedup (successors (server ex_triangle_world) "A"))) else Arr []) /\
  st (app (handleCheckAdjacency ex_triangle_world)) "error" =
    (if has_vertex "A" (server ex_triangle_world) then Null else Str adjacency_error_text).
Proof.
  assert (H1 : st (app ex_triangle_world) "adjVertex" = Str "A") by (vm_compute; reflexivity).
  assert (H2 : query_safe "A" = true) by reflexivity.
  split; [exact H1|]. split; [exact H2|].
  exact (check_adjacency_ui ex_triangle_world "A" H1 H2).
Defined.

Lemma verify_adjacency_ui_witness :
  directed (server ex_triangle_world) = false /\ query_safe "A" = true /\ query_safe "C" = true /\
  st (app ex_triangle_world) "vertex1" = Str "A" /\ st (app ex_triangle_world) "vertex2" = Str "C" /\
  "A" ∈ vertices (server ex_triangle_world) /\ "C" ∈ vertices (server ex_triangle_world) /\
  st (app (handleVerifyAdjacency ex_triangle_world)) "adjResult" = Bool true.
Proof.
  assert (H1 : directed (server ex_triangle_world) = false) by (vm_compute; reflexivity).
  assert (H2 : query_safe "A" = true) by reflexivity.
  assert (H3 : query_safe "C" = true) by reflexivity.
  assert (H4 : st (app ex_triangle_world) "vertex1" = Str "A") by (vm_compute; reflexivity).
  assert (H5 : st (app ex_triangle_world) "vertex2" = Str "C") by (vm_compute; reflexivity).
  assert (H6 : "A" ∈ vertices (server ex_triangle_world)) by decide_by_eval.
  assert (H7 : "C" ∈ vertices (server ex_triangle_world)) by decide_by_eval.
  destruct (verify_adjacency_ui ex_triangle_world "A" "C" H1 H2 H3 H4 H5 H6 H7) as (_ & (r & Hr & Hiff) & _).
  split_and!; [exact H1|exact H2|exact H3|exact H4|exact H5|exact H6|exact H7|].
  rewrite Hr. f_equal. apply Hiff.
  exists (mkEdge "A" "C" None). split; [decide_by_eval|]. left. split; reflexivity.
Defined.

Lemma shortest_path_ui_unweighted_witness :
  wf (server ex_path_world) /\ weighted (server ex_path_world) = false /\
  query_safe "A" = true /\ query_safe "D" = true /\
  st (app ex_path_world) "pathStart" = Str "A" /\ st (app ex_path_world) "pathEnd" = Str "D" /\
  "A" ∈ vertices (server ex_path_world) /\ "D" ∈ vertices (server ex_path_world) /\
  server (handleFindShortestPath ex_path_world) = server ex_path_world /\
  ((exists m, reach (server ex_path_world) "A" m "D") ->
   exists path,
     st (app (handleFindShortestPath ex_path_world)) "shortestPath" = Arr (map Str path) /\
     st (app (handleFindShortestPath ex_path_world)) "shortestPathLength" =
       Num (Fin (Qnat (length path - 1))) /\
     shortest_entry (server ex_path_world) "A" "D" (rev path)) /\
  ((~ exists m, reach (server ex_path_world) "A" m "D") ->
   st (app (handleFindShortestPath ex_path_world)) "shortestPath" =
     st (app ex_path_world) "shortestPath" /\
   st (app (handleFindShortestPath ex_path_world)) "shortestPathLength" =
     st (app ex_path_world) "shortestPathLength").
Proof.
  assert (H1 : wf (server ex_path_world)) by (apply wfb_sound; vm_compute; reflexivity).
  assert (H2 : weighted (server ex_path_world) = false) by (vm_compute; reflexivity).
  assert (H3 : query_safe "A" = true) by reflexivity.
  assert (H4 : query_safe "D" = true) by reflexivity.
  assert (H5 : st (app ex_path_world) "pathStart" = Str "A") by (vm_compute; reflexivity).
  assert (H6 : st (app ex_path_world) "pathEnd" = Str "D") by (vm_compute; reflexivity).
  assert (H7 : "A" ∈ vertices (server ex_path_world)) by decide_by_eval.
  assert (H8 : "D" ∈ vertices (server ex_path_world)) by decide_by_eval.
  do 8 (split; [assumption|]).
  exact (shortest_path_ui_unweighted ex_path_world "A" "D" H1 H2 H3 H4 H5 H6 H7 H8).
Defined.

Lemma shortest_path_ui_weighted_witness :
  wf (server ex_weighted_world) /\ weighted (server ex_weighted_world) = true /\
  has_negative_weight (server ex_weighted_world) = false /\
  query_safe "A" = true /\ query_safe "C" = true /\
  st (app ex_weighted_world) "pathStart" = Str "A" /\ st (app ex_weighted_world) "pathEnd" = Str "C" /\
  "A" ∈ vertices (server ex_weighted_world) /\ "C" ∈ vertices (server ex_weighted_world) /\
  server (handleFindShortestPath ex_weighted_world) = server ex_weighted_world /\
  ((exists c p, wwalk (server ex_weighted_world) "A" "C" c p) ->
   exists path c,
     st (app (handleFindShortestPath ex_weighted_world)) "shortestPath" = Arr (map Str path) /\
     st (app (handleFindShortestPath ex_weighted_world)) "shortestPathLength" = Num (Fin c) /\
     wwalk (server ex_weighted_world) "A" "C" c (rev path) /\
     forall c' p', wwalk (server ex_weighted_world) "A" "C" c' p' -> (c <= c')%Q) /\
  ((forall c p, ~ wwalk (server ex_weighted_world) "A" "C" c p) ->
   st (app (handleFindShortestPath ex_weighted_world)) "shortestPath" =
     st (app ex_weighted_world) "shortestPath" /\
   st (app (handleFindShortestPath ex_weighted_world)) "shortestPathLength" =
     st (app ex_weighted_world) "shortestPathLength").
Proof.
  assert (H1 : wf (server ex_weighted_world)) by (apply wfb_sound; vm_compute; reflexivity).
  assert (H2 : weighted (server ex_weighted_world) = true) by (vm_compute; reflexivity).
  assert (H3 : has_negative_weight (server ex_weighted_world) = false) by (vm_compute; reflexivity).
  assert (H4 : query_safe "A" = true) by reflexivity.
  assert (H5 : query_safe "C" = true) by reflexivity.
  assert (H6 : st (app ex_weighted_world) "pathStart" = Str "A") by (vm_compute; reflexivity).
  assert (H7 : st (app ex_weighted_world) "pathEnd" = Str "C") by (vm_compute; reflexivity).
  assert (H8 : "A" ∈ vertices (server ex_weighted_world)) by decide_by_eval.
  assert (H9 : "C" ∈ vertices (server ex_weighted_world)) by decide_by_eval.
  do 9 (split; [assumption|]).
  exact (shortest_path_ui_weighted ex_weighted_world "A" "C" H1 H2 H3 H4 H5 H6 H7 H8 H9).
Defined.

Lemma add_edge_weight_mismatch_ui_witness :
  st (app ex_mode_world) "startVertex" = Str "A" /\ st (app ex_mode_world) "endVertex" = Str "B" /\
  st (app ex_mode_world) "weighted" = Bool true /\
  ((weighted (server ex_mode_world) = true /\ parseFloat (to_string (st (app ex_mode_world) "weight")) = NaN) \/
   (weighted (server ex_mode_world) = false /\
    exists q, parseFloat (to_string (st (app ex_mode_world) "weight")) = Fin q)) /\
  server (handleAddEdge ex_mode_world) = server ex_mode_world /\
  app (handleAddEdge ex_mode_world) = app ex_mode_world /\
  effects (handleAddEdge ex_mode_world) =
    effects ex_mode_world ++ [ConsoleError "Erro ao adicionar aresta:" "Request failed with status code 400"].
Proof.
  assert (H1 : st (app ex_mode_world) "startVertex" = Str "A") by (vm_compute; reflexivity).
  assert (H2 : st (app ex_mode_world) "endVertex" = Str "B") by (vm_compute; reflexivity).
  assert (H3 : st (app ex_mode_world) "weighted" = Bool true) by (vm_compute; reflexivity).
  assert (H4 : (weighted (server ex_mode_world) = true /\
                parseFloat (to_string (st (app ex_mode_world) "weight")) = NaN) \/
               (weighted (server ex_mode_world) = false /\
                exists q, parseFloat (to_string (st (app ex_mode_world) "weight")) = Fin q)).
  { right. split; [vm_compute; reflexivity|]. eexists. vm_compute. reflexivity. }
  do 4 (split; [assumption|]).
  exact (add_edge_weight_mismatch_ui ex_mode_world "A" "B" H1 H2 H3 H4).
Defined.

Lemma eulerian_ui_undirected_witness :
  wf (server ex_triangle_world) /\ directed (server ex_triangle_world) = false /\
  server (handleCheckEulerian ex_triangle_world) = server ex_triangle_world /\
  (st (app (handleCheckEulerian ex_triangle_world)) "eulerianResult" = Str "circuit" <->
   connected_active (server ex_triangle_world) /\
   forall v, v ∈ vertices (server ex_triangle_world) ->
     Nat.even (total_degree (server ex_triangle_world) v) = true) /\
  (st (app (handleCheckEulerian ex_triangle_world)) "eulerianResult" = Str "path" <->
   connected_active (server ex_triangle_world) /\
   countb (fun v => Nat.odd (total_degree (server ex_triangle_world) v))
     (vertices (server ex_triangle_world)) = 2).
Proof.
  assert (H1 : wf (server ex_triangle_world)) by (apply wfb_sound; vm_compute; reflexivity).
  assert (H2 : directed (server ex_triangle_world) = false) by (vm_compute; reflexivity).
  split; [exact H1|]. split; [exact H2|].
  exact (eulerian_ui_undirected ex_triangle_world H1 H2).
Defined.

Lemma eulerian_ui_directed_witness :
  wf (server ex_directed_world) /\ directed (server ex_directed_world) = true /\
  server (handleCheckEulerian ex_directed_world) = server ex_directed_world /\
  (st (app (handleCheckEulerian ex_directed_world)) "eulerianResult" = Str "circuit" <->
   (forall v, v ∈ vertices (server ex_directed_world) ->
      out_degree (server ex_directed_world) v = in_degree (server ex_directed_world) v) /\
   connected_active (server ex_directed_world)).
Proof.
  assert (H1 : wf (server ex_directed_world)) by (apply wfb_sound; vm_compute; reflexivity).
  assert (H2 : directed (server ex_directed_world) = true) by (vm_compute; reflexivity).
  split; [exact H1|]. split; [exact H2|].
  exact (eulerian_ui_directed ex_directed_world H1 H2).
Defined.

Lemma engine_wf_invariant_witness :
  wf initial_graph /\
  wf (server (run_events [TypeText FBatchData "A B"; Click BBatchInsert; ChooseInsertMode "single";
                          TypeText FNewVertex "C"; Click BAddVertex]
                (mount (B := engine) initial_graph))).
Proof.
  assert (H : wf initial_graph) by apply wf_reset.
  split; [exact H|]. exact (engine_wf_invariant initial_graph _ H).
Defined.


Lemma degree_query_cut_witness :
  st (app ex_cut_world) "degreeVertex" = Str ("A" ++ String "&" "B") /\ query_safe "A" = true /\
  handleCheckDegree ex_cut_world =
    set "degreeVertex" (Str ("A" ++ String "&" "B")) (handleCheckDegree (set "degreeVertex" (Str "A") ex_cut_world)) /\
  "A&B" ∉ vertices (server ex_cut_world) /\
  st (app (handleCheckDegree ex_cut_world)) "degreeMessage" = Str "Degree of A: 1".
Proof.
  assert (H1 : st (app ex_cut_world) "degreeVertex" = Str ("A" ++ String "&" "B")) by reflexivity.
  assert (H2 : query_safe "A" = true) by reflexivity.
  pose proof (degree_query_cut ex_cut_world "A" "B" "&" H1 H2 (or_introl eq_refl)) as H.
  split_and!; [exact H1|exact H2|exact H|decide_by_eval|vm_compute; reflexivity].
Defined.


Lemma shortest_path_negative_ui_witness :
  weighted (server ex_negative_world) = true /\ has_negative_weight (server ex_negative_world) = true /\
  handleFindShortestPath ex_negative_world =
    emit (ConsoleError "Erro ao encontrar o caminho mais curto:" "Request failed with status code 400")
      ex_negative_world.
Proof.
  assert (Hw : weighted (server ex_negative_world) = true) by reflexivity.
  assert (Hn : has_negative_weight (server ex_negative_world) = true) by (vm_compute; reflexivity).
  assert (Ha : "A" ∈ vertices (server ex_negative_world)) by decide_by_eval.
  assert (Hb : "B" ∈ vertices (server ex_negative_world)) by decide_by_eval.
  split_and!; [exact Hw|exact Hn|].
  exact (shortest_path_negative_ui ex_negative_world "A" "B" Hw Hn eq_refl eq_refl eq_refl eq_refl Ha Hb).
Defined.

Lemma batch_double_space_ui_witness :
  label_ok "A" /\ label_ok "B" /\
  st (app ex_double_space_world) "batchData" = Str ("A" ++ "  " ++ "B") /\
  EmptyString ∈ vertices (server (handleBatchInsert ex_double_space_world)) /\
  exists xs, st (app (handleBatchInsert ex_double_space_world)) "vertices" = Arr xs /\ Str EmptyString ∈ xs.
Proof.
  assert (Ha : label_ok "A") by (split; [done|reflexivity]).
  assert (Hb : label_ok "B") by (split; [done|reflexivity]).
  assert (Hd : st (app ex_double_space_world) "batchData" = Str ("A" ++ "  " ++ "B")) by reflexivity.
  split; [exact Ha|]. split; [exact Hb|]. split; [exact Hd|].
  exact (batch_double_space_ui ex_double_space_world "A" "B" Ha Hb Hd).
Defined.

End System.
