(* ===== verification/Screen.v ===== *)
(** What the user sees of the engine's graph (module [Screen]).

    The theorems of this file put [View] on top of [System]: when the
    page's lists mirror the engine's graph (as after a batch insert), the
    vis-network drawing is consistent and the edge list reads as the
    engine's edges; when the single-insert form adds an edge whose ends
    the page's vertex list lacks, the drawing has an edge hanging from
    node [-1]; the adjacency answer is never readable on screen; a
    failed neighbour query writes into the error panel of the degree
    section; an edge of weight 0 is drawn without label; a batch line
    with a doubled space puts the empty label into the engine. *)

From Stdlib Require Import QArith String ZArith Lia.
From stdpp Require Import base list strings decidable gmap.
From S2P Require Import Prelude Graph Mutation Paths JsValue Http Server Client View Contract System.

Module Screen.
Import GraphStore Js Http Server Client View System.

(** ** Example pages *)

(** The page after a batch of the edges A-B and B-C into the unweighted
    graph. *)
Definition ex_mirror_world : world :=
  run_events [TypeText FBatchData (String.concat (String newline "") ["A B"; "B C"]);
              Click BBatchInsert]
    (mount (B := engine) initial_graph).

(** The single-insert form holding the edge X-Y, over that page. *)
Definition ex_dangling_world : world :=
  run_events [ChooseInsertMode "single"; TypeText FStartVertex "X"; TypeText FEndVertex "Y"]
    ex_mirror_world.

(** That page with the two verify-adjacency inputs filled with A and B. *)
Definition ex_verify_world : world :=
  run_events [TypeText FVertex1 "A"; TypeText FVertex2 "B"] ex_mirror_world.

(** That page with the neighbour input holding the unknown label Z and
    the degree input holding A. *)
Definition ex_error_world : world :=
  run_events [TypeText FAdjVertex "Z"; TypeText FDegreeVertex "A"] ex_mirror_world.

(** The text the edge list shows for an edge of the engine. *)
Lemma edge_text_engine e :
  edge_text (of_json (edge_json e)) =
  (efrom e ++ " - " ++ eto e ++ " " ++
   match eweight e with
   | None => "undefined"
   | Some q => if Qeq_bool q 0 then number_to_string (Fin q)
               else "(weight: " ++ number_to_string (Fin q) ++ ")"
   end)%string.
Proof.
  destruct e as [a b [q|]]; [|reflexivity].
  unfold edge_text, js_and. cbn -[number_to_string String.append].
  by destruct (Qeq_bool q 0).
Qed.

Lemma edge_ends_engine e :
  get_index (of_json (edge_json e)) 0 = Str (efrom e) /\
  get_index (of_json (edge_json e)) 1 = Str (eto e).
Proof. by destruct e as [a b [q|]]. Qed.

(** C11 (bounds): when the page's lists mirror a well-formed engine graph,
    the drawing has one node per vertex and one edge per edge, and every
    edge's two ends are node ids in [0, order). *)
Theorem vis_graph_mirror (s : App) (g : graph) :
  wf g ->
  st s "vertices" = Arr (map Str (vertices g)) ->
  st s "edges" = Arr (map (fun e => of_json (edge_json e)) (edges g)) ->
  exists nodes ves,
    vis_graph s = Some (nodes, ves) /\ length nodes = order g /\ length ves = size g /\
    Forall (fun ve => (0 <= vfrom ve < Z.of_nat (order g))%Z /\ (0 <= vto ve < Z.of_nat (order g))%Z) ves.
Proof.
  intros (_ & Hend & _) Hv He. unfold vis_graph. rewrite Hv, He.
  eexists _, _. split_and!; [reflexivity| | |].
  - by rewrite length_imap, length_map.
  - by rewrite !length_map.
  - apply Forall_forall. intros ve (e & <- & Hin)%list_elem_of_In%in_map_iff.
    apply in_map_iff in Hin as (e' & <- & Hin%list_elem_of_In).
    destruct (edge_ends_engine e') as [H0 H1]. unfold vis_edge_of. cbn [vfrom vto].
    rewrite H0, H1. unfold order.
    destruct (Hend e' Hin). split; by apply index_of_in.
Qed.

(** C12 (functional; a defect of [handleAddEdge]): adding through the
    single-insert form an edge whose start the page's vertex list lacks,
    the engine adds that vertex (spec 4.1), but the page does not, and
    the new edge of the drawing starts at node [-1]. *)
Theorem add_edge_vis_dangling (w : world) (a b : string) (vs : list string) (ys : list value) :
  st (app w) "startVertex" = Str a -> st (app w) "endVertex" = Str b ->
  st (app w) "weighted" = Bool false -> weighted (server w) = false ->
  st (app w) "vertices" = Arr (map Str vs) -> st (app w) "edges" = Arr ys -> a ∉ vs ->
  a ∈ vertices (server (handleAddEdge w)) /\
  exists nodes ves ve,
    vis_graph (app (handleAddEdge w)) = Some (nodes, ves ++ [ve]) /\
    length nodes = length vs /\ vfrom ve = (-1)%Z.
Proof.
  intros Ha Hb Hw Hsw Hv Hy Hn. rewrite (handleAddEdge_unweighted w a b ys Ha Hb Hw Hsw Hy).
  split.
  - cbn [server emit set apply_op]. unfold addEdge. rewrite Hsw. cbn.
    apply elem_of_add_unique. right. apply elem_of_add_unique. by left.
  - unfold vis_graph. cbn [app emit set]. autorewrite with client_rw. rewrite Hv.
    rewrite map_app. eexists _, _, _. split_and!; [reflexivity| |].
    + by rewrite length_imap, length_map.
    + unfold vis_edge_of. cbn [vfrom get_index lookup list_lookup]. by apply index_of_notin.
Qed.

(** C13 (functional): when the page's edge list mirrors the engine, each
    line of the edge list reads "a - b" followed by the weight: the text
    "undefined" for an edge without weight, the bare number for weight 0,
    "(weight: w)" otherwise. *)
Theorem edge_list_mirror (s : App) (g : graph) :
  st s "edges" = Arr (map (fun e => of_json (edge_json e)) (edges g)) ->
  edge_list_panel s =
  Shown (map (fun e =>
           (efrom e ++ " - " ++ eto e ++ " " ++
            match eweight e with
            | None => "undefined"
            | Some q => if Qeq_bool q 0 then number_to_string (Fin q)
                        else "(weight: " ++ number_to_string (Fin q) ++ ")"
            end)%string) (edges g)).
Proof.
  intros He. unfold edge_list_panel, map_panel. rewrite He, map_map, all_some_map_Some.
  f_equal. apply map_ext. intros e. apply edge_text_engine.
Qed.

(** C14 (functional; the answer is not readable): after "verify
    adjacency" on two labels the engine has, the page holds the engine's
    boolean answer, and the result panel is rendered with an empty text,
    since React renders [true] and [false] as nothing. *)
Theorem adjacency_answer_invisible (w : world) (a b : string) :
  query_safe a = true -> query_safe b = true ->
  st (app w) "vertex1" = Str a -> st (app w) "vertex2" = Str b ->
  a ∈ vertices (server w) -> b ∈ vertices (server w) ->
  st (app (handleVerifyAdjacency w)) "adjResult" =
    Bool (existsb (joins (directed (server w)) a b) (edges (server w))) /\
  adj_result_panel (app (handleVerifyAdjacency w)) = Shown [""].
Proof.
  intros Ha Hb H1 H2 Hav Hbv. unfold handleVerifyAdjacency, send, verify_request, verify_answer. rewrite H1, H2. cbn [to_string].
  rewrite (handle_get_world _ _ _ _ (verify_adj_target a b Ha Hb)).
  unfold get_endpoint. cbn -[areAdjacent]. unfold areAdjacent.
  rewrite (proj2 (has_vertex_spec a _) Hav), (proj2 (has_vertex_spec b _) Hbv).
  cbn. unfold adj_result_panel. by autorewrite with client_rw.
Qed.


(** C29 (error; one error text for two sections): the neighbour query
    and the degree query share the [error] hook, rendered once, in the
    degree section (lines 658-664).  A neighbour query of a label the
    engine lacks empties the neighbour list and shows its message there;
    the next successful degree query hides it again. *)
Theorem adjacency_error_in_degree_panel (w : world) (v u : string) :
  st (app w) "adjVertex" = Str v -> query_safe v = true -> v ∉ vertices (server w) ->
  st (app w) "degreeVertex" = Str u -> query_safe u = true -> u ∈ vertices (server w) ->
  error_panel (app (handleCheckAdjacency w)) = Shown [adjacency_error_text] /\
  adj_list_panel (app (handleCheckAdjacency w)) = Shown [] /\
  error_panel (app (handleCheckDegree (handleCheckAdjacency w))) = Hidden.
Proof.
  intros Hv Hs Hn Hu Hsu Hin. rewrite (adjacency_query w v Hv Hs).
  unfold get_endpoint. cbn -[neighbors st]. unfold neighbors. rewrite (has_vertex_false v _ Hn).
  cbn -[st]. unfold error_panel, adj_list_panel. split_and!; [by autorewrite with client_rw..|].
  rewrite (degree_query _ u) by (cbn; by autorewrite with client_rw).
  unfold get_endpoint. cbn -[degree st]. unfold degree. rewrite (proj2 (has_vertex_spec u _) Hin).
  by destruct (directed _); cbn -[st]; autorewrite with client_rw.
Qed.

(** C30 (functional; the weight label of the drawing): an edge the page
    got from the engine is drawn with its weight as label only when the
    weight is truthy: an unweighted edge and an edge of weight 0 are
    drawn without a label ([edge[2] ? edge[2].toString() : undefined]),
    although the edge list shows the 0 ([edge_text_engine]). *)
Theorem vis_edge_label_engine (s : App) (vs : list value) (e : edge) :
  elabel (vis_edge_of s vs (of_json (edge_json e))) =
    match eweight e with
    | Some q => if Qeq_bool q 0 then None else Some (number_to_string (Fin q))
    | None => None
    end.
Proof.
  destruct e as [a b [q|]]; unfold vis_edge_of; cbn -[number_to_string]; [|reflexivity].
  by destruct (Qeq_bool q 0).
Qed.

(** ** Witnesses *)

Lemma vis_graph_mirror_witness :
  wf (server ex_mirror_world) /\
  st (app ex_mirror_world) "vertices" = Arr (map Str (vertices (server ex_mirror_world))) /\
  st (app ex_mirror_world) "edges" =
    Arr (map (fun e => of_json (edge_json e)) (edges (server ex_mirror_world))) /\
  exists nodes ves,
    vis_graph (app ex_mirror_world) = Some (nodes, ves) /\
    length nodes = order (server ex_mirror_world) /\ length ves = size (server ex_mirror_world) /\
    Forall (fun ve => (0 <= vfrom ve < Z.of_nat (order (server ex_mirror_world)))%Z /\
                      (0 <= vto ve < Z.of_nat (order (server ex_mirror_world)))%Z) ves.
Proof.
  assert (H1 : wf (server ex_mirror_world)) by (apply wfb_sound; vm_compute; reflexivity).
  assert (H2 : st (app ex_mirror_world) "vertices" = Arr (map Str (vertices (server ex_mirror_world))))
    by (vm_compute; reflexivity).
  assert (H3 : st (app ex_mirror_world) "edges" =
    Arr (map (fun e => of_json (edge_json e)) (edges (server ex_mirror_world)))) by (vm_compute; reflexivity).
  split; [exact H1|]. split; [exact H2|]. split; [exact H3|].
  exact (vis_graph_mirror (app ex_mirror_world) (server ex_mirror_world) H1 H2 H3).
Defined.

Lemma add_edge_vis_dangling_witness :
  let ys := [Arr [Str "A"; Str "B"]; Arr [Str "B"; Str "C"]] in
  st (app ex_dangling_world) "startVertex" = Str "X" /\ st (app ex_dangling_world) "endVertex" = Str "Y" /\
  st (app ex_dangling_world) "weighted" = Bool false /\ weighted (server ex_dangling_world) = false /\
  st (app ex_dangling_world) "vertices" = Arr (map Str ["A"; "B"; "C"]) /\
  st (app ex_dangling_world) "edges" = Arr ys /\ "X" ∉ ["A"; "B"; "C"] /\
  "X" ∈ vertices (server (handleAddEdge ex_dangling_world)) /\
  exists nodes ves ve,
    vis_graph (app (handleAddEdge ex_dangling_world)) = Some (nodes, ves ++ [ve]) /\
    length nodes = length ["A"; "B"; "C"] /\ vfrom ve = (-1)%Z.
Proof.
  intros ys.
  assert (H1 : st (app ex_dangling_world) "startVertex" = Str "X") by (vm_compute; reflexivity).
  assert (H2 : st (app ex_dangling_world) "endVertex" = Str "Y") by (vm_compute; reflexivity).
  assert (H3 : st (app ex_dangling_world) "weighted" = Bool false) by (vm_compute; reflexivity).
  assert (H4 : weighted (server ex_dangling_world) = false) by (vm_compute; reflexivity).
  assert (H5 : st (app ex_dangling_world) "vertices" = Arr (map Str ["A"; "B"; "C"]))
    by (vm_compute; reflexivity).
  assert (H6 : st (app ex_dangling_world) "edges" = Arr ys) by (vm_compute; reflexivity).
  assert (H7 : "X" ∉ ["A"; "B"; "C"]) by decide_by_eval.
  do 7 (split; [assumption|]).
  exact (add_edge_vis_dangling ex_dangling_world "X" "Y" ["A"; "B"; "C"] ys H1 H2 H3 H4 H5 H6 H7).
Defined.

Lemma edge_list_mirror_witness :
  st (app ex_mirror_world) "edges" =
    Arr (map (fun e => of_json (edge_json e)) (edges (server ex_mirror_world))) /\
  edge_list_panel (app ex_mirror_world) = Shown ["A - B undefined"; "B - C undefined"].
Proof.
  assert (H : st (app ex_mirror_world) "edges" =
    Arr (map (fun e => of_json (edge_json e)) (edges (server ex_mirror_world)))) by (vm_compute; reflexivity).
  split; [exact H|]. rewrite (edge_list_mirror (app ex_mirror_world) (server ex_mirror_world) H).
  vm_compute. reflexivity.
Defined.

Lemma adjacency_answer_invisible_witness :
  query_safe "A" = true /\ query_safe "B" = true /\
  st (app ex_verify_world) "vertex1" = Str "A" /\ st (app ex_verify_world) "vertex2" = Str "B" /\
  "A" ∈ vertices (server ex_verify_world) /\ "B" ∈ vertices (server ex_verify_world) /\
  st (app (handleVerifyAdjacency ex_verify_world)) "adjResult" =
    Bool (existsb (joins (directed (server ex_verify_world)) "A" "B") (edges (server ex_verify_world))) /\
  adj_result_panel (app (handleVerifyAdjacency ex_verify_world)) = Shown [""].
Proof.
  assert (H1 : query_safe "A" = true) by reflexivity.
  assert (H2 : query_safe "B" = true) by reflexivity.
  assert (H3 : st (app ex_verify_world) "vertex1" = Str "A") by (vm_compute; reflexivity).
  assert (H4 : st (app ex_verify_world) "vertex2" = Str "B") by (vm_compute; reflexivity).
  assert (H5 : "A" ∈ vertices (server ex_verify_world)) by decide_by_eval.
  assert (H6 : "B" ∈ vertices (server ex_verify_world)) by decide_by_eval.
  do 6 (split; [assumption|]).
  exact (adjacency_answer_invisible ex_verify_world "A" "B" H1 H2 H3 H4 H5 H6).
Defined.

Lemma adjacency_error_in_degree_panel_witness :
  "Z" ∉ vertices (server ex_error_world) /\ "A" ∈ vertices (server ex_error_world) /\
  error_panel (app (handleCheckAdjacency ex_error_world)) = Shown [adjacency_error_text] /\
  error_panel (app (handleCheckDegree (handleCheckAdjacency ex_error_world))) = Hidden.
Proof.
  assert (Hn : "Z" ∉ vertices (server ex_error_world)) by decide_by_eval.
  assert (Hi : "A" ∈ vertices (server ex_error_world)) by decide_by_eval.
  destruct (adjacency_error_in_degree_panel ex_error_world "Z" "A" (eq_refl) eq_refl Hn eq_refl eq_refl Hi)
    as (H1 & _ & H3).
  split_and!; [exact Hn|exact Hi|exact H1|exact H3].
Defined.

End Screen.
