(* ===== verification/Async.v ===== *)
(** Requests in flight (module [Async]), spec 5 and the [await]s of
    [App.js].

    The handlers of [App.js] are [async]: an event runs the handler up to
    its first [await], sending a request built from the state its closure
    captured, and the rest of the handler runs when the answer arrives,
    possibly after other events and other answers.  The engine serializes
    its operations (spec 5: one lock around the graph store), so it
    answers the requests one at a time in some order, and the page
    receives the answers in some order.

    [aworld] is the page with the requests sent and not answered
    ([sent]), the answers not yet delivered ([received]) and the files
    whose [FileReader] has not yet called [onload] ([reading]).
    [async_start] is the synchronous part of the events that start such
    work: a click on a request button sends its request
    ([click_request]), [SubmitCreate] sends the creation, [ClickUpload]
    alerts or starts reading the file.  The rest of a handler is a
    [rest]: [Final] for the handlers whose rest only updates the page,
    [Refresh] for [handleBatchInsert] and [handleGraphCreation], whose
    rest calls [fetchGraphInfo()] without awaiting it and so sends one
    more request ([run_rest], [refresh_request]).  [astep] is the step
    relation: an event that starts no asynchronous work ([AEvent], the
    sequential [dispatch]), the start of one ([AStart]), or a step of the
    rest of the system ([netstep]): the engine answering any sent request
    ([serve_at]), the page receiving any answer ([deliver_at]), or a file
    read completing ([load_at], which runs [Client.upload_onload] with the
    state captured at the click).  Once the page has crashed, answers and
    file reads change nothing.

    The page starts as [aload]: the initial state, its mount-time
    [fetchGraphInfo()] request already in flight (the [useEffect] runs
    after the first render, and its answer arrives like any other).
    [run_sched] runs an explicit schedule of steps ([SEvent], [SServe],
    [SDeliver], [SLoad] with the index of the request, answer or read),
    [None] when one of its steps is not enabled; its runs are runs of
    [astep] ([run_sched_asteps], [run_sched_step]).

    Theorems: with the schedule written out, the page's races.  A slow
    answer to an earlier degree query overwrites the later one's
    ([degree_race]); the answer to "add vertex" clears what the user
    typed meanwhile ([add_vertex_clears_typing]); an insertion answered
    before a graph creation but delivered after it puts back on the page
    a vertex the new graph does not have ([create_resurrects_vertex]).
    That no interleaving crashes the page is in [AsyncSafety]. *)

From Stdlib Require Import QArith String.
From stdpp Require Import base list strings decidable gmap.
From S2P Require Import Prelude Graph Mutation Paths JsValue Http Server Client Contract System.

Module Async.
Import GraphStore Js Http Server Client System.

Section WithBackend.
Context `{B : Backend}.

(** What runs when an answer arrives: the rest of a handler, with the
    state its closure captured; [Refresh] for the two handlers whose rest
    may call [fetchGraphInfo()] without awaiting it. *)
Inductive rest :=
| Final (k : App -> result string value -> world -> world)
| Refresh (k : App -> result string value -> world -> world * bool).

(** The request of each button and the rest of its handler. *)
Definition click_request (b : button) : (App -> request) * rest :=
  match b with
  | BBatchInsert => (batch_request, Refresh batch_answer)
  | BAddVertex => (add_vertex_request, Final add_vertex_answer)
  | BAddEdge => (add_edge_request, Final add_edge_answer)
  | BVerifyAdjacency => (verify_request, Final verify_answer)
  | BCheckAdjacency => (adjacency_request, Final adjacency_answer)
  | BCheckDegree => (degree_request, Final degree_answer)
  | BFindShortestPath => (path_request, Final path_answer)
  | BCheckEulerian => (eulerian_request, Final eulerian_answer)
  | BGraphInfo => (fun _ => graph_info_request, Final (fun _ => fetchGraphInfo_done))
  end.

Record inflight := mkInflight {
  fl_request : request;
  fl_captured : App;
  fl_rest : rest
}.

Record arrival := mkArrival {
  an_result : result string value;
  an_captured : App;
  an_rest : rest
}.

(** The page, the requests sent and not answered, the answers not yet
    delivered, and the files being read ([reader.readAsText] started,
    [onload] not yet run), each with the state its closure captured. *)
Record aworld := mkAWorld {
  page : world;
  sent : list inflight;
  received : list arrival;
  reading : list App
}.

(** The synchronous part of an event that starts asynchronous work: the
    page after it, the requests it sends, the files it starts to read.
    [None] for the events that do all their work at once (and for a
    button that is not rendered). *)
Definition async_start (ev : event) (w : world) : option (world * list inflight * list App) :=
  let s := app w in
  match ev with
  | Click b =>
      if button_shown s b
      then let '(rq, k) := click_request b in Some (w, [mkInflight (rq s) s k], [])
      else None
  | SubmitCreate => Some (w, [mkInflight (create_request s) s (Refresh create_answer)], [])
  | ClickUpload =>
      if negb (truthy (st s "selectedFile"))
      then Some (emit (Alert "Por favor, selecione um arquivo primeiro.") w, [], [])
      else Some (w, [], [s])
  | _ => None
  end.

Definition with_server (w : world) (b' : backend_state) : world :=
  mkWorld (app w) b' (effects w) (crashed w).

(** The graph-info request of an un-awaited [fetchGraphInfo()]. *)
Definition refresh_request (s : App) : inflight :=
  mkInflight graph_info_request s (Final (fun _ => fetchGraphInfo_done)).

(** Run the rest of a handler: the page after it and the requests it sends. *)
Definition run_rest (x : rest) (s : App) (r : result string value) (w : world) :
    world * list inflight :=
  match x with
  | Final k => (k s r w, [])
  | Refresh k => let '(w', refresh) := k s r w in (w', if refresh then [refresh_request s] else [])
  end.

(** The engine answers the [i]-th sent request. *)
Definition serve_at (i : nat) (f : inflight) (aw : aworld) : aworld :=
  let '(b', o) := serve (server (page aw)) (fl_request f) in
  mkAWorld (with_server (page aw) b') (delete i (sent aw))
           (received aw ++ [mkArrival (axios o) (fl_captured f) (fl_rest f)]) (reading aw).

(** The page receives the [i]-th answer; a crashed page ignores it. *)
Definition deliver_at (i : nat) (a : arrival) (aw : aworld) : aworld :=
  if crashed (page aw) then mkAWorld (page aw) (sent aw) (delete i (received aw)) (reading aw)
  else let '(w', fl) := run_rest (an_rest a) (an_captured a) (an_result a) (page aw) in
       mkAWorld w' (sent aw ++ fl) (delete i (received aw)) (reading aw).

(** The [i]-th file read completes: its [onload] runs with the state
    captured at the click. *)
Definition load_at (i : nat) (s : App) (aw : aworld) : aworld :=
  if crashed (page aw) then mkAWorld (page aw) (sent aw) (received aw) (delete i (reading aw))
  else match upload_onload s (page aw) with
       | (w', Some rq) =>
           mkAWorld w' (sent aw ++ [mkInflight rq s (Final upload_answer)]) (received aw)
                    (delete i (reading aw))
       | (w', None) => mkAWorld w' (sent aw) (received aw) (delete i (reading aw))
       end.

(** What the engine, the network and the browser do on their own. *)
Inductive netstep : aworld -> aworld -> Prop :=
| AServe i f aw :
    sent aw !! i = Some f -> netstep aw (serve_at i f aw)
| ADeliver i a aw :
    received aw !! i = Some a -> netstep aw (deliver_at i a aw)
| ALoad i s aw :
    reading aw !! i = Some s -> netstep aw (load_at i s aw).

(** A step of the whole system: a user event, or a step of the rest. *)
Inductive astep : aworld -> aworld -> Prop :=
| AEvent ev aw :
    async_start ev (page aw) = None ->
    astep aw (mkAWorld (dispatch ev (page aw)) (sent aw) (received aw) (reading aw))
| AStart ev aw w' fl rd :
    crashed (page aw) = false -> async_start ev (page aw) = Some (w', fl, rd) ->
    astep aw (mkAWorld w' (sent aw ++ fl) (received aw) (reading aw ++ rd))
| ANet aw aw' : netstep aw aw' -> astep aw aw'.

Definition asteps : aworld -> aworld -> Prop := rtc astep.

(** A quiet page: nothing in flight. *)
Definition quiet (w : world) : aworld := mkAWorld w [] [] [].

(** The page at its first render: the initial state, with the request
    of [useEffect(() => fetchGraphInfo(), [])] (lines 272-274) in flight. *)
Definition aload (b : backend_state) : aworld :=
  mkAWorld (mkWorld initial_state b [] false) [refresh_request initial_state] [] [].

(** An explicit schedule: each step names the event, or the position in
    [sent], [received] or [reading] it acts on.  [run_sched] runs it,
    [None] when a step is not enabled; its runs are runs of [astep]
    ([run_sched_asteps]). *)
Inductive sched_step := SEvent (ev : event) | SServe (i : nat) | SDeliver (i : nat) | SLoad (i : nat).

Definition sched_one (x : sched_step) (aw : aworld) : option aworld :=
  match x with
  | SEvent ev =>
      match async_start ev (page aw) with
      | None => Some (mkAWorld (dispatch ev (page aw)) (sent aw) (received aw) (reading aw))
      | Some (w', fl, rd) =>
          if crashed (page aw) then None
          else Some (mkAWorld w' (sent aw ++ fl) (received aw) (reading aw ++ rd))
      end
  | SServe i => (fun f => serve_at i f aw) <$> sent aw !! i
  | SDeliver i => (fun a => deliver_at i a aw) <$> received aw !! i
  | SLoad i => (fun s => load_at i s aw) <$> reading aw !! i
  end.

Fixpoint run_sched (xs : list sched_step) (aw : aworld) : option aworld :=
  match xs with
  | [] => Some aw
  | x :: xs' => sched_one x aw ≫= run_sched xs'
  end.

End WithBackend.

(** ** Example pages *)

(** The loaded page over the empty graph, in the single-insert form. *)
Definition ex_single_world : @world engine :=
  run_events [ChooseInsertMode "single"] (mount (B := engine) initial_graph).

Section Theory.
Context `{B : Backend}.

Lemma sched_one_astep x aw aw' : sched_one x aw = Some aw' -> astep aw aw'.
Proof.
  destruct x as [ev|i|i|i]; cbn.
  - destruct (async_start ev (page aw)) as [[[w' fl] rd]|] eqn:E.
    + destruct (crashed (page aw)) eqn:Hc; [done|]. intros [= <-]. by eapply AStart.
    + intros [= <-]. by apply AEvent.
  - destruct (sent aw !! i) eqn:E; cbn; [|done]. intros [= <-]. by apply ANet, AServe.
  - destruct (received aw !! i) eqn:E; cbn; [|done]. intros [= <-]. by apply ANet, ADeliver.
  - destruct (reading aw !! i) eqn:E; cbn; [|done]. intros [= <-]. by apply ANet, ALoad.
Qed.

Lemma run_sched_asteps xs aw aw' : run_sched xs aw = Some aw' -> asteps aw aw'.
Proof.
  revert aw. induction xs as [|x xs IH]; cbn; intros aw H; [injection H as <-; apply rtc_refl|].
  destruct (sched_one x aw) as [aw1|] eqn:E; cbn in H; [|done].
  apply (rtc_l _ aw aw1); [exact (sched_one_astep x aw aw1 E)|by apply IH].
Qed.

Lemma run_sched_step x xs aw aw1 : sched_one x aw = Some aw1 -> run_sched (x :: xs) aw = run_sched xs aw1.
Proof. intros E. cbn. by rewrite E. Qed.

End Theory.


(** ** Races of the page against the engine *)

Lemma serve_degree_request g (s : App) u :
  st s "degreeVertex" = Str u -> query_safe u = true ->
  serve (Backend := engine) g (degree_request s) =
  (g, answer (degree u g) (fun r => JObj [("message", degree_json u r)])).
Proof.
  intros Hu Hq. unfold degree_request. rewrite Hu. cbn [to_string].
  rewrite (serve_get _ _ _ _ (degree_target u Hq)). reflexivity.
Qed.

Lemma degree_ok u g : u ∈ vertices g -> exists r, degree u g = Ok r.
Proof. intros H. unfold degree. rewrite (proj2 (has_vertex_spec u g) H). eauto. Qed.

Lemma dispatch_type_degree (w : world) t :
  crashed w = false -> dispatch (TypeText FDegreeVertex t) w = set "degreeVertex" (Str t) w.
Proof. intros Hc. by apply dispatch_type. Qed.

(** C17 (safety; a race of [handleCheckDegree]): the user types [u] and
    asks its degree, then types [v] and asks again; the engine serves
    both queries in order, and the answer about [v] reaches the page
    first, the answer about [u] last (the schedule given to [run_sched]
    in the statement; it runs to the end from every such page).  The page then shows [v] in the form and the
    degree of [u] as the result: nothing ties an answer to the query that
    is on screen. *)
Theorem degree_race (w : world) (u v : string) :
  crashed w = false -> query_safe u = true -> query_safe v = true ->
  u ∈ vertices (server w) -> v ∈ vertices (server w) ->
  exists aw' r,
    run_sched [SEvent (TypeText FDegreeVertex u); SEvent (Click BCheckDegree);
               SEvent (TypeText FDegreeVertex v); SEvent (Click BCheckDegree);
               SServe 0; SServe 0; SDeliver 1; SDeliver 0] (quiet w) = Some aw' /\
    asteps (quiet w) aw' /\ sent aw' = [] /\ received aw' = [] /\ reading aw' = [] /\
    degree u (server w) = Ok r /\
    st (app (page aw')) "degreeVertex" = Str v /\
    st (app (page aw')) "degreeMessage" = of_json (degree_json u r).
Proof.
  intros Hc Hu Hv Hum Hvm.
  destruct (degree_ok u _ Hum) as [ru Hru]. destruct (degree_ok v _ Hvm) as [rv Hrv].
  assert (E : exists aw', run_sched [SEvent (TypeText FDegreeVertex u); SEvent (Click BCheckDegree);
               SEvent (TypeText FDegreeVertex v); SEvent (Click BCheckDegree);
               SServe 0; SServe 0; SDeliver 1; SDeliver 0] (quiet w) = Some aw' /\
    sent aw' = [] /\ received aw' = [] /\ reading aw' = [] /\
    st (app (page aw')) "degreeVertex" = Str v /\
    st (app (page aw')) "degreeMessage" = of_json (degree_json u ru)).
  { eexists. split.
    { etransitivity; [eapply run_sched_step; cbn [sched_one async_start page quiet]; reflexivity|].
      rewrite dispatch_type_degree by done.
      etransitivity; [eapply run_sched_step; cbn [sched_one async_start page button_shown]; cbn [crashed set]; rewrite Hc; reflexivity|].
      etransitivity; [eapply run_sched_step; cbn [sched_one async_start page]; reflexivity|].
      cbn [page]. rewrite dispatch_type_degree by done.
      etransitivity; [eapply run_sched_step; cbn [sched_one async_start page button_shown]; cbn [crashed set]; rewrite Hc; reflexivity|].
      etransitivity; [eapply run_sched_step; reflexivity|].
      unfold serve_at. cbn [page sent received fl_request server set app].
      rewrite (serve_degree_request _ _ u) by (by autorewrite with client_rw).
      etransitivity; [eapply run_sched_step; reflexivity|].
      unfold serve_at. cbn [page sent received fl_request server set with_server app].
      rewrite (serve_degree_request _ _ v) by (by autorewrite with client_rw).
      etransitivity; [eapply run_sched_step; reflexivity|].
      unfold deliver_at. cbn [page crashed set with_server quiet sent received reading]. rewrite Hc. cbn iota.
      etransitivity; [eapply run_sched_step; reflexivity|]. reflexivity. }
    unfold deliver_at. cbn -[st degree degree_json]. rewrite Hru, Hrv.
    cbn -[st degree_json]. rewrite ?Hc. cbn -[st degree_json].
    cbn [app set with_server]. autorewrite with client_rw. done. }
  destruct E as (aw' & Hs & H1 & H2 & H3 & H4 & H5). exists aw', ru.
  split_and!; try done. exact (run_sched_asteps _ _ _ Hs).
Qed.

Lemma dispatch_type_single (w : world) f t :
  crashed w = false -> st (app w) "insertMode" = Str "single" ->
  f = FNewVertex \/ f = FStartVertex \/ f = FEndVertex ->
  dispatch (TypeText f t) w = set (field_hook f) (Str t) w.
Proof.
  intros Hc Hm Hf. apply dispatch_type; [done|].
  unfold field_shown, mode_is. rewrite Hm. by destruct Hf as [->|[->| ->]].
Qed.

(** C18 (safety; a race of [handleAddVertex]): the user types [x], adds
    it, and types [y] while the request is in flight; the engine serves
    the insertion (the first schedule).  Just before the answer arrives
    the input holds [y];
    once it arrives the page has appended [x] to its list and cleared
    the input, so the text [y] the user typed is lost. *)
Theorem add_vertex_clears_typing (w : world) (x y : string) (xs : list value) :
  crashed w = false -> st (app w) "insertMode" = Str "single" -> st (app w) "vertices" = Arr xs ->
  exists aw1 aw',
    run_sched [SEvent (TypeText FNewVertex x); SEvent (Click BAddVertex);
               SEvent (TypeText FNewVertex y); SServe 0] (quiet w) = Some aw1 /\
    st (app (page aw1)) "newVertex" = Str y /\
    run_sched [SDeliver 0] aw1 = Some aw' /\
    asteps (quiet w) aw' /\ sent aw' = [] /\ received aw' = [] /\ reading aw' = [] /\
    x ∈ vertices (server (page aw')) /\
    st (app (page aw')) "vertices" = Arr (xs ++ [Str x]) /\
    st (app (page aw')) "newVertex" = Str "".
Proof.
  intros Hc Hm Hx.
  assert (Hb : button_shown (<["newVertex" := Str x]> (app w)) BAddVertex = true)
    by (unfold button_shown, mode_is; autorewrite with client_rw; by rewrite Hm).
  do 2 eexists.
  match goal with |- run_sched ?pre ?q = Some ?e1 /\ _ => assert (E1 : run_sched pre q = Some e1) end.
  { etransitivity; [eapply run_sched_step; cbn [sched_one async_start page quiet]; reflexivity|].
    rewrite dispatch_type_single by auto.
    etransitivity; [eapply run_sched_step; cbn [sched_one async_start page app set field_hook];
                    rewrite Hb; cbn [crashed set]; rewrite Hc; reflexivity|].
    etransitivity; [eapply run_sched_step; cbn [sched_one async_start page]; reflexivity|].
    cbn [page]. rewrite dispatch_type_single by (cbn [app set crashed]; autorewrite with client_rw; auto).
    etransitivity; [eapply run_sched_step; reflexivity|]. reflexivity. }
  match goal with |- _ /\ _ /\ run_sched ?d ?e1 = Some ?e2 /\ _ => assert (E2 : run_sched d e1 = Some e2) end.
  { unfold serve_at. cbn [page sent received fl_request].
    unfold add_vertex_request. rewrite serve_post_add_vertex. cbn [app set field_hook].
    autorewrite with client_rw.
    etransitivity; [eapply run_sched_step; reflexivity|]. reflexivity. }
  split; [exact E1|]. split.
  { unfold serve_at. cbn [page sent received fl_request]. unfold add_vertex_request.
    rewrite serve_post_add_vertex. cbn [app set field_hook]. autorewrite with client_rw. cbn -[st]. by autorewrite with client_rw. }
  split; [exact E2|]. split.
  { eapply rtc_trans; [exact (run_sched_asteps _ _ _ E1)|exact (run_sched_asteps _ _ _ E2)]. }
  cbn [app set field_hook]. autorewrite with client_rw.
  unfold deliver_at. cbn -[st addVertex]. rewrite Hc.
  unfold add_vertex_answer. autorewrite with client_rw. cbn -[st addVertex]. unfold push.
  cbn [app set with_server]. autorewrite with client_rw. rewrite Hx.
  cbn [items app set with_server server]. autorewrite with client_rw.
  split_and!; [done|done|done| |done|done].
  unfold addVertex. apply elem_of_add_unique. by left.
Qed.

(** C20 (safety; a race of [handleGraphCreation] and [handleAddVertex]):
    the user adds a vertex [x] and, with that request in flight, creates
    a new graph.  The engine serves the insertion and then the creation,
    but the creation's answer reaches the page first: the page clears its
    lists, the late answer of the insertion pushes [x] back, and the
    refresh reports the new, empty graph.  The page ends up listing [x],
    which the engine does not have, next to an info panel of order 0. *)
Theorem create_resurrects_vertex (w : world) (x : string) (d wt : bool) :
  crashed w = false -> st (app w) "insertMode" = Str "single" ->
  st (app w) "directed" = Bool d -> st (app w) "weighted" = Bool wt ->
  exists aw',
    asteps (quiet w) aw' /\ sent aw' = [] /\ received aw' = [] /\ reading aw' = [] /\
    server (page aw') = reset d wt /\ st (app (page aw')) "vertices" = Arr [Str x] /\
    st (app (page aw')) "graphInfo" = Obj [("order", Num (Fin (Qnat 0))); ("size", Num (Fin (Qnat 0)))].
Proof.
  intros Hc Hm Hd Hw. eexists. split.
  { eapply rtc_l; [apply (AEvent (TypeText FNewVertex x)); done|].
    cbn [page sent received reading quiet]. rewrite dispatch_type_single by auto.
    eapply rtc_l; [eapply (AStart (Click BAddVertex)); [cbn; exact Hc|]|].
    { assert (Hb : button_shown (<["newVertex" := Str x]> (app w)) BAddVertex = true)
        by (unfold button_shown, mode_is; autorewrite with client_rw; by rewrite Hm).
      unfold async_start. cbn [page quiet app set field_hook]. rewrite Hb. reflexivity. }
    cbn [page sent received reading app set].
    eapply rtc_l; [eapply (AStart SubmitCreate); [cbn; exact Hc|reflexivity]|].
    cbn [page sent received reading app set].
    eapply rtc_l; [apply ANet, (AServe 0); reflexivity|].
    unfold serve_at. cbn [page sent received reading fl_request].
    unfold add_vertex_request. rewrite serve_post_add_vertex. cbn [app set field_hook].
    autorewrite with client_rw.
    eapply rtc_l; [apply ANet, (AServe 0); reflexivity|].
    unfold serve_at. cbn [page sent received reading fl_request with_server server].
    unfold create_request. rewrite serve_post_create. cbn [app set field_hook].
    autorewrite with client_rw. rewrite Hd, Hw. cbn -[addVertex st].
    eapply rtc_l; [apply ANet, (ADeliver 1); reflexivity|].
    unfold deliver_at. cbn -[addVertex st]. rewrite Hc. cbn -[addVertex st].
    eapply rtc_l; [apply ANet, (ADeliver 0); reflexivity|].
    unfold deliver_at. cbn -[addVertex st]. rewrite Hc. cbn -[addVertex st].
    autorewrite with client_rw. unfold push. cbn -[addVertex st]. autorewrite with client_rw.
    cbn -[addVertex st].
    eapply rtc_l; [apply ANet, (AServe 0); reflexivity|].
    unfold serve_at. cbn -[addVertex st handle]. rewrite handle_graph_info. cbn -[addVertex st].
    eapply rtc_l; [apply ANet, (ADeliver 0); reflexivity|].
    apply rtc_refl. }
  unfold deliver_at. cbn -[addVertex st]. rewrite ?Hc. cbn -[addVertex st].
  autorewrite with client_rw. by split_and!.
Qed.

(** ** Witnesses *)

Lemma degree_race_witness :
  crashed ex_path_world = false /\ query_safe "A" = true /\ query_safe "B" = true /\
  "A" ∈ vertices (server ex_path_world) /\ "B" ∈ vertices (server ex_path_world) /\
  exists aw' r,
    run_sched [SEvent (TypeText FDegreeVertex "A"); SEvent (Click BCheckDegree);
               SEvent (TypeText FDegreeVertex "B"); SEvent (Click BCheckDegree);
               SServe 0; SServe 0; SDeliver 1; SDeliver 0] (quiet ex_path_world) = Some aw' /\
    asteps (quiet ex_path_world) aw' /\ sent aw' = [] /\ received aw' = [] /\ reading aw' = [] /\
    degree "A" (server ex_path_world) = Ok r /\
    st (app (page aw')) "degreeVertex" = Str "B" /\
    st (app (page aw')) "degreeMessage" = of_json (degree_json "A" r).
Proof.
  assert (H1 : crashed ex_path_world = false) by (vm_compute; reflexivity).
  assert (H2 : query_safe "A" = true) by reflexivity.
  assert (H3 : query_safe "B" = true) by reflexivity.
  assert (H4 : "A" ∈ vertices (server ex_path_world)) by decide_by_eval.
  assert (H5 : "B" ∈ vertices (server ex_path_world)) by decide_by_eval.
  do 5 (split; [assumption|]).
  exact (degree_race ex_path_world "A" "B" H1 H2 H3 H4 H5).
Defined.

Lemma add_vertex_clears_typing_witness :
  crashed ex_single_world = false /\ st (app ex_single_world) "insertMode" = Str "single" /\
  st (app ex_single_world) "vertices" = Arr [] /\
  exists aw1 aw',
    run_sched [SEvent (TypeText FNewVertex "X"); SEvent (Click BAddVertex);
               SEvent (TypeText FNewVertex "Y"); SServe 0] (quiet ex_single_world) = Some aw1 /\
    st (app (page aw1)) "newVertex" = Str "Y" /\
    run_sched [SDeliver 0] aw1 = Some aw' /\
    asteps (quiet ex_single_world) aw' /\ sent aw' = [] /\ received aw' = [] /\ reading aw' = [] /\
    "X" ∈ vertices (server (page aw')) /\
    st (app (page aw')) "vertices" = Arr ([] ++ [Str "X"]) /\
    st (app (page aw')) "newVertex" = Str "".
Proof.
  assert (H1 : crashed ex_single_world = false) by (vm_compute; reflexivity).
  assert (H2 : st (app ex_single_world) "insertMode" = Str "single") by (vm_compute; reflexivity).
  assert (H3 : st (app ex_single_world) "vertices" = Arr []) by (vm_compute; reflexivity).
  do 3 (split; [assumption|]).
  exact (add_vertex_clears_typing ex_single_world "X" "Y" [] H1 H2 H3).
Defined.

Lemma create_resurrects_vertex_witness :
  crashed ex_single_world = false /\ st (app ex_single_world) "insertMode" = Str "single" /\
  st (app ex_single_world) "directed" = Bool false /\ st (app ex_single_world) "weighted" = Bool false /\
  exists aw',
    asteps (quiet ex_single_world) aw' /\ sent aw' = [] /\ received aw' = [] /\ reading aw' = [] /\
    server (page aw') = reset false false /\ st (app (page aw')) "vertices" = Arr [Str "X"] /\
    st (app (page aw')) "graphInfo" = Obj [("order", Num (Fin (Qnat 0))); ("size", Num (Fin (Qnat 0)))].
Proof.
  assert (H1 : crashed ex_single_world = false) by (vm_compute; reflexivity).
  assert (H2 : st (app ex_single_world) "insertMode" = Str "single") by (vm_compute; reflexivity).
  assert (H3 : st (app ex_single_world) "directed" = Bool false) by (vm_compute; reflexivity).
  assert (H4 : st (app ex_single_world) "weighted" = Bool false) by (vm_compute; reflexivity).
  do 4 (split; [assumption|]).
  exact (create_resurrects_vertex ex_single_world "X" false false H1 H2 H3 H4).
Defined.

End Async.
