(* ===== verification/AsyncSafety.v ===== *)
(** The page never crashes, however its requests interleave (module
    [AsyncSafety]).

    A React page dies in two ways: a state updater throws (here
    [Client.push] on a list hook that is not iterable, which sets
    [crashed]), or rendering throws (an object as a child, [.map] on
    something that is not an array: [View.Throws]).  [page_ok] rules out
    both: the page is alive and every hook a panel renders holds what
    that panel can render ([View.view_okb], which also keeps the list
    hooks arrays).  What the page needs of its backend is [BatchContract]
    (the lists of a batch answer are arrays or falsy) and
    [RenderContract] (the members of a successful answer that the
    handlers store render, and [neighbors] and [vertices] are arrays or
    falsy); the engine keeps both ([engine_render_contract] here,
    [System.engine_batch_contract]).

    [ainv] is the invariant of [Async.astep]: the page is [page_ok];
    every request in flight has a rest that keeps [page_ok] whatever the
    page it lands on and whatever the backend answers ([sent_ok]); every
    undelivered answer likewise ([arrival_ok]); every file being read was
    chosen on a page that rendered ([reading_ok]).  Each rule of [astep]
    preserves it ([astep_ainv]); by rule induction it holds in every
    state reachable from the first render, whose graph-info request is in
    flight ([never_crashes_async]). *)

From Stdlib Require Import QArith String.
From stdpp Require Import base list strings decidable gmap.
From S2P Require Import Prelude Graph Paths Euler JsValue Http Server Client View Contract System Async.

Module AsyncSafety.
Import GraphStore Paths Euler Js Http Server Client View Contract System Async.

(** ** What a successful answer must carry *)

(** The members the handlers store render; [neighbors] and [vertices]
    become arrays of renderable items through [|| []]. *)
Definition answer_okb (data : value) : bool :=
  forallb (fun k => renders_b (get_field data k)) ["result"; "message"; "path"; "length"; "order"; "size"] &&
  list_ok_b (js_or (get_field data "neighbors") (Arr [])) &&
  list_ok_b (js_or (get_field data "vertices") (Arr [])).

Definition result_okb (r : result string value) : bool :=
  match r with Ok data => answer_okb data | Err _ => true end.

Class RenderContract `{B : Backend} : Prop :=
  answers_render : forall s rq, result_okb (axios (snd (serve s rq))) = true.

(** JSON without objects inside: it renders once parsed. *)
Fixpoint jflat (j : json) : bool :=
  match j with JObj _ => false | JArr xs => forallb jflat xs | _ => true end.

Definition jarr (j : json) : bool := match j with JArr _ => true | _ => false end.

(** An answer body of the engine: an object of flat members, the lists
    [neighbors] and [vertices] arrays. *)
Definition jobj_ok (j : json) : bool :=
  match j with
  | JObj kvs =>
      forallb (fun kv => jflat (snd kv) &&
                 (if String.eqb (fst kv) "neighbors" || String.eqb (fst kv) "vertices"
                  then jarr (snd kv) else true)) kvs
  | _ => false
  end.

Section Safety.
Context `{B : Backend}.

(** The page is alive and renders. *)
Definition page_ok (w : world) : Prop := crashed w = false /\ view_okb (app w) = true.

(** A rest keeps [page_ok], whatever the page it runs against. *)
Definition rest_ok (x : rest) (s : App) (r : result string value) : Prop :=
  forall w, page_ok w -> page_ok (fst (run_rest x s r w)).

(** A request in flight: its rest keeps [page_ok] on the answer of any
    backend state. *)
Definition sent_ok (f : inflight) : Prop :=
  forall b, rest_ok (fl_rest f) (fl_captured f) (axios (snd (serve b (fl_request f)))).

Definition arrival_ok (a : arrival) : Prop := rest_ok (an_rest a) (an_captured a) (an_result a).

(** A file read started from a page that rendered. *)
Definition reading_ok (s : App) : Prop := view_okb s = true.

Definition ainv (aw : aworld) : Prop :=
  page_ok (page aw) /\ Forall sent_ok (sent aw) /\ Forall arrival_ok (received aw) /\
  Forall reading_ok (reading aw).

(** ** [page_ok] under the writes of the handlers *)

Lemma page_ok_hooks (w : world) : page_ok w -> hooks_ok w.
Proof.
  intros [Hc Hv]. unfold view_okb in Hv. cbn [forallb view_keys rendered_hooks app] in Hv.
  unfold hook_okb in Hv. cbn -[st list_ok_b arr_b info_ok_b renders_b] in Hv.
  rewrite !andb_true_iff in Hv. destruct Hv as (_ & Hvs & Hes & _).
  split; [done|]. unfold list_ok_b, arr_b in *.
  split; [destruct (st (app w) "vertices")|destruct (st (app w) "edges")]; by eauto.
Qed.

Lemma page_ok_set (w : world) k v : hook_okb k v = true -> page_ok w -> page_ok (set k v w).
Proof. intros Hk [Hc Hv]. split; [done|]. by apply view_okb_insert. Qed.

Lemma page_ok_emit (w : world) e : page_ok w -> page_ok (emit e w).
Proof. done. Qed.

Lemma page_ok_server (w : world) b' : page_ok w -> page_ok (mkWorld (app w) b' (effects w) (crashed w)).
Proof. done. Qed.

Lemma page_ok_with_server (w : world) b' : page_ok w -> page_ok (with_server w b').
Proof. done. Qed.

(** What [view_okb] says of the list hooks and of the new-vertex input. *)
Lemma view_okb_lists (s : App) :
  view_okb s = true ->
  (exists xs, st s "vertices" = Arr xs /\ renders_b (Arr xs) = true) /\
  (exists ys, st s "edges" = Arr ys) /\ renders_b (st s "newVertex") = true.
Proof.
  unfold view_okb. cbn [forallb view_keys rendered_hooks app]. unfold hook_okb.
  cbn -[st list_ok_b arr_b info_ok_b renders_b]. rewrite !andb_true_iff.
  intros (_ & Hvs & Hes & _ & _ & _ & _ & _ & _ & _ & Hnv & _). unfold list_ok_b, arr_b in *.
  split_and!; [destruct (st s "vertices")|destruct (st s "edges")|]; by eauto.
Qed.

Lemma page_ok_push_vertices (w : world) x : renders_b x = true -> page_ok w -> page_ok (push "vertices" x w).
Proof.
  intros Hx Hw. destruct (view_okb_lists _ (proj2 Hw)) as ([xs [Hxs Hr]] & _).
  unfold push. rewrite Hxs. cbn [items]. apply page_ok_set; [|done].
  change (renders_b (Arr (xs ++ [x])) = true). rewrite renders_arr, forallb_app, <- renders_arr, Hr.
  cbn. by rewrite Hx.
Qed.

Lemma page_ok_push_edges (w : world) x : page_ok w -> page_ok (push "edges" x w).
Proof.
  intros Hw. destruct (view_okb_lists _ (proj2 Hw)) as (_ & [ys Hys] & _).
  unfold push. rewrite Hys. cbn [items]. by apply page_ok_set.
Qed.

Lemma hook_info o z :
  renders_b o = true -> renders_b z = true -> hook_okb "graphInfo" (Obj [("order", o); ("size", z)]) = true.
Proof. intros Ho Hz. unfold hook_okb, info_ok_b. cbn -[renders_b]. by rewrite Ho, Hz. Qed.

(** The facts [answer_okb] gives. *)
Lemma answer_facts data :
  answer_okb data = true ->
  renders_b (get_field data "result") = true /\ renders_b (get_field data "message") = true /\
  renders_b (get_field data "path") = true /\ renders_b (get_field data "length") = true /\
  renders_b (get_field data "order") = true /\ renders_b (get_field data "size") = true /\
  list_ok_b (js_or (get_field data "neighbors") (Arr [])) = true /\
  list_ok_b (js_or (get_field data "vertices") (Arr [])) = true.
Proof. unfold answer_okb. cbn [forallb]. rewrite !andb_true_iff. tauto. Qed.

(** The vertex Set of the parsing loop keeps a property every label has. *)
Lemma parse_lines_fst (P : value -> Prop) t acc :
  (forall a, P (Str a)) -> Forall P (fst acc) -> Forall P (fst (parse_lines t acc)).
Proof.
  intros HP. unfold parse_lines. generalize (split newline t) as ls. intros ls.
  revert acc. induction ls as [|l ls IH]; intros acc Hacc; [done|]. cbn [fold_left]. apply IH.
  unfold batch_line. case_match; [|done]. cbn zeta.
  destruct (_ =? 3); cbn [fst]; apply set_add_Forall; [done| |done|]; by apply set_add_Forall.
Qed.

Create HintDb pages discriminated.
#[local] Hint Resolve page_ok_emit page_ok_server page_ok_with_server page_ok_push_edges : pages.
#[local] Hint Extern 2 (page_ok (set _ _ _)) =>
  apply page_ok_set; [first [reflexivity | assumption | by apply hook_info] |] : pages.
#[local] Hint Extern 2 (page_ok (push "vertices" _ _)) =>
  apply page_ok_push_vertices; [assumption |] : pages.

(** Split an answer on the promise and on a [null] body. *)
Ltac answer_cases r :=
  destruct r as [?data|?m]; cbn [result_okb];
  [intros Hr; destruct (answer_facts _ Hr) as (? & ? & ? & ? & ? & ? & ? & ?)|intros _];
  cbn -[st renders_b list_ok_b get_field js_or]; try destruct (nullish _); eauto 10 with pages.

(** ** The rests of the handlers *)

Lemma final_answers_page b rq k s r (w : world) :
  click_request b = (rq, Final k) -> renders_b (st s "newVertex") = true ->
  result_okb r = true -> page_ok w -> page_ok (k s r w).
Proof.
  destruct b; cbn; intros [= <- <-] Hs; intros ? Hw;
    unfold eulerian_answer, verify_answer, adjacency_answer, degree_answer, path_answer,
      add_vertex_answer, add_edge_answer, fetchGraphInfo_done; revert dependent r; intros r;
    answer_cases r.
Qed.

Lemma fst_refresh k s r (w : world) : fst (run_rest (Refresh k) s r w) = fst (k s r w).
Proof. cbn. by destruct (k s r w). Qed.

Lemma fetchGraphInfo_done_page r (w : world) : result_okb r = true -> page_ok w -> page_ok (fetchGraphInfo_done r w).
Proof. intros ? Hw. revert dependent r. intros r. unfold fetchGraphInfo_done. answer_cases r. Qed.

Lemma create_answer_page s r (w : world) : page_ok w -> page_ok (fst (create_answer s r w)).
Proof.
  intros Hw. unfold create_answer. destruct r as [data|m]; cbn -[st]; [destruct (nullish data)|];
    cbn; eauto 10 with pages.
Qed.

Lemma upload_onload_page s (w : world) :
  reading_ok s -> page_ok w -> page_ok (fst (upload_onload s w)) /\ exists body, snd (upload_onload s w) = Some (batch_post body).
Proof.
  intros Hs Hw. destruct (view_okb_lists s Hs) as ([vs0 [Hvs Hr]] & [es0 Hes] & _).
  unfold upload_onload. rewrite Hvs, Hes. cbn [set_items nullish items].
  pose proof (parse_lines_fst (fun x => renders_b x = true) (file_text (st s "selectedFile"))
                (set_of_list vs0, es0) (fun _ => eq_refl)) as Hp.
  destruct (parse_lines _ _) as [vs es]. cbn [fst snd] in *. split; [|by eexists].
  apply page_ok_set; [done|]. apply page_ok_set; [|done].
  change (renders_b (Arr vs) = true). rewrite renders_arr. apply forallb_forall. intros x Hx.
  apply list_elem_of_In in Hx. refine (proj1 (Forall_forall _ _) (Hp _) x Hx).
  apply set_of_list_Forall. rewrite renders_arr in Hr. apply Forall_forall. intros y Hy.
  apply (proj1 (forallb_forall _ _) Hr). by apply list_elem_of_In.
Qed.

Section WithContract.
Context {HC : BatchContract} {HR : RenderContract}.

(** The batch answers adopt the answer's lists. *)
Lemma batch_lists_page (b : backend_state) body (w : world) :
  page_ok w ->
  match axios (snd (serve b (batch_post body))) with
  | Ok data =>
      page_ok (set "edges" (js_or (get_field data "edges") (Arr []))
                 (set "vertices" (js_or (get_field data "vertices") (Arr [])) w))
  | Err _ => True
  end.
Proof.
  intros Hw. pose proof (batch_answer_lists b body) as Hl. pose proof (answers_render b (batch_post body)) as Hr.
  destruct (axios _) as [data|m]; [|done]. destruct Hl as [_ He]. cbn in Hr.
  destruct (answer_facts _ Hr) as (_ & _ & _ & _ & _ & _ & _ & Hv).
  destruct (js_or_arr _ He) as [ys ->]. apply page_ok_set; [done|]. by apply page_ok_set.
Qed.

Lemma batch_answer_page s' body b (w : world) :
  page_ok w -> page_ok (fst (batch_answer s' (axios (snd (serve b (batch_post body)))) w)).
Proof.
  intros Hw. pose proof (batch_lists_page b body (emit (ConsoleLog Undefined) w) Hw) as Hl.
  unfold batch_answer. destruct (axios _) as [data|m]; cbn [fst]; [|eauto with pages].
  destruct (nullish data); cbn [fst]; [eauto with pages|]. apply page_ok_emit. exact Hl.
Qed.

Lemma upload_answer_page s' body b (w : world) :
  page_ok w -> page_ok (upload_answer s' (axios (snd (serve b (batch_post body)))) w).
Proof.
  intros Hw. pose proof (batch_lists_page b body (emit (ConsoleLog Undefined) w) Hw) as Hl.
  unfold upload_answer. destruct (axios _) as [data|m]; [|eauto with pages].
  destruct (nullish data); [eauto with pages|]. apply page_ok_emit. exact Hl.
Qed.

(** ** The steps of [astep] *)

Lemma refresh_ok s : sent_ok (refresh_request s).
Proof. intros b w Hw. cbn. apply fetchGraphInfo_done_page; [apply HR|done]. Qed.

Lemma run_rest_sent x s r (w : world) : Forall sent_ok (snd (run_rest x s r w)).
Proof.
  destruct x as [k|k]; cbn; [constructor|].
  destruct (k s r w) as [w' []]; cbn; [constructor; [apply refresh_ok|constructor]|constructor].
Qed.

Lemma click_sent_ok b (s : App) :
  view_okb s = true -> sent_ok (mkInflight (fst (click_request b) s) s (snd (click_request b))).
Proof.
  intros Hs. destruct (view_okb_lists s Hs) as (_ & _ & Hnv).
  destruct (click_request b) as [rq [k|k]] eqn:E; intros b0 w Hw;
    cbn [fst snd fl_rest fl_captured fl_request]; rewrite ?fst_refresh.
  - exact (final_answers_page b rq k s _ w E Hnv (HR _ _) Hw).
  - destruct b; cbn in E; simplify_eq. unfold batch_request. destruct (parse_lines _ _).
    by apply batch_answer_page.
Qed.

(** The events that start no request keep the page rendering. *)
Lemma event_page ev (w : world) : async_start ev w = None -> page_ok w -> page_ok (dispatch ev w).
Proof.
  intros E Hw. unfold dispatch. rewrite (proj1 Hw).
  destruct ev as [v|v| |files| |v|f t|b]; cbn [async_start on_event] in E |- *; try discriminate;
    try (destruct (negb _); discriminate); try (apply page_ok_set; [reflexivity|done]).
  - destruct (field_shown _ _); [|done]. apply page_ok_set; [by destruct f|done].
  - destruct (button_shown _ b); [|done]. by destruct (click_request b).
Qed.

Lemma start_ok ev (w w' : world) fl rd :
  page_ok w -> async_start ev w = Some (w', fl, rd) ->
  page_ok w' /\ Forall sent_ok fl /\ Forall reading_ok rd.
Proof.
  intros Hw. destruct ev; cbn; try discriminate.
  - intros [= <- <- <-]. split_and!; [done| |constructor]. constructor; [|constructor].
    intros b w0 Hw0. cbn [fl_rest fl_captured]. rewrite fst_refresh. by apply create_answer_page.
  - destruct (negb _); intros [= <- <- <-]; split_and!; eauto with pages.
    constructor; [exact (proj2 Hw)|constructor].
  - destruct (button_shown _ _); [|discriminate].
    pose proof (click_sent_ok b (app w) (proj2 Hw)) as Hb. destruct (click_request b) as [rq k].
    intros [= <- <- <-]. split_and!; [done| |constructor]. constructor; [exact Hb|constructor].
Qed.

Lemma serve_ainv i f aw :
  ainv aw -> sent aw !! i = Some f -> ainv (serve_at i f aw).
Proof.
  intros (Hw & Hs & Hr & Hd) Hi. pose proof (Forall_lookup_1 _ _ _ _ Hs Hi (server (page aw))) as Hf.
  unfold sent_ok in Hf. unfold serve_at. destruct (serve _ _) as [b' o] eqn:E. cbn [snd] in Hf.
  split_and!; cbn [page sent received reading]; [by apply page_ok_with_server|by apply Forall_delete| |done].
  apply Forall_app. split; [done|]. constructor; [exact Hf|constructor].
Qed.

Lemma deliver_ainv i a aw :
  ainv aw -> received aw !! i = Some a -> ainv (deliver_at i a aw).
Proof.
  intros (Hw & Hs & Hr & Hd) Hi. pose proof (Forall_lookup_1 _ _ _ _ Hr Hi) as Ha.
  unfold deliver_at. rewrite (proj1 Hw).
  pose proof (Ha _ Hw) as Hw'. pose proof (run_rest_sent (an_rest a) (an_captured a) (an_result a) (page aw)) as Hn.
  destruct (run_rest _ _ _ _) as [w' fl]. cbn in Hw', Hn.
  split_and!; cbn [page sent received reading]; [done|by apply Forall_app|by apply Forall_delete|done].
Qed.

Lemma load_ainv i s aw :
  ainv aw -> reading aw !! i = Some s -> ainv (load_at i s aw).
Proof.
  intros (Hw & Hs & Hr & Hd) Hi. pose proof (Forall_lookup_1 _ _ _ _ Hd Hi) as Hsd.
  unfold load_at. rewrite (proj1 Hw).
  destruct (upload_onload_page s (page aw) Hsd Hw) as [Hw' [body Hp]].
  destruct (upload_onload _ _) as [w' orq]. cbn in Hw', Hp. subst orq.
  split_and!; cbn [page sent received reading]; [done| |done|by apply Forall_delete].
  apply Forall_app. split; [done|]. constructor; [|constructor].
  intros b w0 Hw0. cbn. by apply upload_answer_page.
Qed.

Lemma astep_ainv aw aw' : ainv aw -> astep aw aw' -> ainv aw'.
Proof.
  intros Hinv Hst. destruct Hst as [ev aw0 Hn|ev aw0 w' fl rd Hc Hst|aw0 aw1 Hnet].
  - destruct Hinv as (Hw & Hs & Hr & Hd). split_and!; [|done|done|done]. cbn. by apply event_page.
  - destruct Hinv as (Hw & Hs & Hr & Hd). destruct (start_ok ev _ _ _ _ Hw Hst) as (Hw' & Hfl & Hrd).
    split_and!; cbn; [done|by apply Forall_app|done|by apply Forall_app].
  - destruct Hnet as [i f aw0 Hi|i a aw0 Hi|i s aw0 Hi];
      [by apply serve_ainv|by apply deliver_ainv|by apply load_ainv].
Qed.

Lemma asteps_ainv aw aw' : asteps aw aw' -> ainv aw -> ainv aw'.
Proof. induction 1 as [|x y z Hxy _ IH]; [done|]. intros Hx. by apply IH, (astep_ainv x). Qed.

Lemma aload_ainv b : ainv (aload b).
Proof.
  split_and!; [split; [done|vm_compute; reflexivity]|constructor; [apply refresh_ok|constructor]
              |constructor|constructor].
Qed.


End WithContract.

End Safety.

(** ** The engine keeps [RenderContract] *)

Lemma renders_of_json j : jflat j = true -> renders_b (of_json j) = true.
Proof.
  revert j. fix IH 1. intros [| | | |xs|fs]; cbn [jflat of_json]; try done.
  rewrite renders_arr. revert xs. fix IHl 1. intros [|x xs]; cbn [forallb map]; [done|].
  rewrite !andb_true_iff. intros [Hx Hxs]. split; [exact (IH x Hx)|exact (IHl xs Hxs)].
Qed.

Lemma get_field_of_json kvs k :
  get_field (of_json (JObj kvs)) k =
  match List.find (fun p => String.eqb (fst p) k) kvs with Some p => of_json (snd p) | None => Undefined end.
Proof.
  induction kvs as [|[k' j] kvs IH]; [done|]. cbn [of_json map List.find fst snd] in *.
  unfold get_field in *. cbn [List.find fst]. by destruct (String.eqb k' k).
Qed.

Lemma jobj_field kvs k :
  jobj_ok (JObj kvs) = true ->
  match List.find (fun p => String.eqb (fst p) k) kvs with
  | Some p => jflat (snd p) = true /\ (k = "neighbors" \/ k = "vertices" -> jarr (snd p) = true)
  | None => True
  end.
Proof.
  cbn [jobj_ok]. rewrite forallb_forall. intros H.
  destruct (List.find _ kvs) as [[k' j]|] eqn:E; [|done].
  apply List.find_some in E as [Hin Heq%String.eqb_eq]. cbn in Heq. subst k'.
  specialize (H _ Hin). cbn in H. apply andb_true_iff in H as [Hf Ha].
  split; [done|]. intros [-> | ->]; exact Ha.
Qed.

Lemma jobj_answer j : jobj_ok j = true -> answer_okb (of_json j) = true.
Proof.
  destruct j as [| | | | |kvs]; try discriminate. intros H.
  assert (Hr : forall k, renders_b (get_field (of_json (JObj kvs)) k) = true).
  { intros k. rewrite get_field_of_json. pose proof (jobj_field kvs k H) as Hk.
    destruct (List.find _ kvs); [by apply renders_of_json, Hk|done]. }
  assert (Hl : forall k, k = "neighbors" \/ k = "vertices" ->
                 list_ok_b (js_or (get_field (of_json (JObj kvs)) k) (Arr [])) = true).
  { intros k Hk. rewrite get_field_of_json. pose proof (jobj_field kvs k H) as Hf.
    destruct (List.find _ kvs) as [[k' j]|]; [|done]. destruct Hf as [Hf Ha]. specialize (Ha Hk).
    destruct j; try discriminate. apply (renders_of_json _ Hf). }
  unfold answer_okb. cbn [forallb]. rewrite !Hr, !Hl by auto. done.
Qed.

Lemma ok_render j : jobj_ok j = true -> result_okb (axios (ok j)) = true.
Proof. apply jobj_answer. Qed.

Lemma error_render e : result_okb (axios (error_outcome e)) = true.
Proof. by destruct e. Qed.

Lemma jflat_map {A} (f : A -> json) l : (forall x, jflat (f x) = true) -> forallb jflat (map f l) = true.
Proof. intros Hf. induction l as [|x l IH]; [done|]. cbn. by rewrite Hf, IH. Qed.

Lemma jflat_edge e : jflat (edge_json e) = true.
Proof. by destruct e as [a b [q|]]. Qed.

Lemma get_endpoint_render path args g : result_okb (axios (get_endpoint path args g)) = true.
Proof.
  unfold get_endpoint, answer.
  repeat case_match; try reflexivity; try apply error_render; apply ok_render; cbn;
    rewrite ?jflat_map by done; try reflexivity.
  - by destruct (snd _).
Qed.

Lemma handle_render g rq : result_okb (axios (snd (handle g rq))) = true.
Proof.
  unfold handle. destruct (parse_target _) as [[path args]|]; [|reflexivity].
  destruct (rmethod rq); [apply get_endpoint_render|].
  unfold post_create, post_add_vertex, post_add_edge, post_insert_batch.
  repeat case_match; cbn [snd]; try reflexivity; try apply error_render.
  apply ok_render. cbn. rewrite !jflat_map by (try done; apply jflat_edge). done.
Qed.

#[export] Instance engine_render_contract : RenderContract (B := engine).
Proof. intros g rq. apply handle_render. Qed.

(** ** Witness *)


End AsyncSafety.
